(** * Filter engine and flattener of [broker/helpers.py]

    A shallow embedding of [flatten_dict], [classify_filter],
    [inventory_filter] and [results_filter], with the Python behaviour they
    rely on ([str.split], [in] on strings, [str.format], [str()], [del] on a
    list, [dict()] on a list of pairs and the fragment of [eval] reached by
    the operator table) written out, and the properties of the filter
    language proved or refuted on it.  After them come [clean_dict],
    [merge_dicts], [load_file], [load_inventory], [update_inventory] and
    [resolve_file_args], with the inventory file as an explicit state. *)

From Stdlib Require Import String Ascii List ZArith Bool Arith Lia.
From Stdlib Require Import DecimalString Permutation.
Import ListNotations.

Open Scope list_scope.
Open Scope string_scope.

(** ** Outcomes of Python code *)

(** The exceptions the modelled code can raise. *)
Inductive exn : Type :=
| AttributeError
| ValueError
| IndexError
| KeyError
| SyntaxError
| RecursionError.

(** A call returns, raises, or leaves what this development interprets:
    [Unmodelled] is the outcome of [eval] and [str.format] outside the
    fragment written out below, and of a step on a store that does not hold
    the object the step is about. *)
Inductive outcome (A : Type) : Type :=
| Ok (a : A)
| Raise (e : exn)
| Unmodelled.

Arguments Ok {A} a.
Arguments Raise {A} e.
Arguments Unmodelled {A}.

Definition bind {A B : Type} (m : outcome A) (k : A -> outcome B) : outcome B :=
  match m with
  | Ok a => k a
  | Raise e => Raise e
  | Unmodelled => Unmodelled
  end.

Notation "x <- m ;; k" := (bind m (fun x => k))
  (at level 61, m at next level, right associativity).

(** A list comprehension [[f(x) for x in xs]]: left to right, the first
    exception ends it. *)
Fixpoint comprehension {A B : Type} (f : A -> outcome B) (xs : list A)
  : outcome (list B) :=
  match xs with
  | [] => Ok []
  | x :: xs' =>
      y <- f x ;;
      ys <- comprehension f xs' ;;
      Ok (y :: ys)
  end.

(** ** Python strings *)

(** [strip_prefix p s] is the rest of [s] after its prefix [p], if [p] is one
    ([s.startswith(p)]). *)
Fixpoint strip_prefix (p s : string) : option string :=
  match p with
  | EmptyString => Some s
  | String a p' =>
      match s with
      | EmptyString => None
      | String b s' => if Ascii.eqb a b then strip_prefix p' s' else None
      end
  end.

Definition startswith (s p : string) : bool :=
  match strip_prefix p s with Some _ => true | None => false end.

(** [sub in s] on strings. *)
Fixpoint py_in (sub s : string) : bool :=
  match strip_prefix sub s with
  | Some _ => true
  | None =>
      match s with
      | EmptyString => false
      | String _ s' => py_in sub s'
      end
  end.

(** The number of positions of [s] at which [sub] occurs. *)
Fixpoint occurrences (sub s : string) : nat :=
  (if startswith s sub then 1 else 0) +
  match s with
  | EmptyString => 0
  | String _ s' => occurrences sub s'
  end.

(** [s.split(sep)] for a non-empty [sep]: the separator is searched from the
    left, occurrences do not overlap, the parts between them are returned.
    [cur] is the part being read; [fuel] bounds the scan and
    [S (length s)] is enough. *)
Fixpoint split_from (fuel : nat) (sep cur s : string) : list string :=
  match fuel with
  | O => [cur ++ s]
  | S fuel' =>
      match strip_prefix sep s with
      | Some rest => cur :: split_from fuel' sep "" rest
      | None =>
          match s with
          | EmptyString => [cur]
          | String c s' => split_from fuel' sep (cur ++ String c "") s'
          end
      end
  end.

Definition py_split (sep s : string) : list string :=
  split_from (S (String.length s)) sep "" s.

(** [sep.join(parts)]. *)
Fixpoint py_join (sep : string) (parts : list string) : string :=
  match parts with
  | [] => ""
  | [p] => p
  | p :: ps => p ++ sep ++ py_join sep ps
  end.

(** ** The filter parser *)

(** [FilterTest = namedtuple("FilterTest", "haystack needle test")]. *)
Record FilterTest : Type := mkFilterTest {
  haystack : string;
  needle : string;
  test : string
}.

(** The operator table of [classify_filter], in the order of the dict
    literal (the order in which [tests.items()] yields it). *)
Definition tests : list (string * string) :=
  [ ("!<", "'{needle}' not in '{haystack}'");
    ("<",  "'{needle}' in '{haystack}'");
    ("!=", "'{haystack}' != '{needle}'");
    ("=",  "'{haystack}' == '{needle}'");
    ("!{", "not '{haystack}'.startswith('{needle}')");
    ("{",  "'{haystack}'.startswith('{needle}')");
    ("!}", "not '{haystack}'.endswith('{needle}')");
    ("}",  "'{haystack}'.endswith('{needle}')") ].

(** What [classify_filter] returns: [None] when it falls off its end, a
    [FilterTest], or a list of such results. *)
#[warnings="-register-all"]
Inductive classified : Type :=
| CNone
| CTest (ft : FilterTest)
| CList (l : list classified).

(** The loop [for cond, test in tests.items()].  [k, v = ...split(cond)]
    unpacks a list of exactly two parts and raises [ValueError] on any other
    length. *)
Fixpoint classify_scan (tbl : list (string * string)) (filter_string : string)
  : outcome classified :=
  match tbl with
  | [] => Ok CNone
  | (cond, tst) :: tbl' =>
      if py_in cond filter_string then
        match py_split cond filter_string with
        | [k; v] => Ok (CTest (mkFilterTest k v tst))
        | _ => Raise ValueError
        end
      else classify_scan tbl' filter_string
  end.

(** [classify_filter], with the depth of the Python call stack left to it as
    [depth]. *)
Fixpoint classify_filter_depth (depth : nat) (filter_string : string)
  : outcome classified :=
  match depth with
  | O => Raise RecursionError
  | S depth' =>
      if py_in "," filter_string then
        l <- comprehension (classify_filter_depth depth')
                           (py_split "," filter_string) ;;
        Ok (CList l)
      else classify_scan tests filter_string
  end.

Definition recursion_limit : nat := 1000.

Definition classify_filter (filter_string : string) : outcome classified :=
  classify_filter_depth recursion_limit filter_string.

(** The first row of the table whose token occurs in the clause. *)
Definition first_match (tbl : list (string * string)) (clause : string)
  : option (string * string) :=
  find (fun row => py_in (fst row) clause) tbl.


(** ** Python values *)

(** The values a record holds: scalars, sequences and records with string
    keys.  A dict is the list of its items in insertion order.  Floats are
    left out. *)
#[warnings="-register-all"]
Inductive pyvalue : Type :=
| VNone
| VBool (b : bool)
| VInt (z : Z)
| VStr (s : string)
| VList (elems : list pyvalue)
| VDict (items : list (string * pyvalue)).

(** The double quote character. *)
Definition double_quote : ascii := ascii_of_nat 34.

Definition str_of_Z (z : Z) : string := NilZero.string_of_int (Z.to_int z).

Definition hex_digit (n : nat) : ascii :=
  ascii_of_nat (if Nat.ltb n 10 then 48 + n else 87 + n).

(** [repr] of a string: single quotes, unless the string holds a single
    quote and no double quote; backslash, the chosen quote and control
    characters escaped.  Characters above 127 are copied. *)
Definition py_repr_char (q c : ascii) : string :=
  let n := nat_of_ascii c in
  if Ascii.eqb c "\"%char then "\\"
  else if Ascii.eqb c q then String "\"%char (String q "")
  else if Nat.eqb n 9 then "\t"
  else if Nat.eqb n 10 then "\n"
  else if Nat.eqb n 13 then "\r"
  else if Nat.ltb n 32 || Nat.eqb n 127 then
    String "\"%char (String "x"%char
      (String (hex_digit (n / 16)) (String (hex_digit (n mod 16)) "")))
  else String c "".

Fixpoint py_repr_body (q : ascii) (s : string) : string :=
  match s with
  | EmptyString => ""
  | String c s' => py_repr_char q c ++ py_repr_body q s'
  end.

Definition py_repr_str (s : string) : string :=
  let q := if py_in "'" s && negb (py_in (String double_quote "") s)
           then double_quote else "'"%char in
  String q (py_repr_body q s ++ String q "").

(** [repr(v)]; [str(v)] differs from it on strings only. *)
Fixpoint py_repr (v : pyvalue) : string :=
  match v with
  | VNone => "None"
  | VBool true => "True"
  | VBool false => "False"
  | VInt z => str_of_Z z
  | VStr s => py_repr_str s
  | VList elems => "[" ++ py_join ", " (map py_repr elems) ++ "]"
  | VDict items =>
      "{" ++ py_join ", "
               (map (fun kv => py_repr_str (fst kv) ++ ": " ++ py_repr (snd kv))
                    items) ++ "}"
  end.

Definition py_str (v : pyvalue) : string :=
  match v with
  | VStr s => s
  | _ => py_repr v
  end.

(** ** [str.format] on the templates *)

(** [template.format(haystack=h, needle=n)], for templates whose only
    braces are replacement fields [{name}]: [field] is the name being read
    after an opening brace.  A field that no keyword names raises
    [KeyError]; doubled braces, conversions and format specifications are not
    interpreted. *)
Fixpoint format_from (template : string) (field : option string)
         (h n : string) : outcome string :=
  match template with
  | EmptyString =>
      match field with
      | None => Ok ""
      | Some _ => Raise ValueError
      end
  | String c t =>
      match field with
      | None =>
          if Ascii.eqb c "{" then format_from t (Some "") h n
          else if Ascii.eqb c "}" then Unmodelled
          else r <- format_from t None h n ;; Ok (String c r)
      | Some name =>
          if Ascii.eqb c "}" then
            if String.eqb name "haystack" then
              r <- format_from t None h n ;; Ok (h ++ r)
            else if String.eqb name "needle" then
              r <- format_from t None h n ;; Ok (n ++ r)
            else Raise KeyError
          else if Ascii.eqb c "{" || Ascii.eqb c "!" || Ascii.eqb c ":"
                  || Ascii.eqb c "." || Ascii.eqb c "[" then Unmodelled
          else format_from t (Some (name ++ String c "")) h n
      end
  end.

Definition py_format (template h n : string) : outcome string :=
  format_from template None h n.

(** ** The fragment of [eval] reached by the templates *)

Inductive token : Type :=
| TStr (s : string)
| TName (s : string)
| TDot
| TLParen
| TRParen
| TEqEq
| TNotEq.

(** Where the scanner is: between tokens, in a name, in a single-quoted
    string literal, or after [=] or [!]. *)
Inductive lex_mode : Type :=
| LCode
| LName (acc : string)
| LStr (acc : string)
| LEq
| LBang.

Definition is_letter (c : ascii) : bool :=
  let n := nat_of_ascii c in
  (Nat.leb 65 n && Nat.leb n 90) || (Nat.leb 97 n && Nat.leb n 122)
  || Nat.eqb n 95.

Definition is_digit (c : ascii) : bool :=
  let n := nat_of_ascii c in Nat.leb 48 n && Nat.leb n 57.

(** The letters of Python's string prefixes ([r], [u], [b], [f], [t] in
    either case): a name made of them only, written against a quote, may be
    a prefix of the literal and is not interpreted. *)
Definition is_prefix_letter (c : ascii) : bool :=
  py_in (String c "") "rRuUbBfFtT".

Fixpoint all_chars (p : ascii -> bool) (s : string) : bool :=
  match s with
  | EmptyString => true
  | String c s' => p c && all_chars p s'
  end.

(** A character that a single-quoted literal holds as itself: a printable
    ASCII character that is neither the quote nor the backslash. *)
Definition literal_char (c : ascii) : bool :=
  negb (Ascii.eqb c "'") && negb (Ascii.eqb c "\"%char)
  && Nat.leb 32 (nat_of_ascii c) && Nat.leb (nat_of_ascii c) 126.

(** One character read between tokens; [k] scans the rest in the mode
    given. *)
Definition lex_code (c : ascii) (rest : string)
           (k : lex_mode -> outcome (list token)) : outcome (list token) :=
  if Ascii.eqb c " " then k LCode
  else if Ascii.eqb c "'" then
    if startswith rest "''" then Unmodelled else k (LStr "")
  else if is_letter c then k (LName (String c ""))
  else if Ascii.eqb c "." then ts <- k LCode ;; Ok (TDot :: ts)
  else if Ascii.eqb c "(" then ts <- k LCode ;; Ok (TLParen :: ts)
  else if Ascii.eqb c ")" then ts <- k LCode ;; Ok (TRParen :: ts)
  else if Ascii.eqb c "=" then k LEq
  else if Ascii.eqb c "!" then k LBang
  else Unmodelled.

(** The scanner.  A string literal still open at the end of the source is
    Python's [SyntaxError: unterminated string literal]; whatever the
    scanner does not know is [Unmodelled]. *)
Fixpoint lex (src : string) (mode : lex_mode) : outcome (list token) :=
  match src with
  | EmptyString =>
      match mode with
      | LCode => Ok []
      | LName acc => Ok [TName acc]
      | LStr _ => Raise SyntaxError
      | LEq | LBang => Unmodelled
      end
  | String c rest =>
      match mode with
      | LCode => lex_code c rest (lex rest)
      | LName acc =>
          if is_letter c || is_digit c then lex rest (LName (acc ++ String c ""))
          else if (Ascii.eqb c "'" || Ascii.eqb c double_quote)
                  && all_chars is_prefix_letter acc then Unmodelled
          else ts <- lex_code c rest (lex rest) ;; Ok (TName acc :: ts)
      | LStr acc =>
          if Ascii.eqb c "'" then ts <- lex rest LCode ;; Ok (TStr acc :: ts)
          else if literal_char c then lex rest (LStr (acc ++ String c ""))
          else Unmodelled
      | LEq =>
          if Ascii.eqb c "=" then ts <- lex rest LCode ;; Ok (TEqEq :: ts)
          else Unmodelled
      | LBang =>
          if Ascii.eqb c "=" then ts <- lex rest LCode ;; Ok (TNotEq :: ts)
          else Unmodelled
      end
  end.

Fixpoint string_rev (s : string) : string :=
  match s with
  | EmptyString => ""
  | String c s' => string_rev s' ++ String c ""
  end.

(** [s.endswith(p)]. *)
Definition endswith (s p : string) : bool :=
  startswith (string_rev s) (string_rev p).

(** A comparison of two literals, or a method call on one. *)
Definition parse_test (ts : list token) : outcome bool :=
  match ts with
  | [TStr a; TName op; TStr b] =>
      if String.eqb op "in" then Ok (py_in a b) else Unmodelled
  | [TStr a; TName op1; TName op2; TStr b] =>
      if String.eqb op1 "not" && String.eqb op2 "in" then Ok (negb (py_in a b))
      else Unmodelled
  | [TStr a; TEqEq; TStr b] => Ok (String.eqb a b)
  | [TStr a; TNotEq; TStr b] => Ok (negb (String.eqb a b))
  | [TStr a; TDot; TName m; TLParen; TStr b; TRParen] =>
      if String.eqb m "startswith" then Ok (startswith a b)
      else if String.eqb m "endswith" then Ok (endswith a b)
      else Unmodelled
  | _ => Unmodelled
  end.

(** The keywords of Python. *)
Definition keywords : list string :=
  [ "False"; "None"; "True"; "and"; "as"; "assert"; "async"; "await";
    "break"; "class"; "continue"; "def"; "del"; "elif"; "else"; "except";
    "finally"; "for"; "from"; "global"; "if"; "import"; "in"; "is";
    "lambda"; "nonlocal"; "not"; "or"; "pass"; "raise"; "return"; "try";
    "while"; "with"; "yield" ].

(** A string literal with an identifier right after it: no expression of
    Python has the two side by side, whatever else it holds. *)
Fixpoint juxtaposed (ts : list token) : bool :=
  match ts with
  | [] => false
  | t :: rest =>
      match t, rest with
      | TStr _, TName name :: _ =>
          negb (existsb (String.eqb name) keywords) || juxtaposed rest
      | _, _ => juxtaposed rest
      end
  end.

(** [eval(src)] on the expressions the eight templates give: a test as
    above, with [not] in front or not.  A source that the scanner reads to
    its end and that puts an identifier right after a string literal is a
    [SyntaxError]. *)
Definition py_eval (src : string) : outcome bool :=
  ts <- lex src LCode ;;
  if juxtaposed ts then Raise SyntaxError
  else
    match ts with
    | TName op :: ts' =>
        if String.eqb op "not" then b <- parse_test ts' ;; Ok (negb b)
        else Unmodelled
    | _ => parse_test ts
    end.

(** ** Dicts and lists *)

Definition dict := list (string * pyvalue).

(** [key in d]. *)
Fixpoint dict_has {V : Type} (d : list (string * V)) (key : string) : bool :=
  match d with
  | [] => false
  | (k, _) :: d' => String.eqb k key || dict_has d' key
  end.

(** [d[key]]. *)
Fixpoint dict_get {V : Type} (d : list (string * V)) (key : string)
  : outcome V :=
  match d with
  | [] => Raise KeyError
  | (k, v) :: d' => if String.eqb k key then Ok v else dict_get d' key
  end.

(** [d[key] = v]: a key already there keeps its place. *)
Fixpoint dict_set {V : Type} (d : list (string * V)) (key : string) (v : V)
  : list (string * V) :=
  match d with
  | [] => [(key, v)]
  | (k, w) :: d' =>
      if String.eqb k key then (k, v) :: d' else (k, w) :: dict_set d' key v
  end.

(** [dict(pairs)]. *)
Definition py_dict {V : Type} (pairs : list (string * V))
  : list (string * V) :=
  fold_left (fun d kv => dict_set d (fst kv) (snd kv)) pairs [].

(** [del l[index]] for an index that is not negative. *)
Definition py_del {A : Type} (index : nat) (l : list A) : outcome (list A) :=
  if Nat.ltb index (List.length l)
  then Ok (firstn index l ++ skipn (S index) l)%list
  else Raise IndexError.

(** [for index in to_remove: del value[index]]. *)
Fixpoint del_each {A : Type} (to_remove : list nat) (value : list A)
  : outcome (list A) :=
  match to_remove with
  | [] => Ok value
  | index :: to_remove' =>
      value' <- py_del index value ;;
      del_each to_remove' value'
  end.

(** [isinstance(v, dict)]. *)
Definition is_dict (v : pyvalue) : bool :=
  match v with VDict _ => true | _ => false end.

(** ** The flattener *)

(** [new_key = f"{parent_key}{separator}{key}" if parent_key else key]. *)
Definition new_key_of (parent_key separator key : string) : string :=
  match parent_key with
  | EmptyString => key
  | _ => parent_key ++ separator ++ key
  end.

Section Body.

(** The recursive call. *)
Variable flatten : pyvalue -> string -> string -> outcome dict.

(** [for index, val in enumerate(value)], carrying the local lists
    [flattened] and [to_remove]. *)
Fixpoint enum_loop (new_key separator : string) (elems : list pyvalue)
         (index : nat) (flattened : list (string * pyvalue))
         (to_remove : list nat)
  : outcome (list (string * pyvalue) * list nat) :=
  match elems with
  | [] => Ok (flattened, to_remove)
  | val :: elems' =>
      match val with
      | VDict _ =>
          sub <- flatten val new_key separator ;;
          enum_loop new_key separator elems' (S index)
                    (flattened ++ sub)%list (to_remove ++ [index])%list
      | _ => enum_loop new_key separator elems' (S index) flattened to_remove
      end
  end.

(** [for key, value in nested_dict.items()], carrying [flattened]. *)
Fixpoint items_loop (parent_key separator : string)
         (items : list (string * pyvalue))
         (flattened : list (string * pyvalue))
  : outcome (list (string * pyvalue)) :=
  match items with
  | [] => Ok flattened
  | (key, value) :: items' =>
      let new_key := new_key_of parent_key separator key in
      match value with
      | VDict _ =>
          sub <- flatten value new_key separator ;;
          items_loop parent_key separator items' (flattened ++ sub)%list
      | VList elems =>
          r <- enum_loop new_key separator elems 0 flattened [] ;;
          value' <- del_each (snd r) elems ;;
          items_loop parent_key separator items'
                     (fst r ++ [(new_key, VList value')])%list
      | _ => items_loop parent_key separator items'
                        (flattened ++ [(new_key, value)])%list
      end
  end.

End Body.

(** [flatten_dict(nested_dict, parent_key, separator)]; the result is the
    items of the dict returned.  [.items()] on a value that is no dict
    raises [AttributeError].  The recursion follows the nesting of the
    value and the depth of the Python stack is left out here: on a value
    nested too deep for the stack the code raises [RecursionError],
    whatever this function gives.  [Heap.flatten_dict] below carries the
    depth. *)
Fixpoint flatten_dict (nested_dict : pyvalue) (parent_key separator : string)
  : outcome dict :=
  match nested_dict with
  | VDict items =>
      flattened <- items_loop flatten_dict parent_key separator items [] ;;
      Ok (py_dict flattened)
  | _ => Raise AttributeError
  end.

(** ** The evaluators *)

(** [if not isinstance(resolved_filter, list): resolved_filter =
    [resolved_filter]]. *)
Definition as_list (resolved_filter : classified) : list classified :=
  match resolved_filter with
  | CList l => l
  | _ => [resolved_filter]
  end.

(** [eval(rf.test.format(haystack=hay, needle=rf.needle))]; [rf.test] on
    [None] raises [AttributeError]. *)
Definition eval_test (hay : pyvalue) (rf : classified) : outcome bool :=
  match rf with
  | CTest ft =>
      src <- py_format (test ft) (py_str hay) (needle ft) ;;
      py_eval src
  | _ => Raise AttributeError
  end.

(** [eval_list and all(eval_list)]. *)
Definition accepts (eval_list : list bool) : bool :=
  match eval_list with
  | [] => false
  | _ => forallb (fun b => b) eval_list
  end.

(** The comprehension of [inventory_filter]: its condition
    [rf.haystack in flattened_host] comes first and raises
    [AttributeError] on [None]. *)
Fixpoint inventory_eval_list (flattened_host : dict)
         (resolved_filter : list classified) : outcome (list bool) :=
  match resolved_filter with
  | [] => Ok []
  | rf :: rest =>
      match rf with
      | CTest ft =>
          if dict_has flattened_host (haystack ft) then
            hay <- dict_get flattened_host (haystack ft) ;;
            b <- eval_test hay rf ;;
            bs <- inventory_eval_list flattened_host rest ;;
            Ok (b :: bs)
          else inventory_eval_list flattened_host rest
      | _ => Raise AttributeError
      end
  end.

(** The loop [for host in inventory], carrying [matching]. *)
Fixpoint inventory_loop (resolved_filter : list classified)
         (inventory matching : list pyvalue) : outcome (list pyvalue) :=
  match inventory with
  | [] => Ok matching
  | host :: inventory' =>
      flattened_host <- flatten_dict host "" "." ;;
      eval_list <- inventory_eval_list flattened_host resolved_filter ;;
      inventory_loop resolved_filter inventory'
        (if accepts eval_list then matching ++ [host] else matching)%list
  end.

Definition inventory_filter (inventory : list pyvalue) (raw_filter : string)
  : outcome (list pyvalue) :=
  resolved_filter <- classify_filter raw_filter ;;
  inventory_loop (as_list resolved_filter) inventory [].

(** The loop [for res in results], carrying [matching]. *)
Fixpoint results_loop (resolved_filter : list classified)
         (results matching : list pyvalue) : outcome (list pyvalue) :=
  match results with
  | [] => Ok matching
  | res :: results' =>
      eval_list <- comprehension (eval_test res) resolved_filter ;;
      results_loop resolved_filter results'
        (if accepts eval_list then matching ++ [res] else matching)%list
  end.

Definition results_filter (results : list pyvalue) (raw_filter : string)
  : outcome (list pyvalue) :=
  resolved_filter <- classify_filter raw_filter ;;
  results_loop (as_list resolved_filter) results [].

(** ** The flattener on a store of objects *)

(** Lists and dicts are objects that several values may refer to; [del]
    changes an object in place.  To speak of what [flatten_dict] does to its
    argument, the same function is written again over a store: a value is a
    scalar or the address of an object, [value.copy()] and [dict(...)]
    allocate, [del value[index]] updates. *)
Module Heap.

Definition addr := nat.

Inductive hvalue : Type :=
| HNone
| HBool (b : bool)
| HInt (z : Z)
| HStr (s : string)
| HRef (a : addr).

Inductive object : Type :=
| OList (elems : list hvalue)
| ODict (items : list (string * hvalue)).

(** The object at address [a] is the [a]-th of the store; objects are not
    freed. *)
Definition store := list object.

Definition lookup (st : store) (a : addr) : option object := nth_error st a.

Definition alloc (o : object) (st : store) : addr * store :=
  (List.length st, (st ++ [o])%list).

Fixpoint update (st : store) (a : addr) (o : object) : store :=
  match st with
  | [] => []
  | x :: st' =>
      match a with
      | O => o :: st'
      | S a' => x :: update st' a' o
      end
  end.

(** A computation reads and changes the store; what it changed stays
    changed when it raises. *)
Definition M (A : Type) := store -> outcome A * store.

Definition ret {A : Type} (a : A) : M A := fun st => (Ok a, st).

Definition lift {A : Type} (r : outcome A) : M A := fun st => (r, st).

Definition mbind {A B : Type} (m : M A) (k : A -> M B) : M B :=
  fun st =>
    match m st with
    | (Ok a, st') => k a st'
    | (Raise e, st') => (Raise e, st')
    | (Unmodelled, st') => (Unmodelled, st')
    end.

Notation "x <~ m ;; k" := (mbind m (fun x => k))
  (at level 61, m at next level, right associativity).

(** [isinstance(v, dict)] and [isinstance(v, list)]. *)
Definition is_dict (st : store) (v : hvalue) : bool :=
  match v with
  | HRef a => match lookup st a with Some (ODict _) => true | _ => false end
  | _ => false
  end.

Definition as_list (st : store) (v : hvalue) : option (list hvalue) :=
  match v with
  | HRef a => match lookup st a with Some (OList l) => Some l | _ => None end
  | _ => None
  end.

(** [v.items()]: [AttributeError] on what is no dict.  The items are read
    when the loop over them starts; no object that is in the store then is
    changed while the loop runs (the lemmas on [keeps] below). *)
Definition items_of (v : hvalue) : M (list (string * hvalue)) :=
  fun st =>
    match v with
    | HRef a =>
        match lookup st a with
        | Some (ODict items) => (Ok items, st)
        | _ => (Raise AttributeError, st)
        end
    | _ => (Raise AttributeError, st)
    end.

(** [for index in to_remove: del value[index]], on the list object at
    [value] (the copy just made: there is a list at [value]). *)
Fixpoint del_loop (value : addr) (to_remove : list nat) : M unit :=
  match to_remove with
  | [] => ret tt
  | index :: to_remove' =>
      fun st =>
        match lookup st value with
        | Some (OList elems) =>
            match py_del index elems with
            | Ok elems' =>
                del_loop value to_remove' (update st value (OList elems'))
            | Raise e => (Raise e, st)
            | Unmodelled => (Unmodelled, st)
            end
        | _ => (Unmodelled, st)
        end
  end.

Section Body.

(** The recursive call. *)
Variable flatten : hvalue -> string -> string -> M hvalue.

(** [for index, val in enumerate(value)]. *)
Fixpoint enum_loop (new_key separator : string) (elems : list hvalue)
         (index : nat) (flattened : list (string * hvalue))
         (to_remove : list nat)
  : M (list (string * hvalue) * list nat) :=
  match elems with
  | [] => ret (flattened, to_remove)
  | val :: elems' =>
      fun st =>
        if is_dict st val then
          (sub <~ flatten val new_key separator ;;
           sub_items <~ items_of sub ;;
           enum_loop new_key separator elems' (S index)
                     (flattened ++ sub_items)%list
                     (to_remove ++ [index])%list) st
        else
          enum_loop new_key separator elems' (S index)
                    flattened to_remove st
  end.

(** [for key, value in nested_dict.items()].  [value.copy()] allocates a
    list with the same elements, [enumerate] runs over it, the deletions go
    to it and it is what [flattened] receives.  An address without an object
    is taken for a scalar. *)
Fixpoint items_loop (parent_key separator : string)
         (items : list (string * hvalue))
         (flattened : list (string * hvalue))
  : M (list (string * hvalue)) :=
  match items with
  | [] => ret flattened
  | (key, value) :: items' =>
      let new_key := new_key_of parent_key separator key in
      fun st =>
        if is_dict st value then
          (sub <~ flatten value new_key separator ;;
           sub_items <~ items_of sub ;;
           items_loop parent_key separator items'
                      (flattened ++ sub_items)%list) st
        else
          match as_list st value with
          | Some elems =>
              let (copy, st1) := alloc (OList elems) st in
              (r <~ enum_loop new_key separator elems 0 flattened [] ;;
               _ <~ del_loop copy (snd r) ;;
               items_loop parent_key separator items'
                          (fst r ++ [(new_key, HRef copy)])%list) st1
          | None =>
              items_loop parent_key separator items'
                         (flattened ++ [(new_key, value)])%list st
          end
  end.

Definition flatten_body (nested_dict : hvalue)
           (parent_key separator : string) : M hvalue :=
  items <~ items_of nested_dict ;;
  flattened <~ items_loop parent_key separator items [] ;;
  fun st =>
    let (d, st') := alloc (ODict (py_dict flattened)) st in
    (Ok (HRef d), st').

End Body.

(** [flatten_dict], with the depth of the call stack left to it. *)
Fixpoint flatten_dict (depth : nat) (nested_dict : hvalue)
         (parent_key separator : string) : M hvalue :=
  match depth with
  | O => lift (Raise RecursionError)
  | S depth' => flatten_body (flatten_dict depth') nested_dict
                             parent_key separator
  end.

(** Every object of [st] is in [st'], at its address and as it was. *)
Definition extends (st st' : store) : Prop :=
  List.length st <= List.length st'
  /\ forall a : addr, a < List.length st -> lookup st' a = lookup st a.

(** [f] on every element, if it is defined on every element. *)
Fixpoint option_all {A B : Type} (f : A -> option B) (l : list A)
  : option (list B) :=
  match l with
  | [] => Some []
  | x :: l' =>
      match f x, option_all f l' with
      | Some y, Some ys => Some (y :: ys)
      | _, _ => None
      end
  end.

(** The value that [v] stands for in the store, read to depth [fuel]. *)
Fixpoint reify (fuel : nat) (st : store) (v : hvalue) : option pyvalue :=
  match v with
  | HNone => Some VNone
  | HBool b => Some (VBool b)
  | HInt z => Some (VInt z)
  | HStr s => Some (VStr s)
  | HRef a =>
      match fuel with
      | O => None
      | S fuel' =>
          match lookup st a with
          | Some (OList elems) =>
              option_map VList (option_all (reify fuel' st) elems)
          | Some (ODict items) =>
              option_map VDict
                (option_all
                   (fun kv => option_map (pair (fst kv))
                                         (reify fuel' st (snd kv)))
                   items)
          | None => None
          end
      end
  end.

(** A computation keeps the first [n] objects of the store. *)
Definition keeps {A : Type} (n : nat) (m : M A) : Prop :=
  forall st : store,
    n <= List.length st ->
    n <= List.length (snd (m st))
    /\ forall a : addr, a < n -> lookup (snd (m st)) a = lookup st a.

End Heap.

(** The store of [{"a": [1, {"b": 2}]}]: the inner record at 0, the list at
    1, the record at 2. *)
Definition example_store : Heap.store :=
  [Heap.ODict [("b", Heap.HInt 2)];
   Heap.OList [Heap.HInt 1; Heap.HRef 0];
   Heap.ODict [("a", Heap.HRef 1)]].

(** ** The two flatteners side by side *)

(** How a value of the store stands for a value: it is read as that value
    in the store [st0] in which the record was read, or it is a list made
    since then, at an address that [P] allows, whose elements are read as
    the elements. *)
Definition val_rel (g : nat) (st0 st : Heap.store) (P : Heap.addr -> Prop)
           (h : Heap.hvalue) (p : pyvalue) : Prop :=
  Heap.reify g st0 h = Some p
  \/ exists c elems ps,
       h = Heap.HRef c /\ P c
       /\ Heap.lookup st c = Some (Heap.OList elems)
       /\ Forall2 (fun e pe => Heap.reify g st0 e = Some pe) elems ps
       /\ p = VList ps.

(** The same for an item, key for key. *)
Definition item_rel (g : nat) (st0 st : Heap.store) (P : Heap.addr -> Prop)
           (kv : string * Heap.hvalue) (pkv : string * pyvalue) : Prop :=
  fst kv = fst pkv /\ val_rel g st0 st P (snd kv) (snd pkv).

(** The run on the store does what the run on values does: both return,
    results related by [R] in the final store, or both raise the same. *)
Definition sim {A B : Type} (R : Heap.store -> A -> B -> Prop)
           (run : outcome A * Heap.store) (pr : outcome B) : Prop :=
  match pr with
  | Ok b => exists a st', run = (Ok a, st') /\ R st' a b
  | Raise e => exists st', run = (Raise e, st')
  | Unmodelled => exists st', run = (Unmodelled, st')
  end.

(** What a call on the store returns: a new dict, its items standing for
    the items [d], with copies at addresses from [n] on. *)
Definition flat_rel (g : nat) (st0 : Heap.store) (n : nat)
           (st' : Heap.store) (h : Heap.hvalue) (d : dict) : Prop :=
  exists a items,
    h = Heap.HRef a
    /\ Heap.lookup st' a = Some (Heap.ODict items)
    /\ Forall2 (item_rel g st0 st' (fun c => n <= c)) items d.

(** ** The words of the specification *)

(** The test kinds of the specification, and the kind that each template
    of the table stands for. *)
Inductive test_kind : Type :=
| NotContains | Contains | NotEquals | Equals
| NotStartsWith | StartsWith | NotEndsWith | EndsWith.

Definition kind_of_template (tmpl : string) : option test_kind :=
  if String.eqb tmpl "'{needle}' not in '{haystack}'" then Some NotContains
  else if String.eqb tmpl "'{needle}' in '{haystack}'" then Some Contains
  else if String.eqb tmpl "'{haystack}' != '{needle}'" then Some NotEquals
  else if String.eqb tmpl "'{haystack}' == '{needle}'" then Some Equals
  else if String.eqb tmpl "not '{haystack}'.startswith('{needle}')"
       then Some NotStartsWith
  else if String.eqb tmpl "'{haystack}'.startswith('{needle}')"
       then Some StartsWith
  else if String.eqb tmpl "not '{haystack}'.endswith('{needle}')"
       then Some NotEndsWith
  else if String.eqb tmpl "'{haystack}'.endswith('{needle}')"
       then Some EndsWith
  else None.

(** What a test kind asks of the string form [h] of a value and the
    needle [n]. *)
Definition kind_holds (k : test_kind) (h n : string) : bool :=
  match k with
  | NotContains => negb (py_in n h)
  | Contains => py_in n h
  | NotEquals => negb (String.eqb h n)
  | Equals => String.eqb h n
  | NotStartsWith => negb (startswith h n)
  | StartsWith => startswith h n
  | NotEndsWith => negb (endswith h n)
  | EndsWith => endswith h n
  end.

(** A string that a quoted literal holds as it is. *)
Definition literal (s : string) : bool := all_chars literal_char s.

(** Two dicts are the same mapping when every key finds the same in
    both ([==] on dicts does not look at the order of the items). *)
Definition same_mapping (d1 d2 : dict) : Prop :=
  forall key : string, dict_get d1 key = dict_get d2 key.

(** The boolean results collected for the predicates whose haystack key is
    in the flattened record, in the words of the contract of
    [inventory_filter]. *)
Definition present_results (flattened_host : dict) (preds : list FilterTest)
  : outcome (list bool) :=
  comprehension
    (fun ft => hay <- dict_get flattened_host (haystack ft) ;;
               eval_test hay (CTest ft))
    (filter (fun ft => dict_has flattened_host (haystack ft)) preds).

(** The list collected for a record: flatten with ".", then collect. *)
Definition collected (preds : list FilterTest) (host : pyvalue)
  : outcome (list bool) :=
  flattened_host <- flatten_dict host "" "." ;;
  present_results flattened_host preds.

(** A record is retained when its list is collected, is not empty and
    holds [True] only. *)
Definition retained (preds : list FilterTest) (host : pyvalue) : bool :=
  match collected preds host with
  | Ok eval_list => accepts eval_list
  | _ => false
  end.

(** What a predicate asks of a value, by the kind of its template. *)
Definition pred_holds (ft : FilterTest) (v : pyvalue) : bool :=
  match kind_of_template (test ft) with
  | Some kind => kind_holds kind (py_str v) (needle ft)
  | None => false
  end.

(** A predicate that [classify_filter] can return: its template is in the
    table, and its needle is held by a quoted literal as it is. *)
Definition plain_pred (ft : FilterTest) : Prop :=
  (exists tok, In (tok, test ft) tests) /\ literal (needle ft) = true.

(** * More of the helpers *)

(** ** Cleaning and merging *)

(** [v is None]. *)
Definition is_none (v : pyvalue) : bool :=
  match v with VNone => true | _ => false end.

(** [clean_dict(in_dict)]: the comprehension runs over the items in order
    and builds a dict; [.items()] on a value that is no dict raises
    [AttributeError]. *)
Definition clean_dict (in_dict : pyvalue) : outcome dict :=
  match in_dict with
  | VDict items =>
      Ok (py_dict (filter (fun kv => negb (is_none (snd kv))) items))
  | _ => Raise AttributeError
  end.

(** [key in keys], for a set of keys. *)
Definition key_in (keys : list string) (key : string) : bool :=
  existsb (String.eqb key) keys.

Section Merge.

(** The order in which a set of keys is iterated.  Python leaves it open;
    the properties below hold for every order. *)
Variable set_order : list string -> list string.

(** Whether a call of [clean_dict], and a call of [deepcopy], on a value
    fits in the stack left where [depth] more nested calls of [merge_dicts]
    would.  The frames the two need (the comprehension of [clean_dict], the
    recursion of [deepcopy] through the value) depend on the interpreter and
    on the [copy] library; the properties below hold whatever they are. *)
Variable clean_fits : nat -> pyvalue -> bool.
Variable copy_fits : nat -> pyvalue -> bool.

(** [clean_dict(d)], called from [merge_dicts]. *)
Definition call_clean_dict (depth : nat) (d : pyvalue) : outcome dict :=
  if clean_fits depth d then clean_dict d else Raise RecursionError.

(** [deepcopy(v)]: as a value the copy is the value. *)
Definition deepcopy (depth : nat) (v : pyvalue) : outcome pyvalue :=
  if copy_fits depth v then Ok v else Raise RecursionError.

(** [for key in keys: merged[key] = deepcopy(d[key])]. *)
Fixpoint copy_loop (depth : nat) (d : dict) (keys : list string)
         (merged : dict) : outcome dict :=
  match keys with
  | [] => Ok merged
  | key :: keys' =>
      v <- dict_get d key ;;
      copy <- deepcopy depth v ;;
      copy_loop depth d keys' (dict_set merged key copy)
  end.

Section Loop.

(** The recursive call. *)
Variable merge : pyvalue -> pyvalue -> outcome pyvalue.

(** [for key in dupe_keys: merged[key] = merge_dicts(dict1[key], dict2[key])]. *)
Fixpoint dupe_loop (dict1 dict2 : dict) (keys : list string) (merged : dict)
  : outcome dict :=
  match keys with
  | [] => Ok merged
  | key :: keys' =>
      v1 <- dict_get dict1 key ;;
      v2 <- dict_get dict2 key ;;
      v <- merge v1 v2 ;;
      dupe_loop dict1 dict2 keys' (dict_set merged key v)
  end.

End Loop.

(** [merge_dicts(dict1, dict2)], where the stack left takes [depth] nested
    calls of [merge_dicts]; the calls it makes of [clean_dict] and
    [deepcopy] can run out of stack as well.  Of the values modelled the
    dicts are the [MutableMapping]s.  The three sets of keys are lists
    without repetition, iterated in the order [set_order] gives. *)
Fixpoint merge_dicts_depth (depth : nat) (dict1 dict2 : pyvalue)
  : outcome pyvalue :=
  match depth with
  | O => Raise RecursionError
  | S depth' =>
      if negb (is_dict dict1) || negb (is_dict dict2) then Ok dict1
      else
        d1 <- call_clean_dict depth' dict1 ;;
        d2 <- call_clean_dict depth' dict2 ;;
        let dupe_keys := filter (dict_has d2) (map fst d1) in
        merged <- dupe_loop (merge_dicts_depth depth') d1 d2
                            (set_order dupe_keys) [] ;;
        merged <- copy_loop depth' d1
                    (set_order (filter (fun key => negb (key_in dupe_keys key))
                                       (map fst d1)))
                    merged ;;
        merged <- copy_loop depth' d2
                    (set_order (filter (fun key => negb (key_in dupe_keys key))
                                       (map fst d2)))
                    merged ;;
        Ok (VDict merged)
  end.

(** [merge_dicts(dict1, dict2)], with [recursion_limit] as the depth. *)
Definition merge_dicts (dict1 dict2 : pyvalue) : outcome pyvalue :=
  merge_dicts_depth recursion_limit dict1 dict2.

End Merge.

(** ** The inventory file *)

(** The truth value of a value ([if v], [not v], [v or w]). *)
Definition truthy (v : pyvalue) : bool :=
  match v with
  | VNone => false
  | VBool b => b
  | VInt z => negb (Z.eqb z 0)
  | VStr s => match s with EmptyString => false | _ => true end
  | VList elems => match elems with [] => false | _ => true end
  | VDict items => match items with [] => false | _ => true end
  end.

(** [isinstance(v, list)]. *)
Definition is_list (v : pyvalue) : bool :=
  match v with VList _ => true | _ => false end.

(** [a == b] on the values modelled: [True] and [False] are the numbers 1
    and 0, lists are compared element by element, two dicts are equal when
    they have as many keys and every key of the first has an equal value in
    the second. *)
Fixpoint py_eq (a b : pyvalue) : bool :=
  match a, b with
  | VNone, VNone => true
  | VBool x, VBool y => Bool.eqb x y
  | VBool x, VInt z => Z.eqb (if x then 1 else 0) z
  | VInt z, VBool x => Z.eqb z (if x then 1 else 0)
  | VInt x, VInt y => Z.eqb x y
  | VStr s, VStr t => String.eqb s t
  | VList l, VList m =>
      (fix all_eq (l m : list pyvalue) : bool :=
         match l, m with
         | [], [] => true
         | x :: l', y :: m' => py_eq x y && all_eq l' m'
         | _, _ => false
         end) l m
  | VDict d, VDict e =>
      Nat.eqb (List.length d) (List.length e)
      && forallb (fun kv => match dict_get e (fst kv) with
                            | Ok w => py_eq (snd kv) w
                            | _ => false
                            end) d
  | _, _ => false
  end.

(** What a file holds: the YAML text or the JSON text of some data.  Other
    texts are left out. *)
Inductive text : Type :=
| Yaml (data : pyvalue)
| Json (data : pyvalue).

(** A file at a path: the suffix of the path and, when the file exists,
    what it holds. *)
Record file : Type := mkFile { suffix : string; content : option text }.

(** [loader.load(f)]: [json] for the suffix ".json", else [yaml].  A loader
    reads back the data of a text of its own format; what it makes of a
    text of the other format is outside the fragment. *)
Definition loader_load (f : file) (t : text) : outcome pyvalue :=
  match t with
  | Json data => if String.eqb (suffix f) ".json" then Ok data else Unmodelled
  | Yaml data => if String.eqb (suffix f) ".json" then Unmodelled else Ok data
  end.

(** [load_file(file)]. *)
Definition load_file (f : file) : outcome pyvalue :=
  match content f with
  | None => Ok (VList [])
  | Some t =>
      if negb (existsb (String.eqb (suffix f)) [".json"; ".yaml"; ".yml"])
      then Ok (VList [])
      else
        data <- loader_load f t ;;
        Ok (if truthy data then data else VList [])
  end.

(** [load_inventory(filter)], on the inventory file.  With a filter, an
    inventory that is no list is outside the fragment. *)
Definition load_inventory (inventory_file : file) (filter : option string)
  : outcome pyvalue :=
  inv_data <- load_file inventory_file ;;
  match filter with
  | None => Ok inv_data
  | Some EmptyString => Ok inv_data
  | Some raw_filter =>
      match inv_data with
      | VList hosts =>
          matching <- inventory_filter hosts raw_filter ;;
          Ok (VList matching)
      | _ => Unmodelled
      end
  end.

(** [host[key]]; a host that is no record is outside the fragment. *)
Definition subscript (host : pyvalue) (key : string) : outcome pyvalue :=
  match host with
  | VDict items => dict_get items key
  | _ => Unmodelled
  end.

(** [x in l], for a list. *)
Definition contains (l : list pyvalue) (x : pyvalue) : bool :=
  existsb (fun el => py_eq el x) l.

(** [l.remove(x)]: the first element equal to [x] goes, [ValueError] when
    there is none. *)
Fixpoint list_remove (x : pyvalue) (l : list pyvalue)
  : outcome (list pyvalue) :=
  match l with
  | [] => Raise ValueError
  | el :: l' =>
      if py_eq el x then Ok l'
      else (rest <- list_remove x l' ;; Ok (el :: rest))
  end.

(** [host["hostname"] in remove or host["name"] in remove]. *)
Definition host_matches (remove : list pyvalue) (host : pyvalue)
  : outcome bool :=
  hostname <- subscript host "hostname" ;;
  if contains remove hostname then Ok true
  else (name <- subscript host "name" ;; Ok (contains remove name)).

(** [for host in inv_data[::-1]: if ...: inv_data.remove(host)], with the
    reversed copy as [hosts]. *)
Fixpoint remove_loop (remove hosts inv_data : list pyvalue)
  : outcome (list pyvalue) :=
  match hosts with
  | [] => Ok inv_data
  | host :: hosts' =>
      hit <- host_matches remove host ;;
      if hit : bool then
        inv_data' <- list_remove host inv_data ;;
        remove_loop remove hosts' inv_data'
      else remove_loop remove hosts' inv_data
  end.

(** [if arg and not isinstance(arg, list): arg = [arg]]. *)
Definition wrap (arg : pyvalue) : pyvalue :=
  if truthy arg && negb (is_list arg) then VList [arg] else arg.

(** The elements of a list. *)
Definition elements (arg : pyvalue) : list pyvalue :=
  match arg with VList l => l | _ => [] end.

(** [file.unlink()]. *)
Definition unlink (f : file) : file := mkFile (suffix f) None.

(** [file.touch()] and [yaml.dump(data, file)]: the file then holds the
    YAML text of the data. *)
Definition dump (data : pyvalue) (f : file) : file :=
  mkFile (suffix f) (Some (Yaml data)).

(** [update_inventory(add, remove)]: what is raised, if anything, and the
    inventory file afterwards.  An inventory that is no list is outside the
    fragment. *)
Definition update_inventory (inventory_file : file) (add remove : pyvalue)
  : outcome unit * file :=
  let add := wrap add in
  let remove := wrap remove in
  match load_inventory inventory_file None with
  | Ok inv_data =>
      let unlinked :=
        if truthy inv_data then unlink inventory_file else inventory_file in
      match inv_data with
      | VList hosts =>
          match (if truthy remove
                 then remove_loop (elements remove) (rev hosts) hosts
                 else Ok hosts) with
          | Ok hosts1 =>
              let hosts2 := if truthy add
                            then (hosts1 ++ elements add)%list
                            else hosts1 in
              (Ok tt, dump (VList hosts2) unlinked)
          | Raise e => (Raise e, unlinked)
          | Unmodelled => (Unmodelled, unlinked)
          end
      | _ => (Unmodelled, unlinked)
      end
  | Raise e => (Raise e, inventory_file)
  | Unmodelled => (Unmodelled, inventory_file)
  end.

(** ** Arguments that name files *)

(** The value of an argument: a [Path], given by its text, or one of the
    values modelled. *)
Inductive arg : Type :=
| APath (path : string)
| AVal (v : pyvalue).

(** [val[-4:]]. *)
Definition last4 (val : string) : string :=
  substring (String.length val - 4) 4 val.

(** [isinstance(val, Path) or (isinstance(val, str) and val[-4:] in ("json",
    "yaml", ".yml"))]. *)
Definition names_file (val : arg) : bool :=
  match val with
  | APath _ => true
  | AVal (VStr s) => existsb (String.eqb (last4 s)) ["json"; "yaml"; ".yml"]
  | AVal _ => false
  end.

(** The text of [Path(val)], for a path or a string. *)
Definition path_of (val : arg) : option string :=
  match val with
  | APath path => Some path
  | AVal (VStr s) => Some s
  | AVal _ => None
  end.

(** The arguments, in and out: a dict from names to values. *)
Definition args : Type := list (string * arg).

(** How [resolve_file_args] ends: with the arguments resolved, with
    [BrokerError] for the value of "args_file", with another exception, or
    outside the fragment. *)
Inductive resolved : Type :=
| Resolved (final_args : args)
| BrokerError (val : arg)
| Raised (e : exn)
| Outside.

(** [final_args.update(data)], for a dict. *)
Definition dict_update (final_args : args) (data : dict) : args :=
  fold_left (fun d kv => dict_set d (fst kv) (AVal (snd kv))) data final_args.

(** [for d in data: final_args.update(d)]; an element that is no dict is
    outside the fragment. *)
Fixpoint update_each (final_args : args) (data : list pyvalue)
  : outcome args :=
  match data with
  | [] => Ok final_args
  | VDict d :: data' => update_each (dict_update final_args d) data'
  | _ :: _ => Unmodelled
  end.

Section Files.

(** The file at a path. *)
Variable files : string -> file.

(** [for key, val in broker_args.items()], carrying [final_args]. *)
Fixpoint resolve_loop (items : args) (final_args : args) : resolved :=
  match items with
  | [] => Resolved final_args
  | (key, val) :: items' =>
      if names_file val then
        match path_of val with
        | Some path =>
            match load_file (files path) with
            | Ok data =>
                if truthy data then
                  if String.eqb key "args_file" then
                    match data with
                    | VDict d =>
                        resolve_loop items' (dict_update final_args d)
                    | VList l =>
                        match update_each final_args l with
                        | Ok final_args' => resolve_loop items' final_args'
                        | Raise e => Raised e
                        | Unmodelled => Outside
                        end
                    | _ => resolve_loop items' final_args
                    end
                  else resolve_loop items' (dict_set final_args key (AVal data))
                else if String.eqb key "args_file" then BrokerError val
                else resolve_loop items' (dict_set final_args key val)
            | Raise e => Raised e
            | Unmodelled => Outside
            end
        | None => Outside
        end
      else resolve_loop items' (dict_set final_args key val)
  end.

(** [resolve_file_args(broker_args)], on the items of [broker_args]. *)
Definition resolve_file_args (broker_args : args) : resolved :=
  resolve_loop broker_args [].

End Files.

(** * Closed forms and side conditions *)

(** ** The filters *)

(** The test kind that each operator token stands for. *)
Definition kind_of_token (tok : string) : option test_kind :=
  if String.eqb tok "!<" then Some NotContains
  else if String.eqb tok "<" then Some Contains
  else if String.eqb tok "!=" then Some NotEquals
  else if String.eqb tok "=" then Some Equals
  else if String.eqb tok "!{" then Some NotStartsWith
  else if String.eqb tok "{" then Some StartsWith
  else if String.eqb tok "!}" then Some NotEndsWith
  else if String.eqb tok "}" then Some EndsWith
  else None.

(** Whether a flattened record passes the predicates: one of their keys is
    in it, and the test of every predicate whose key is in it holds of the
    value under that key. *)
Definition passes (preds : list FilterTest) (flat : dict) : bool :=
  let present := filter (fun ft => dict_has flat (haystack ft)) preds in
  match present with
  | [] => false
  | _ => forallb (fun ft => match dict_get flat (haystack ft) with
                            | Ok v => pred_holds ft v
                            | _ => false
                            end) present
  end.

(** A record that flattens, to values without quotes. *)
Definition plain_record (host : pyvalue) : Prop :=
  exists flat, flatten_dict host "" "." = Ok flat
               /\ forall key v, dict_get flat key = Ok v ->
                                literal (py_str v) = true.

(** The decision of [results_filter] on one value. *)
Definition keeps_value (resolved_filter : list classified) (v : pyvalue)
  : bool :=
  match comprehension (eval_test v) resolved_filter with
  | Ok eval_list => accepts eval_list
  | _ => false
  end.

(** A token of one character, or of two different characters: two
    occurrences of it in a string do not overlap. *)
Definition token_shape (sep : string) : Prop :=
  (exists a, sep = String a "")
  \/ (exists a b, a <> b /\ sep = String a (String b "")).

(** A clause that [classify_filter] cannot unpack: the first token of the
    table found in it occurs in it more than once. *)
Definition repeats_token (clause : string) : Prop :=
  exists tok tmpl, first_match tests clause = Some (tok, tmpl)
                   /\ 2 <= occurrences tok clause.

(** ** The list handling of the flattener, in closed form *)

(** The indices [to_remove] collects: the positions of the records in the
    list, counted from [index]. *)
Fixpoint dict_positions (elems : list pyvalue) (index : nat) : list nat :=
  match elems with
  | [] => []
  | val :: elems' =>
      if is_dict val then index :: dict_positions elems' (S index)
      else dict_positions elems' (S index)
  end.

(** The positions of the original list that the successive [del] reach: the
    [k]-th deletion works on a list that has lost [k] elements before its
    index, so it removes what stood [k] places further. *)
Fixpoint shifted (positions : list nat) (k : nat) : list nat :=
  match positions with
  | [] => []
  | p :: positions' => (p + k) :: shifted positions' (S k)
  end.

(** The elements of [l], numbered from [index], whose number is not in
    [deleted]. *)
Fixpoint keep_from {A : Type} (index : nat) (deleted : list nat) (l : list A)
  : list A :=
  match l with
  | [] => []
  | x :: l' =>
      if existsb (Nat.eqb index) deleted then keep_from (S index) deleted l'
      else x :: keep_from (S index) deleted l'
  end.

(** Indices in strictly ascending order, none below [lo]. *)
Fixpoint ascending_from (lo : nat) (positions : list nat) : bool :=
  match positions with
  | [] => true
  | p :: positions' => Nat.leb lo p && ascending_from (S p) positions'
  end.

(** What is left of a list value: [IndexError] when a shifted position is
    past the end, else the list without the shifted positions. *)
Definition list_after_deletions (elems : list pyvalue)
  : outcome (list pyvalue) :=
  let reached := shifted (dict_positions elems 0) 0 in
  if forallb (fun q => Nat.ltb q (List.length elems)) reached
  then Ok (keep_from 0 reached elems)
  else Raise IndexError.

(** What one entry of a record adds to [flattened]. *)
Definition entry_items (parent_key separator : string)
           (entry : string * pyvalue) : outcome (list (string * pyvalue)) :=
  let new_key := new_key_of parent_key separator (fst entry) in
  match snd entry with
  | VDict _ => flatten_dict (snd entry) new_key separator
  | VList elems =>
      subs <- comprehension (fun val => flatten_dict val new_key separator)
                            (filter is_dict elems) ;;
      value' <- list_after_deletions elems ;;
      Ok (concat subs ++ [(new_key, VList value')])%list
  | value => Ok [(new_key, value)]
  end.

(** A record on which some deletion runs past the end of its list: in a list
    value of the record itself, of a record nested in it, or of a record
    standing in one of its lists. *)
Fixpoint has_overrun (v : pyvalue) : bool :=
  match v with
  | VDict items =>
      existsb (fun entry =>
                 match snd entry with
                 | VDict _ => has_overrun (snd entry)
                 | VList elems =>
                     existsb has_overrun elems
                     || negb (forallb
                                (fun q => Nat.ltb q (List.length elems))
                                (shifted (dict_positions elems 0) 0))
                 | _ => false
                 end) items
  | _ => false
  end.

(** What a record does, for every parent key and separator: it raises
    [IndexError] and has an overrun, or it returns and has none. *)
Definition overrun_decides (v : pyvalue) : Prop :=
  forall parent_key separator,
    (flatten_dict v parent_key separator = Raise IndexError
     /\ has_overrun v = true)
    \/ ((exists out, flatten_dict v parent_key separator = Ok out)
        /\ has_overrun v = false).

(** A value that the flattener passes on as it is: no record, and no list
    with a record in it. *)
Definition flat_value (v : pyvalue) : bool :=
  match v with
  | VDict _ => false
  | VList elems => negb (existsb is_dict elems)
  | _ => true
  end.

(** No list of the value holds more than one record. *)
Fixpoint one_record_lists (v : pyvalue) : bool :=
  match v with
  | VDict items => forallb (fun entry => one_record_lists (snd entry)) items
  | VList elems =>
      Nat.leb (List.length (filter is_dict elems)) 1
      && forallb one_record_lists elems
  | _ => true
  end.

(** ** Merging and the inventory *)

(** What the merge of two values under a common key gives. *)
Definition merged_value (merge : pyvalue -> pyvalue -> outcome pyvalue)
           (dict1 dict2 : dict) (key : string) : outcome pyvalue :=
  v1 <- dict_get dict1 key ;;
  v2 <- dict_get dict2 key ;;
  merge v1 v2.

(** Every record of the value has each of its keys once. *)
Fixpoint keys_once (v : pyvalue) : bool :=
  match v with
  | VDict items =>
      (fix distinct (keys : list string) : bool :=
         match keys with
         | [] => true
         | key :: keys' => negb (key_in keys' key) && distinct keys'
         end) (map fst items)
      && forallb (fun kv => keys_once (snd kv)) items
  | VList elems => forallb keys_once elems
  | _ => true
  end.

(** No two hosts of the list are equal. *)
Fixpoint pairwise_unequal (hosts : list pyvalue) : bool :=
  match hosts with
  | [] => true
  | host :: hosts' =>
      forallb (fun other => negb (py_eq host other) && negb (py_eq other host))
              hosts'
      && pairwise_unequal hosts'
  end.

(** Whether the host is one to remove, when the test on it returns. *)
Definition to_remove (remove : list pyvalue) (host : pyvalue) : bool :=
  match host_matches remove host with Ok hit => hit | _ => false end.

(** * Properties *)

(** ** Strings *)

Lemma strip_prefix_app (p r : string) : strip_prefix p (p ++ r) = Some r.
Proof.
  induction p as [|a p IH]; simpl; [reflexivity|].
  now rewrite Ascii.eqb_refl.
Qed.

Lemma strip_prefix_Some (p s r : string) :
  strip_prefix p s = Some r -> s = p ++ r.
Proof.
  revert s; induction p as [|a p IH]; intros s H; simpl in *.
  - now inversion H.
  - destruct s as [|b s]; [discriminate|].
    destruct (Ascii.eqb_spec a b) as [->|]; [|discriminate].
    now rewrite (IH _ H).
Qed.

Lemma string_app_length (a b : string) :
  String.length (a ++ b) = String.length a + String.length b.
Proof. induction a; simpl; auto. Qed.

Lemma string_app_assoc (a b c : string) : (a ++ b) ++ c = a ++ b ++ c.
Proof. induction a; simpl; congruence. Qed.

Lemma string_app_nil_r (a : string) : a ++ "" = a.
Proof. induction a; simpl; congruence. Qed.

Lemma split_from_nonempty (fuel : nat) (sep cur s : string) :
  split_from fuel sep cur s <> [].
Proof.
  revert cur s; induction fuel as [|fuel IH]; intros cur s; simpl.
  - discriminate.
  - destruct (strip_prefix sep s); [discriminate|].
    destruct s; [discriminate|apply IH].
Qed.

Lemma py_join_cons (sep p : string) (ps : list string) :
  ps <> [] -> py_join sep (p :: ps) = p ++ sep ++ py_join sep ps.
Proof. destruct ps; [congruence|reflexivity]. Qed.

(** [sep.join(s.split(sep)) == s], with the part being read in front. *)
Lemma split_from_join (fuel : nat) (sep cur s : string) :
  sep <> "" -> String.length s < fuel ->
  py_join sep (split_from fuel sep cur s) = cur ++ s.
Proof.
  intros Hsep; revert cur s.
  induction fuel as [|fuel IH]; intros cur s Hlen; [lia|].
  simpl. destruct (strip_prefix sep s) as [rest|] eqn:E.
  - apply strip_prefix_Some in E; subst s.
    rewrite py_join_cons by apply split_from_nonempty.
    rewrite IH; [reflexivity|].
    rewrite string_app_length in Hlen.
    destruct sep; [congruence|simpl in Hlen; lia].
  - destruct s as [|c s]; simpl.
    + now rewrite string_app_nil_r.
    + rewrite IH by (simpl in Hlen; lia).
      now rewrite string_app_assoc.
Qed.

Lemma py_split_join (sep s : string) :
  sep <> "" -> py_join sep (py_split sep s) = s.
Proof.
  intros H. unfold py_split. rewrite split_from_join; auto.
Qed.

Lemma occurrences_app_le (sub p r : string) :
  occurrences sub r <= occurrences sub (p ++ r).
Proof.
  induction p as [|c p IH]; simpl; [lia|].
  simpl in IH. lia.
Qed.

Lemma occurrences_pos_in (sub s : string) :
  0 < occurrences sub s <-> py_in sub s = true.
Proof.
  induction s as [|c s IH]; simpl; unfold startswith.
  - destruct (strip_prefix sub ""); split; intros; try lia; congruence.
  - destruct (strip_prefix sub (String c s)).
    + split; intros; [reflexivity|lia].
    + simpl. exact IH.
Qed.

(** A separator that occurs gives at least two parts. *)
Lemma split_from_in (fuel : nat) (sep cur s : string) :
  String.length s < fuel -> py_in sep s = true ->
  2 <= List.length (split_from fuel sep cur s).
Proof.
  revert cur s; induction fuel as [|fuel IH]; intros cur s Hlen Hin; [lia|].
  simpl. destruct s as [|c s]; simpl in Hin.
  - destruct (strip_prefix sep "") eqn:E; [|discriminate].
    simpl. pose proof (split_from_nonempty fuel sep "" s) as N.
    destruct (split_from fuel sep "" s); [congruence|simpl; lia].
  - destruct (strip_prefix sep (String c s)) as [rest|] eqn:E.
    + simpl. pose proof (split_from_nonempty fuel sep "" rest) as N.
      destruct (split_from fuel sep "" rest); [congruence|simpl; lia].
    + apply IH; [simpl in Hlen; lia|assumption].
Qed.

(** There is at most one part more than there are occurrences. *)
Lemma split_from_occurrences (fuel : nat) (sep cur s : string) :
  sep <> "" ->
  List.length (split_from fuel sep cur s) <= 1 + occurrences sep s.
Proof.
  intros Hsep; revert cur s.
  induction fuel as [|fuel IH]; intros cur s; simpl; [lia|].
  unfold startswith.
  destruct (strip_prefix sep s) as [rest|] eqn:E.
  - simpl. specialize (IH "" rest).
    pose proof (strip_prefix_Some _ _ _ E) as Hs.
    destruct sep as [|a sep]; [congruence|]. subst s. simpl.
    pose proof (occurrences_app_le (String a sep) sep rest).
    unfold startswith.
    change (String a (sep ++ rest)) with (String a sep ++ rest).
    rewrite E. lia.
  - destruct s as [|c s]; simpl; [lia|].
    unfold startswith. rewrite E. apply IH.
Qed.

(** A token that occurs at exactly one position cuts the string in two, and
    the two parts with the token between them are the string. *)
Lemma py_split_once (sep s : string) :
  sep <> "" -> occurrences sep s = 1 ->
  exists k v, py_split sep s = [k; v] /\ k ++ sep ++ v = s.
Proof.
  intros Hsep Hocc.
  assert (Hin : py_in sep s = true) by (apply occurrences_pos_in; lia).
  pose proof (split_from_in (S (String.length s)) sep "" s
                (Nat.lt_succ_diag_r _) Hin) as H2.
  pose proof (split_from_occurrences (S (String.length s)) sep "" s Hsep) as H1.
  pose proof (py_split_join sep s Hsep) as J.
  unfold py_split in *.
  destruct (split_from (S (String.length s)) sep "" s) as [|k [|v [|w l]]];
    simpl in H1, H2; try lia.
  exists k, v. split; [reflexivity|exact J].
Qed.

(** The parts of a split on one character do not hold that character. *)
Lemma py_in_char_app (c : ascii) (a b : string) :
  py_in (String c "") (a ++ b) = py_in (String c "") a || py_in (String c "") b.
Proof.
  induction a as [|x a IH]; simpl; [reflexivity|].
  destruct (Ascii.eqb c x); [reflexivity|exact IH].
Qed.

Lemma split_from_char_free (fuel : nat) (c : ascii) (cur s : string) :
  String.length s < fuel ->
  py_in (String c "") cur = false ->
  Forall (fun part => py_in (String c "") part = false)
         (split_from fuel (String c "") cur s).
Proof.
  revert cur s; induction fuel as [|fuel IH]; intros cur s Hlen Hcur; [lia|].
  simpl. destruct s as [|x s].
  - constructor; [assumption|constructor].
  - destruct (Ascii.eqb c x) eqn:E.
    + constructor; [assumption|]. apply IH; [simpl in Hlen; lia|reflexivity].
    + apply IH; [simpl in Hlen; lia|].
      rewrite py_in_char_app, Hcur. simpl. now rewrite E.
Qed.

Lemma py_split_char_free (c : ascii) (s : string) :
  Forall (fun part => py_in (String c "") part = false)
         (py_split (String c "") s).
Proof. apply split_from_char_free; [apply Nat.lt_succ_diag_r|reflexivity]. Qed.

(** ** The parser *)

Lemma comprehension_ext {A B : Type} (f g : A -> outcome B) (xs : list A) :
  Forall (fun x => f x = g x) xs -> comprehension f xs = comprehension g xs.
Proof.
  induction 1 as [|x xs Hx _ IH]; simpl; [reflexivity|].
  now rewrite Hx, IH.
Qed.

(** What the loop over the table does: the first row whose token occurs
    decides, whether its split unpacks or not. *)
Lemma classify_scan_first_match (tbl : list (string * string)) (fs : string) :
  classify_scan tbl fs =
  match first_match tbl fs with
  | None => Ok CNone
  | Some (tok, tmpl) =>
      match py_split tok fs with
      | [k; v] => Ok (CTest (mkFilterTest k v tmpl))
      | _ => Raise ValueError
      end
  end.
Proof.
  induction tbl as [|[cond tst] tbl IH]; simpl; [reflexivity|].
  unfold first_match in *; simpl.
  destruct (py_in cond fs); [reflexivity|exact IH].
Qed.

Lemma classify_filter_depth_clause (depth : nat) (fs : string) :
  py_in "," fs = false ->
  classify_filter_depth (S depth) fs = classify_scan tests fs.
Proof. intros H. simpl. now rewrite H. Qed.

(** The result does not depend on the depth left, from two calls on: the
    clauses of a split on commas hold no comma, so the calls on them do not
    recurse. *)
Lemma classify_filter_depth_stable (depth : nat) (fs : string) :
  classify_filter_depth (S (S depth)) fs = classify_filter_depth 2 fs.
Proof.
  cbn [classify_filter_depth].
  destruct (py_in "," fs); [|reflexivity].
  f_equal. apply comprehension_ext.
  eapply Forall_impl; [|apply (py_split_char_free ","%char fs)].
  intros part Hpart. cbn beta in Hpart.
  change (classify_filter_depth (S depth) part = classify_filter_depth 1 part).
  now rewrite !classify_filter_depth_clause.
Qed.

Lemma classify_filter_clause (fs : string) :
  py_in "," fs = false -> classify_filter fs = classify_scan tests fs.
Proof. intros H. unfold classify_filter, recursion_limit. simpl. now rewrite H. Qed.

Lemma classify_filter_commas (fs : string) :
  py_in "," fs = true ->
  classify_filter fs =
  (l <- comprehension (classify_scan tests) (py_split "," fs) ;; Ok (CList l)).
Proof.
  intros H. unfold classify_filter, recursion_limit.
  change 1000 with (S (S 998)). rewrite classify_filter_depth_stable.
  cbn [classify_filter_depth]. rewrite H.
  f_equal. apply comprehension_ext.
  eapply Forall_impl; [|apply (py_split_char_free ","%char fs)].
  intros part Hpart. cbn beta in Hpart.
  change (classify_filter_depth 1 part = classify_scan tests part).
  now rewrite classify_filter_depth_clause.
Qed.

Lemma tests_tokens_nonempty (clause tok tmpl : string) :
  first_match tests clause = Some (tok, tmpl) -> tok <> "".
Proof.
  unfold first_match. intros H. apply find_some in H. destruct H as [H _].
  simpl in H.
  repeat (destruct H as [H|H]; [inversion H; discriminate|]). contradiction.
Qed.

(** The loop on a clause whose first token occurs once. *)
Lemma classify_scan_once (clause tok tmpl : string) :
  first_match tests clause = Some (tok, tmpl) ->
  occurrences tok clause = 1 ->
  exists k v : string,
    classify_scan tests clause = Ok (CTest (mkFilterTest k v tmpl))
    /\ k ++ tok ++ v = clause.
Proof.
  intros Hfirst Hocc. rewrite classify_scan_first_match, Hfirst.
  destruct (py_split_once tok clause) as (k & v & Hsplit & Hjoin);
    [eapply tests_tokens_nonempty; eassumption|assumption|].
  rewrite Hsplit. exists k, v. auto.
Qed.

(** ** The evaluation of a test *)

Lemma literal_char_not_quote (c : ascii) :
  literal_char c = true -> Ascii.eqb c "'" = false.
Proof.
  unfold literal_char. destruct (Ascii.eqb c "'"); simpl; congruence.
Qed.

Lemma lex_str_body (body acc rest : string) :
  literal body = true ->
  lex (body ++ String "'" rest) (LStr acc) =
  (ts <- lex rest LCode ;; Ok (TStr (acc ++ body) :: ts)).
Proof.
  revert acc; induction body as [|c body IH]; intros acc H; simpl.
  - now rewrite string_app_nil_r.
  - simpl in H. apply andb_true_iff in H. destruct H as [Hc Hb].
    rewrite (literal_char_not_quote c Hc), Hc.
    rewrite IH by assumption. now rewrite string_app_assoc.
Qed.

Lemma literal_not_triple (body rest : string) :
  literal body = true -> startswith rest "'" = false ->
  startswith (body ++ String "'" rest) "''" = false.
Proof.
  intros H Hr. unfold startswith in *.
  destruct body as [|c body]; cbn [append strip_prefix].
  - rewrite Ascii.eqb_refl. destruct rest as [|r rest]; [reflexivity|].
    cbn [strip_prefix] in Hr.
    destruct (Ascii.eqb "'" r); [discriminate|reflexivity].
  - simpl in H. apply andb_true_iff in H. destruct H as [Hc _].
    apply literal_char_not_quote in Hc.
    rewrite Ascii.eqb_sym, Hc. reflexivity.
Qed.

(** A literal of such characters, quoted, is read back as one string
    token. *)
Lemma lex_quote (body rest : string) :
  literal body = true -> startswith rest "'" = false ->
  lex (String "'" (body ++ String "'" rest)) LCode =
  (ts <- lex rest LCode ;; Ok (TStr body :: ts)).
Proof.
  intros Hb Hr. cbn [lex]. unfold lex_code.
  change (Ascii.eqb "'" " ") with false.
  change (Ascii.eqb "'" "'") with true. cbv iota.
  rewrite literal_not_triple by assumption.
  now rewrite lex_str_body.
Qed.

(** The scanner on the fixed text of the templates, whatever follows. *)
Lemma lex_in (tail : string) :
  lex (ltac:(let x := eval cbn in (" in " ++ tail) in exact x)) LCode =
  (ts <- lex tail LCode ;; Ok (TName "in" :: ts)).
Proof. reflexivity. Qed.

Lemma lex_not_in (tail : string) :
  lex (ltac:(let x := eval cbn in (" not in " ++ tail) in exact x)) LCode =
  (ts <- (ts <- lex tail LCode ;; Ok (TName "in" :: ts)) ;;
   Ok (TName "not" :: ts)).
Proof. reflexivity. Qed.

Lemma lex_ne (tail : string) :
  lex (ltac:(let x := eval cbn in (" != " ++ tail) in exact x)) LCode =
  (ts <- lex tail LCode ;; Ok (TNotEq :: ts)).
Proof. reflexivity. Qed.

Lemma lex_eq (tail : string) :
  lex (ltac:(let x := eval cbn in (" == " ++ tail) in exact x)) LCode =
  (ts <- lex tail LCode ;; Ok (TEqEq :: ts)).
Proof. reflexivity. Qed.

Lemma lex_not (tail : string) :
  lex (ltac:(let x := eval cbn in ("not " ++ tail) in exact x)) LCode =
  (ts <- lex tail LCode ;; Ok (TName "not" :: ts)).
Proof. reflexivity. Qed.

Lemma lex_startswith (tail : string) :
  lex (ltac:(let x := eval cbn in (".startswith(" ++ tail) in exact x)) LCode =
  (ts <- (ts <- (ts <- lex tail LCode ;; Ok (TLParen :: ts)) ;;
          Ok (TName "startswith" :: ts)) ;;
   Ok (TDot :: ts)).
Proof. reflexivity. Qed.

Lemma lex_endswith (tail : string) :
  lex (ltac:(let x := eval cbn in (".endswith(" ++ tail) in exact x)) LCode =
  (ts <- (ts <- (ts <- lex tail LCode ;; Ok (TLParen :: ts)) ;;
          Ok (TName "endswith" :: ts)) ;;
   Ok (TDot :: ts)).
Proof. reflexivity. Qed.

Ltac lex_template :=
  unfold py_eval;
  repeat first
    [ rewrite lex_quote by (assumption || reflexivity)
    | rewrite lex_not_in | rewrite lex_in | rewrite lex_ne | rewrite lex_eq
    | rewrite lex_not | rewrite lex_startswith | rewrite lex_endswith ];
  reflexivity.

(** On a value and a needle that a quoted literal holds as they are, each
    template evaluates to what its test kind asks. *)
Lemma eval_test_literal (hay : pyvalue) (key n tok tmpl : string)
      (kind : test_kind) :
  In (tok, tmpl) tests ->
  kind_of_template tmpl = Some kind ->
  literal (py_str hay) = true -> literal n = true ->
  eval_test hay (CTest (mkFilterTest key n tmpl)) =
  Ok (kind_holds kind (py_str hay) n).
Proof.
  intros Hrow Hkind Hh Hn. unfold eval_test. cbn [test needle].
  generalize dependent (py_str hay). intros h Hh.
  simpl in Hrow.
  repeat (destruct Hrow as [Hrow|Hrow];
          [inversion Hrow; subst tok tmpl; clear Hrow;
           vm_compute in Hkind; inversion Hkind; subst kind; clear Hkind|]);
    [| | | | | | | |contradiction].
  - change (py_format "'{needle}' not in '{haystack}'" h n)
      with (Ok (String "'" (n ++ String "'"
               (" not in " ++ String "'" (h ++ String "'" ""))))).
    cbn [bind append]. lex_template.
  - change (py_format "'{needle}' in '{haystack}'" h n)
      with (Ok (String "'" (n ++ String "'"
               (" in " ++ String "'" (h ++ String "'" ""))))).
    cbn [bind append]. lex_template.
  - change (py_format "'{haystack}' != '{needle}'" h n)
      with (Ok (String "'" (h ++ String "'"
               (" != " ++ String "'" (n ++ String "'" ""))))).
    cbn [bind append]. lex_template.
  - change (py_format "'{haystack}' == '{needle}'" h n)
      with (Ok (String "'" (h ++ String "'"
               (" == " ++ String "'" (n ++ String "'" ""))))).
    cbn [bind append]. lex_template.
  - change (py_format "not '{haystack}'.startswith('{needle}')" h n)
      with (Ok ("not " ++ String "'" (h ++ String "'"
               (".startswith(" ++ String "'" (n ++ String "'" ")"))))).
    cbn [bind append]. lex_template.
  - change (py_format "'{haystack}'.startswith('{needle}')" h n)
      with (Ok (String "'" (h ++ String "'"
               (".startswith(" ++ String "'" (n ++ String "'" ")"))))).
    cbn [bind append]. lex_template.
  - change (py_format "not '{haystack}'.endswith('{needle}')" h n)
      with (Ok ("not " ++ String "'" (h ++ String "'"
               (".endswith(" ++ String "'" (n ++ String "'" ")"))))).
    cbn [bind append]. lex_template.
  - change (py_format "'{haystack}'.endswith('{needle}')" h n)
      with (Ok (String "'" (h ++ String "'"
               (".endswith(" ++ String "'" (n ++ String "'" ")"))))).
    cbn [bind append]. lex_template.
Qed.

(** ** Claims on the parser *)



(** C6, at a clause in which the matched token occurs twice:
    [filter_string.split(cond)] cuts at every occurrence, "a=b=c" gives three
    parts, and unpacking them into [k, v] raises [ValueError]; no predicate
    with haystack "a" and needle "b=c" is returned, alone or among the
    clauses of a comma-separated filter. *)
Theorem classify_filter_repeated_token :
  first_match tests "a=b=c" = Some ("=", "'{haystack}' == '{needle}'")
  /\ py_split "=" "a=b=c" = ["a"; "b"; "c"]
  /\ classify_filter "a=b=c" = Raise ValueError
  /\ classify_filter "x=1,a=b=c" = Raise ValueError.
Proof. repeat split; vm_compute; reflexivity. Qed.

(** C10: for a clause without a comma in which the first token of the
    table that occurs in it occurs exactly once, [classify_filter] returns
    a predicate with that token's template, and haystack, token and needle
    put together are the clause. *)
Theorem classify_filter_round_trip (clause tok tmpl : string) :
  py_in "," clause = false ->
  first_match tests clause = Some (tok, tmpl) ->
  occurrences tok clause = 1 ->
  exists ft : FilterTest,
    classify_filter clause = Ok (CTest ft)
    /\ test ft = tmpl
    /\ haystack ft ++ tok ++ needle ft = clause.
Proof.
  intros Hcomma Hfirst Hocc.
  rewrite classify_filter_clause by assumption.
  destruct (classify_scan_once clause tok tmpl Hfirst Hocc)
    as (k & v & Hscan & Hjoin).
  exists (mkFilterTest k v tmpl). auto.
Qed.

Lemma classify_filter_round_trip_witness :
  py_in "," "name!=foo" = false
  /\ first_match tests "name!=foo" = Some ("!=", "'{haystack}' != '{needle}'")
  /\ occurrences "!=" "name!=foo" = 1
  /\ exists ft : FilterTest,
       classify_filter "name!=foo" = Ok (CTest ft)
       /\ test ft = "'{haystack}' != '{needle}'"
       /\ haystack ft ++ "!=" ++ needle ft = "name!=foo".
Proof.
  split; [reflexivity|]. split; [reflexivity|]. split; [reflexivity|].
  apply (classify_filter_round_trip "name!=foo" "!="
           "'{haystack}' != '{needle}'"); reflexivity.
Defined.

(** ** Claims on the flattener *)

(** C5: flattening [{"a": [1, {"b": 2}]}] with separator "." gives the
    mapping [{"a": [1], "a.b": 2}]: the record leaves the list, its field is
    promoted under "a.b", the element 1 stays. *)
Theorem flatten_dict_list_with_record :
  flatten_dict (VDict [("a", VList [VInt 1; VDict [("b", VInt 2)]])]) "" "."
  = Ok [("a.b", VInt 2); ("a", VList [VInt 1])]
  /\ same_mapping [("a.b", VInt 2); ("a", VList [VInt 1])]
                  [("a", VList [VInt 1]); ("a.b", VInt 2)].
Proof.
  split; [reflexivity|].
  intros key. cbn [dict_get].
  destruct (String.eqb_spec "a.b" key) as [<-|]; [reflexivity|].
  destruct (String.eqb_spec "a" key) as [<-|]; reflexivity.
Qed.

(** C2, at lists with two records: the indices of the records are
    collected in increasing order and deleted in that order from the copy,
    so every deletion after the first meets a list that has already
    shifted.  On [{"a": [{"b": 1}, {"c": 2}]}] the second [del] is out of
    range and [IndexError] is raised; on
    [{"a": [{"b": 1}, 7, {"c": 2}, 8]}] the second [del] removes the scalar 8
    and the record [{"c": 2}] stays in the list. *)
Theorem flatten_dict_two_records :
  del_each [0; 1] [VDict [("b", VInt 1)]; VDict [("c", VInt 2)]]
  = Raise IndexError
  /\ flatten_dict
       (VDict [("a", VList [VDict [("b", VInt 1)]; VDict [("c", VInt 2)]])])
       "" "."
     = Raise IndexError
  /\ flatten_dict
       (VDict [("a", VList [VDict [("b", VInt 1)]; VInt 7;
                            VDict [("c", VInt 2)]; VInt 8])])
       "" "."
     = Ok [("a.b", VInt 1); ("a.c", VInt 2);
           ("a", VList [VInt 7; VDict [("c", VInt 2)]])].
Proof. repeat split; reflexivity. Qed.

(** ** Claims on the evaluators: unrecognised filters and quotes *)

(** Without a comma and without a token of the table, [classify_filter]
    returns [None]; the evaluators wrap it in a list and read [rf.test] on
    it for the first value. *)
Lemma results_filter_no_token (res : pyvalue) (results : list pyvalue)
      (fs : string) :
  py_in "," fs = false -> first_match tests fs = None ->
  results_filter (res :: results) fs = Raise AttributeError.
Proof.
  intros Hc Hf. unfold results_filter.
  rewrite classify_filter_clause, classify_scan_first_match, Hf by assumption.
  reflexivity.
Qed.

(** C1, at the empty filter and at filters without an operator token:
    [classify_filter] returns [None] (or a list of [None]), no empty
    FilterExpression; on a non-empty input both evaluators then raise
    [AttributeError] where the claim has them return an empty sequence. *)
Theorem filters_without_token_raise :
  classify_filter "" = Ok CNone
  /\ results_filter [VStr "apple"] "" = Raise AttributeError
  /\ inventory_filter [VDict [("name", VStr "x")]] "" = Raise AttributeError
  /\ classify_filter "name" = Ok CNone
  /\ results_filter [VStr "apple"] "name" = Raise AttributeError
  /\ inventory_filter [VDict [("name", VStr "x")]] "name"
     = Raise AttributeError
  /\ classify_filter "a,b" = Ok (CList [CNone; CNone])
  /\ results_filter [VStr "apple"] "a,b" = Raise AttributeError
  /\ inventory_filter [VDict [("name", VStr "x")]] "a,b"
     = Raise AttributeError.
Proof. repeat split; vm_compute; reflexivity. Qed.

(** C7, at a value that holds a single quote: the value is cast to its
    string form and pasted between quotes, ['it' in 'it's'] is what [eval]
    receives, its last literal never closes and [SyntaxError] is raised, in
    both evaluators.  The string form of a list of strings brings the
    quotes of [repr]: ['['web', 'prod']' == 'x'] puts the identifier [web]
    right after the literal ['['], a [SyntaxError] again. *)
Theorem filters_raise_on_quote :
  py_format "'{needle}' in '{haystack}'" (py_str (VStr "it's")) "it"
  = Ok "'it' in 'it's'"
  /\ py_eval "'it' in 'it's'" = Raise SyntaxError
  /\ results_filter [VStr "it's"] "<it" = Raise SyntaxError
  /\ inventory_filter [VDict [("name", VStr "it's")]] "name<it"
     = Raise SyntaxError
  /\ py_format "'{haystack}' == '{needle}'"
       (py_str (VList [VStr "web"; VStr "prod"])) "x"
     = Ok "'['web', 'prod']' == 'x'"
  /\ results_filter [VList [VStr "web"; VStr "prod"]] "=x"
     = Raise SyntaxError
  /\ inventory_filter [VDict [("tags", VList [VStr "web"; VStr "prod"])]]
       "tags=x"
     = Raise SyntaxError.
Proof. repeat split; vm_compute; reflexivity. Qed.

(** ** Claims on the evaluators: matching *)

Lemma accepts_iff (eval_list : list bool) :
  accepts eval_list = true <->
  eval_list <> [] /\ (forall b, In b eval_list -> b = true).
Proof.
  destruct eval_list as [|b bs].
  - simpl. split; [discriminate|intros [H _]; congruence].
  - unfold accepts. rewrite forallb_forall. split.
    + intros H. split; [discriminate|exact H].
    + intros [_ H]. exact H.
Qed.

Lemma inventory_eval_list_present (flattened_host : dict)
      (preds : list FilterTest) :
  inventory_eval_list flattened_host (map CTest preds)
  = present_results flattened_host preds.
Proof.
  unfold present_results.
  induction preds as [|ft preds IH]; [reflexivity|].
  cbn [map inventory_eval_list filter].
  destruct (dict_has flattened_host (haystack ft)); [|exact IH].
  cbn [comprehension].
  destruct (dict_get flattened_host (haystack ft)) as [hay| |];
    cbn [bind]; try reflexivity.
  now rewrite IH.
Qed.

(** The loop of [inventory_filter] returns exactly when the list of every
    record is collected, and then with the retained records after those it
    started from. *)
Lemma inventory_loop_spec (preds : list FilterTest)
      (inventory matching out : list pyvalue) :
  inventory_loop (map CTest preds) inventory matching = Ok out <->
  Forall (fun host => exists bs, collected preds host = Ok bs) inventory
  /\ out = (matching ++ filter (retained preds) inventory)%list.
Proof.
  revert matching out; induction inventory as [|host inventory IH];
    intros matching out; cbn [inventory_loop filter].
  - rewrite app_nil_r. split.
    + intros H; inversion H; auto.
    + intros [_ ->]; reflexivity.
  - unfold retained at 1. unfold collected at 2.
    destruct (flatten_dict host "" ".") as [flat| |] eqn:Ef; cbn [bind].
    + rewrite inventory_eval_list_present.
      destruct (present_results flat preds) as [bs| |] eqn:Ep; cbn [bind].
      * rewrite IH.
        assert (Hhost : exists bs, collected preds host = Ok bs).
        { exists bs. unfold collected. rewrite Ef. exact Ep. }
        assert (Hout : ((if accepts bs then matching ++ [host] else matching)
                          ++ filter (retained preds) inventory
                        = matching ++
                          (if accepts bs
                           then host :: filter (retained preds) inventory
                           else filter (retained preds) inventory))%list).
        { destruct (accepts bs); [|reflexivity]. now rewrite <- app_assoc. }
        rewrite Hout. split.
        -- intros [Hall ->]. split; [constructor; assumption|reflexivity].
        -- intros [Hall ->]. inversion Hall; subst. split; [assumption|reflexivity].
      * split; [discriminate|]. intros [Hall _].
        inversion Hall as [|h l [bs Hbs] Hrest]; subst.
        unfold collected in Hbs. rewrite Ef in Hbs. cbn [bind] in Hbs. congruence.
      * split; [discriminate|]. intros [Hall _].
        inversion Hall as [|h l [bs Hbs] Hrest]; subst.
        unfold collected in Hbs. rewrite Ef in Hbs. cbn [bind] in Hbs. congruence.
    + split; [discriminate|]. intros [Hall _].
      inversion Hall as [|h l [bs Hbs] Hrest]; subst.
      unfold collected in Hbs. rewrite Ef in Hbs. discriminate.
    + split; [discriminate|]. intros [Hall _].
      inversion Hall as [|h l [bs Hbs] Hrest]; subst.
      unfold collected in Hbs. rewrite Ef in Hbs. discriminate.
Qed.

(** C4 as stated fails in two ways.  A filter can parse to a predicate and
    to [None] beside it: "name=x,zzz" does, the list of the record
    [{"name": "x"}] for its predicate is [[True]], not empty and all true,
    and yet the record is not retained, for the call raises
    [AttributeError] at [None].  And the call is one for all records: with
    "name=x" the same record is not retained either when another record of
    the sequence has two records in a list, for [flatten_dict] raises
    [IndexError] on that one. *)
Lemma inventory_filter_presence_fails :
  classify_filter "name=x,zzz"
  = Ok (CList [CTest (mkFilterTest "name" "x" "'{haystack}' == '{needle}'");
               CNone])
  /\ collected [mkFilterTest "name" "x" "'{haystack}' == '{needle}'"]
               (VDict [("name", VStr "x")]) = Ok [true]
  /\ inventory_filter [VDict [("name", VStr "x")]] "name=x,zzz"
     = Raise AttributeError
  /\ classify_filter "name=x"
     = Ok (CTest (mkFilterTest "name" "x" "'{haystack}' == '{needle}'"))
  /\ inventory_filter
       [VDict [("name", VStr "x")];
        VDict [("a", VList [VDict [("b", VInt 1)]; VDict [("c", VInt 2)]])]]
       "name=x"
     = Raise IndexError
  /\ ~ (exists out,
          inventory_filter [VDict [("name", VStr "x")]] "name=x,zzz" = Ok out
          /\ In (VDict [("name", VStr "x")]) out).
Proof.
  repeat split; try reflexivity.
  intros (out & H & _).
  change (inventory_filter [VDict [("name", VStr "x")]] "name=x,zzz")
    with (@Raise (list pyvalue) AttributeError) in H.
  discriminate.
Qed.

(** C4, amended: for a filter that parses to predicates and nothing else,
    [inventory_filter] returns exactly when the results of every record can
    be collected, and then returns, in input order, the records whose list
    of results -- collected only for the predicates whose haystack key is in
    the flattened record -- is not empty and all true.  A predicate whose
    key is absent is skipped and nothing is evaluated for it; a record with
    none of the keys has the empty list and is dropped. *)
Theorem inventory_filter_presence (inventory : list pyvalue) (raw : string)
        (resolved : classified) (preds : list FilterTest) :
  classify_filter raw = Ok resolved ->
  as_list resolved = map CTest preds ->
  (forall out : list pyvalue,
     inventory_filter inventory raw = Ok out <->
     Forall (fun host => exists bs, collected preds host = Ok bs) inventory
     /\ out = filter (retained preds) inventory)
  /\ (forall host : pyvalue,
        retained preds host = true <->
        exists bs, collected preds host = Ok bs
                   /\ bs <> [] /\ (forall b, In b bs -> b = true))
  /\ (forall (flat : dict) (ft : FilterTest) (rest : list classified),
        dict_has flat (haystack ft) = false ->
        inventory_eval_list flat (CTest ft :: rest)
        = inventory_eval_list flat rest)
  /\ (forall (host : pyvalue) (flat : dict),
        flatten_dict host "" "." = Ok flat ->
        (forall ft, In ft preds -> dict_has flat (haystack ft) = false) ->
        collected preds host = Ok [] /\ retained preds host = false).
Proof.
  intros Hc Hl. split; [|split; [|split]].
  - intros out. unfold inventory_filter. rewrite Hc. simpl. rewrite Hl.
    apply inventory_loop_spec.
  - intros host. unfold retained.
    destruct (collected preds host) as [bs| |].
    + rewrite accepts_iff. split.
      * intros H. exists bs. tauto.
      * intros (bs' & E & H). inversion E; subst. exact H.
    + split; [discriminate|intros (bs & E & _); discriminate].
    + split; [discriminate|intros (bs & E & _); discriminate].
  - intros flat ft rest H. simpl. now rewrite H.
  - intros host flat Hf Habsent.
    assert (E : collected preds host = Ok []).
    { unfold collected. rewrite Hf. simpl. unfold present_results.
      replace (filter (fun ft => dict_has flat (haystack ft)) preds)
        with (@nil FilterTest); [reflexivity|].
      symmetry. clear Hl. induction preds as [|ft preds IH]; simpl; [reflexivity|].
      rewrite (Habsent ft) by (left; reflexivity).
      apply IH. intros ft' H'. apply Habsent. right. exact H'. }
    split; [exact E|]. unfold retained. now rewrite E.
Qed.

Lemma inventory_filter_presence_witness :
  classify_filter "name=x"
  = Ok (CTest (mkFilterTest "name" "x" "'{haystack}' == '{needle}'"))
  /\ as_list (CTest (mkFilterTest "name" "x" "'{haystack}' == '{needle}'"))
     = map CTest [mkFilterTest "name" "x" "'{haystack}' == '{needle}'"]
  /\ inventory_filter
       [VDict [("name", VStr "x")]; VDict [("other", VStr "y")]] "name=x"
     = Ok [VDict [("name", VStr "x")]].
Proof.
  split; [reflexivity|]. split; [reflexivity|].
  apply (proj1 (inventory_filter_presence
                  [VDict [("name", VStr "x")]; VDict [("other", VStr "y")]]
                  "name=x"
                  (CTest (mkFilterTest "name" "x" "'{haystack}' == '{needle}'"))
                  [mkFilterTest "name" "x" "'{haystack}' == '{needle}'"]
                  eq_refl eq_refl)).
  split.
  - constructor; [eexists; vm_compute; reflexivity|].
    constructor; [eexists; vm_compute; reflexivity|constructor].
  - vm_compute. reflexivity.
Defined.

Lemma tests_kind (tok tmpl : string) :
  In (tok, tmpl) tests -> exists kind, kind_of_template tmpl = Some kind.
Proof.
  simpl. intros H.
  repeat (destruct H as [H|H];
          [inversion H; subst; eexists; vm_compute; reflexivity|]).
  contradiction.
Qed.

Lemma eval_test_pred (ft : FilterTest) (v : pyvalue) :
  plain_pred ft -> literal (py_str v) = true ->
  eval_test v (CTest ft) = Ok (pred_holds ft v).
Proof.
  intros [[tok Hrow] Hn] Hv. unfold pred_holds.
  destruct (tests_kind _ _ Hrow) as [kind Hk]. rewrite Hk.
  destruct ft as [key n tmpl]. cbn [test needle] in *.
  eapply eval_test_literal; eassumption.
Qed.

Lemma comprehension_eval_test (preds : list FilterTest) (v : pyvalue) :
  Forall plain_pred preds -> literal (py_str v) = true ->
  comprehension (eval_test v) (map CTest preds)
  = Ok (map (fun ft => pred_holds ft v) preds).
Proof.
  intros Hp Hv. induction Hp as [|ft preds Hft _ IH]; [reflexivity|].
  cbn [map comprehension]. rewrite eval_test_pred by assumption.
  cbn [bind]. rewrite IH. reflexivity.
Qed.

(** On values and needles without quotes, [results_filter] returns, and
    keeps the values of which every predicate holds (and there is one). *)
Lemma results_loop_literal (preds : list FilterTest)
      (results matching : list pyvalue) :
  Forall plain_pred preds ->
  Forall (fun v => literal (py_str v) = true) results ->
  results_loop (map CTest preds) results matching
  = Ok (matching ++
        filter (fun v => accepts (map (fun ft => pred_holds ft v) preds))
               results)%list.
Proof.
  intros Hp Hr. revert matching.
  induction Hr as [|v results Hv _ IH]; intros matching;
    cbn [results_loop filter].
  - now rewrite app_nil_r.
  - rewrite comprehension_eval_test by assumption. cbn [bind].
    rewrite IH.
    destruct (accepts (map (fun ft => pred_holds ft v) preds));
      [now rewrite <- app_assoc|reflexivity].
Qed.

(** A value that [results_filter] returns was there before or had an
    accepted list. *)
Lemma results_loop_in (resolved : list classified)
      (results matching out : list pyvalue) (v : pyvalue) :
  results_loop resolved results matching = Ok out -> In v out ->
  In v matching \/
  (In v results /\
   exists bs, comprehension (eval_test v) resolved = Ok bs
              /\ accepts bs = true).
Proof.
  revert matching out; induction results as [|res results IH];
    intros matching out H Hin; cbn [results_loop] in H.
  - inversion H; subst. left. exact Hin.
  - destruct (comprehension (eval_test res) resolved) as [bs| |] eqn:E;
      cbn [bind] in H; try discriminate.
    destruct (IH _ _ H Hin) as [Hm|[Hr Hbs]].
    + destruct (accepts bs) eqn:Ea.
      * apply in_app_or in Hm. destruct Hm as [Hm|[<-|[]]]; [left; exact Hm|].
        right. split; [left; reflexivity|]. exists bs. auto.
      * left. exact Hm.
    + right. split; [right; exact Hr|exact Hbs].
Qed.

Lemma dict_has_get {V : Type} (d : list (string * V)) (key : string) :
  dict_has d key = true -> exists v, dict_get d key = Ok v.
Proof.
  induction d as [|[k v] d IH]; simpl; [discriminate|].
  destruct (String.eqb k key); simpl; [intros _; exists v; reflexivity|exact IH].
Qed.

(** On a flattened record whose values, like the needles, hold no quote,
    the list collected is the list of what the test kinds ask, for the
    predicates whose key is present. *)
Lemma present_results_literal (flat : dict) (preds : list FilterTest) :
  Forall plain_pred preds ->
  (forall key v, dict_get flat key = Ok v -> literal (py_str v) = true) ->
  present_results flat preds
  = Ok (map (fun ft => match dict_get flat (haystack ft) with
                       | Ok v => pred_holds ft v
                       | _ => false
                       end)
            (filter (fun ft => dict_has flat (haystack ft)) preds)).
Proof.
  intros Hp Hlit. unfold present_results.
  induction Hp as [|ft preds Hft _ IH]; [reflexivity|].
  cbn [filter]. destruct (dict_has flat (haystack ft)) eqn:Eh; [|exact IH].
  destruct (dict_has_get _ _ Eh) as [v Hv].
  cbn [comprehension map]. rewrite Hv. cbn [bind].
  rewrite eval_test_pred by (try assumption; eapply Hlit; exact Hv).
  cbn [bind]. rewrite IH. reflexivity.
Qed.

(** Clauses that each hold a token once classify to one predicate each. *)
Lemma comprehension_clauses (clauses : list string) :
  Forall (fun clause => py_in "," clause = false) clauses ->
  Forall (fun clause =>
            exists tok tmpl, first_match tests clause = Some (tok, tmpl)
                             /\ occurrences tok clause = 1) clauses ->
  exists preds : list FilterTest,
    comprehension (classify_scan tests) clauses = Ok (map CTest preds)
    /\ Forall2 (fun clause ft => classify_filter clause = Ok (CTest ft))
               clauses preds.
Proof.
  intros Hc Ht. induction Hc as [|clause clauses Hclause _ IH].
  - exists []. split; [reflexivity|constructor].
  - inversion Ht as [|c l (tok & tmpl & Hf & Ho) Hrest]; subst.
    destruct (IH Hrest) as (preds & Hpreds & Hall).
    destruct (classify_scan_once clause tok tmpl Hf Ho)
      as (k & v & Hscan & _).
    exists (mkFilterTest k v tmpl :: preds). split.
    + cbn [comprehension map].
      rewrite Hscan. cbn [bind]. rewrite Hpreds. reflexivity.
    + constructor; [|assumption].
      now rewrite classify_filter_clause.
Qed.

(** C8 as stated fails at a filter with a clause that holds no token: the
    list returned for "a=1,zzz" has [None] in the place of "zzz", so one
    predicate comes from two clauses. *)
Lemma classify_filter_clause_without_token :
  classify_filter "a=1,zzz"
  = Ok (CList [CTest (mkFilterTest "a" "1" "'{haystack}' == '{needle}'");
               CNone])
  /\ ~ (exists preds : list FilterTest,
          classify_filter "a=1,zzz" = Ok (CList (map CTest preds))
          /\ List.length preds = List.length (py_split "," "a=1,zzz")).
Proof.
  split; [reflexivity|].
  intros (preds & H & _).
  change (classify_filter "a=1,zzz")
    with (Ok (CList [CTest (mkFilterTest "a" "1" "'{haystack}' == '{needle}'");
                     CNone])) in H.
  inversion H as [E].
  destruct preds as [|p1 [|p2 preds]]; discriminate.
Qed.

(** C8, amended: a filter with a comma is split on commas and each clause
    is parsed on its own; when every clause holds a token of the table, the
    first of them once, the result is a list with one predicate per clause,
    in the order of the clauses, each the predicate its clause parses to.
    On values and needles without quotes [results_filter] keeps the values
    of which every predicate of the list holds.  "a=1,b=2" gives two
    predicates; [results_filter] with it returns the values that satisfy
    both, and a value that satisfies only one of them is not among the
    values returned. *)
Theorem classify_filter_commas_and :
  (forall fs : string,
     py_in "," fs = true ->
     Forall (fun clause =>
               exists tok tmpl, first_match tests clause = Some (tok, tmpl)
                                /\ occurrences tok clause = 1)
            (py_split "," fs) ->
     exists preds : list FilterTest,
       classify_filter fs = Ok (CList (map CTest preds))
       /\ List.length preds = List.length (py_split "," fs)
       /\ Forall2 (fun clause ft => classify_filter clause = Ok (CTest ft))
                  (py_split "," fs) preds)
  /\ (forall (fs : string) (preds : list FilterTest)
             (results : list pyvalue),
        classify_filter fs = Ok (CList (map CTest preds)) ->
        Forall plain_pred preds ->
        Forall (fun v => literal (py_str v) = true) results ->
        results_filter results fs
        = Ok (filter (fun v => accepts (map (fun ft => pred_holds ft v) preds))
                     results))
  /\ classify_filter "a=1,b=2"
     = Ok (CList [CTest (mkFilterTest "a" "1" "'{haystack}' == '{needle}'");
                  CTest (mkFilterTest "b" "2" "'{haystack}' == '{needle}'")])
  /\ (forall results : list pyvalue,
        Forall (fun v => literal (py_str v) = true) results ->
        results_filter results "a=1,b=2"
        = Ok (filter (fun v => String.eqb (py_str v) "1"
                               && String.eqb (py_str v) "2") results))
  /\ (forall (results out : list pyvalue) (v : pyvalue),
        results_filter results "a=1,b=2" = Ok out ->
        py_str v = "1" \/ py_str v = "2" ->
        ~ In v out).
Proof.
  split; [|split; [|split; [reflexivity|split]]].
  - intros fs Hcomma Hclauses.
    destruct (comprehension_clauses (py_split "," fs)
                (py_split_char_free ","%char fs) Hclauses)
      as (preds & Hpreds & Hall).
    exists preds. split; [|split].
    + rewrite classify_filter_commas by assumption. now rewrite Hpreds.
    + symmetry. eapply Forall2_length. exact Hall.
    + exact Hall.
  - intros fs preds results Hfs Hp Hlit. unfold results_filter.
    rewrite Hfs. cbn [bind as_list].
    now rewrite results_loop_literal.
  - intros results Hlit. unfold results_filter.
    change (classify_filter "a=1,b=2")
      with (Ok (CList (map CTest
                  [mkFilterTest "a" "1" "'{haystack}' == '{needle}'";
                   mkFilterTest "b" "2" "'{haystack}' == '{needle}'"]))).
    cbn [bind as_list]. rewrite results_loop_literal.
    + cbn [app]. f_equal. apply filter_ext. intros v.
      cbn [map accepts forallb]. unfold pred_holds. cbn [test needle].
      change (kind_of_template "'{haystack}' == '{needle}'") with (Some Equals).
      cbn [kind_holds]. now rewrite andb_true_r.
    + repeat constructor; exists "="; simpl; tauto.
    + exact Hlit.
  - intros results out v H Hv Hin. unfold results_filter in H.
    change (classify_filter "a=1,b=2")
      with (Ok (CList
                  [CTest (mkFilterTest "a" "1" "'{haystack}' == '{needle}'");
                   CTest (mkFilterTest "b" "2" "'{haystack}' == '{needle}'")]))
      in H.
    cbn [bind as_list] in H.
    destruct (results_loop_in _ _ _ _ v H Hin) as [[]|[_ (bs & Hbs & Hacc)]].
    cbn [comprehension eval_test test needle] in Hbs.
    destruct Hv as [Hv|Hv]; rewrite Hv in Hbs; vm_compute in Hbs;
      inversion Hbs; subst bs; discriminate.
Qed.

Lemma classify_filter_commas_and_witness :
  py_in "," "a=1,b=2" = true
  /\ Forall (fun clause =>
               exists tok tmpl, first_match tests clause = Some (tok, tmpl)
                                /\ occurrences tok clause = 1)
            (py_split "," "a=1,b=2")
  /\ exists preds : list FilterTest,
       classify_filter "a=1,b=2" = Ok (CList (map CTest preds))
       /\ List.length preds = List.length (py_split "," "a=1,b=2")
       /\ Forall2 (fun clause ft => classify_filter clause = Ok (CTest ft))
                  (py_split "," "a=1,b=2") preds.
Proof.
  assert (Hclauses :
            Forall (fun clause =>
                      exists tok tmpl,
                        first_match tests clause = Some (tok, tmpl)
                        /\ occurrences tok clause = 1)
                   (py_split "," "a=1,b=2")).
  { change (py_split "," "a=1,b=2") with ["a=1"; "b=2"].
    constructor; [|constructor; [|constructor]];
      exists "=", "'{haystack}' == '{needle}'"; split; reflexivity. }
  split; [reflexivity|]. split; [exact Hclauses|].
  apply (proj1 classify_filter_commas_and "a=1,b=2"); [reflexivity|].
  exact Hclauses.
Defined.

(** ** Filters without a token, in general *)

Lemma strip_prefix_app_l (t p r b : string) :
  strip_prefix t p = Some r -> strip_prefix t (p ++ b) = Some (r ++ b).
Proof.
  revert p; induction t as [|c t IH]; intros p H; simpl in *.
  - inversion H; reflexivity.
  - destruct p as [|x p]; [discriminate|]. simpl.
    destruct (Ascii.eqb c x); [apply IH; exact H|discriminate].
Qed.

Lemma py_in_app_l (tok p b : string) :
  py_in tok p = true -> py_in tok (p ++ b) = true.
Proof.
  induction p as [|c p IH]; intros H.
  - simpl in H. destruct (strip_prefix tok "") as [r|] eqn:E; [|discriminate].
    apply (strip_prefix_app_l _ _ _ b) in E. simpl in E.
    destruct b; simpl; simpl in E; now rewrite E.
  - simpl in H. simpl.
    destruct (strip_prefix tok (String c p)) as [r|] eqn:E.
    + apply (strip_prefix_app_l _ _ _ b) in E. simpl in E. now rewrite E.
    + destruct (strip_prefix tok (String c (p ++ b))); [reflexivity|].
      apply IH. exact H.
Qed.

Lemma py_in_app_r (tok a p : string) :
  py_in tok p = true -> py_in tok (a ++ p) = true.
Proof.
  intros H. induction a as [|c a IH]; simpl; [exact H|].
  destruct (strip_prefix tok (String c (a ++ p))); [reflexivity|exact IH].
Qed.

(** The parts of a split are pieces of the string. *)
Lemma split_from_infix (fuel : nat) (sep cur s : string) :
  sep <> "" -> String.length s < fuel ->
  Forall (fun part => exists a b, cur ++ s = a ++ part ++ b)
         (split_from fuel sep cur s).
Proof.
  intros Hsep.
  revert cur s; induction fuel as [|fuel IH]; intros cur s Hlen; [lia|].
  simpl. destruct (strip_prefix sep s) as [rest|] eqn:E.
  - constructor.
    + exists "", s. reflexivity.
    + apply strip_prefix_Some in E. subst s.
      assert (Hrest : String.length rest < fuel).
      { rewrite string_app_length in Hlen.
        destruct sep; [congruence|simpl in Hlen; lia]. }
      eapply Forall_impl; [|apply (IH "" rest Hrest)].
      intros part (a & b & Hab). simpl in Hab.
      exists (cur ++ sep ++ a), b. rewrite Hab.
      now rewrite !string_app_assoc.
  - destruct s as [|c s].
    + constructor; [|constructor]. exists "", "". simpl.
      now rewrite !string_app_nil_r.
    + eapply Forall_impl; [|apply (IH (cur ++ String c "") s)];
        [|simpl in Hlen; lia].
      intros part (a & b & Hab). exists a, b. rewrite <- Hab.
      now rewrite string_app_assoc.
Qed.

Lemma py_split_no_token (sep tok fs : string) :
  sep <> "" -> py_in tok fs = false ->
  Forall (fun part => py_in tok part = false) (py_split sep fs).
Proof.
  intros Hsep H. unfold py_split.
  eapply Forall_impl;
    [|apply (split_from_infix (S (String.length fs)) sep "" fs);
      [exact Hsep|apply Nat.lt_succ_diag_r]].
  intros part (a & b & Hab). simpl in Hab.
  destruct (py_in tok part) eqn:E; [|reflexivity].
  rewrite Hab in H. rewrite py_in_app_r in H; [discriminate|].
  apply py_in_app_l. exact E.
Qed.

Lemma first_match_none (tbl : list (string * string)) (fs : string) :
  first_match tbl fs = None <->
  forall row, In row tbl -> py_in (fst row) fs = false.
Proof.
  unfold first_match. split.
  - intros H row Hrow. exact (find_none _ _ H row Hrow).
  - intros H. induction tbl as [|row tbl IH]; [reflexivity|].
    simpl. rewrite (H row) by (left; reflexivity).
    apply IH. intros r Hr. apply H. right. exact Hr.
Qed.

(** What [classify_filter] makes of a filter without a token: [None], or a
    list that starts with [None]. *)
Lemma classify_filter_without_token (fs : string) :
  first_match tests fs = None ->
  exists c rest, classify_filter fs = Ok c /\ as_list c = CNone :: rest.
Proof.
  intros Hnone. destruct (py_in "," fs) eqn:Hcomma.
  - rewrite classify_filter_commas by assumption.
    assert (Hparts : Forall (fun part => classify_scan tests part = Ok CNone)
                            (py_split "," fs)).
    { assert (H : forall row, In row tests ->
                   Forall (fun part => py_in (fst row) part = false)
                          (py_split "," fs)).
      { intros row Hrow. apply py_split_no_token; [discriminate|].
        exact (proj1 (first_match_none tests fs) Hnone row Hrow). }
      apply Forall_forall. intros part Hpart.
      rewrite classify_scan_first_match.
      replace (first_match tests part) with (@None (string * string));
        [reflexivity|].
      symmetry. apply first_match_none. intros row Hrow.
      exact (proj1 (Forall_forall _ _) (H row Hrow) part Hpart). }
    pose proof (split_from_nonempty (S (String.length fs)) "," "" fs) as Hne.
    fold (py_split "," fs) in Hne.
    destruct (py_split "," fs) as [|part parts]; [congruence|].
    inversion Hparts as [|x l Hpart Hrest]; subst.
    cbn [comprehension]. rewrite Hpart. cbn [bind].
    assert (Hc : exists l, comprehension (classify_scan tests) parts = Ok l).
    { clear Hparts Hne. induction Hrest as [|x l Hx _ IH].
      - exists []. reflexivity.
      - destruct IH as [l' Hl']. exists (CNone :: l').
        cbn [comprehension]. rewrite Hx, Hl'. reflexivity. }
    destruct Hc as [l Hl]. rewrite Hl. cbn [bind].
    exists (CList (CNone :: l)), l. split; reflexivity.
  - rewrite classify_filter_clause, classify_scan_first_match, Hnone
      by assumption.
    exists CNone, []. split; reflexivity.
Qed.

(** X5: on a filter without a token neither evaluator returns on a
    non-empty input: [results_filter] raises [AttributeError] whatever the
    values are, and [inventory_filter] raises it as soon as the first record
    is flattened. *)
Lemma filters_without_token_never_return (fs : string) (first : pyvalue)
      (others : list pyvalue) :
  first_match tests fs = None ->
  results_filter (first :: others) fs = Raise AttributeError
  /\ (forall flat, flatten_dict first "" "." = Ok flat ->
      inventory_filter (first :: others) fs = Raise AttributeError)
  /\ (forall out, inventory_filter (first :: others) fs <> Ok out).
Proof.
  intros Hnone.
  destruct (classify_filter_without_token fs Hnone) as (c & rest & Hfs & Hc).
  unfold results_filter, inventory_filter.
  rewrite Hfs. cbn [bind]. rewrite Hc.
  split; [reflexivity|split].
  - intros flat Hflat. cbn [inventory_loop]. rewrite Hflat. reflexivity.
  - intros out. cbn [inventory_loop].
    destruct (flatten_dict first "" "."); cbn [bind inventory_eval_list];
      discriminate.
Qed.

(** ** The store *)

Lemma update_length (st : Heap.store) (a : Heap.addr) (o : Heap.object) :
  List.length (Heap.update st a o) = List.length st.
Proof.
  revert a; induction st as [|x st IH]; intros [|a]; simpl; auto.
Qed.

Lemma update_other (st : Heap.store) (a b : Heap.addr) (o : Heap.object) :
  b <> a -> Heap.lookup (Heap.update st a o) b = Heap.lookup st b.
Proof.
  unfold Heap.lookup. revert a b; induction st as [|x st IH];
    intros [|a] [|b] H; simpl; auto; try congruence.
Qed.

Lemma keeps_ret {A : Type} (n : nat) (a : A) : Heap.keeps n (Heap.ret a).
Proof. intros st H. simpl. auto. Qed.

Lemma keeps_lift {A : Type} (n : nat) (r : outcome A) :
  Heap.keeps n (Heap.lift r).
Proof. intros st H. simpl. auto. Qed.

Lemma keeps_bind {A B : Type} (n : nat) (m : Heap.M A) (k : A -> Heap.M B) :
  Heap.keeps n m -> (forall a, Heap.keeps n (k a)) ->
  Heap.keeps n (Heap.mbind m k).
Proof.
  intros Hm Hk st H. unfold Heap.mbind.
  destruct (Hm st H) as [Hlen Hsame].
  destruct (m st) as [[a|e|] st1]; simpl in *; auto.
  destruct (Hk a st1 Hlen) as [Hlen2 Hsame2]. split; [assumption|].
  intros b Hb. rewrite Hsame2, Hsame; auto.
Qed.

Lemma keeps_items_of (n : nat) (v : Heap.hvalue) :
  Heap.keeps n (Heap.items_of v).
Proof.
  intros st H. unfold Heap.items_of.
  destruct v; simpl; auto.
  destruct (Heap.lookup st a) as [[l|items]|]; simpl; auto.
Qed.

Lemma keeps_alloc {A : Type} (n : nat) (o : Heap.object)
      (k : Heap.addr -> Heap.M A) :
  (forall a, n <= a -> Heap.keeps n (k a)) ->
  Heap.keeps n (fun st => let (a, st1) := Heap.alloc o st in k a st1).
Proof.
  intros Hk st H. unfold Heap.alloc.
  destruct (Hk (List.length st) H (st ++ [o])%list) as [Hlen Hsame].
  { rewrite length_app. lia. }
  split; [assumption|]. intros a Ha. rewrite Hsame by assumption.
  unfold Heap.lookup. apply nth_error_app1. lia.
Qed.

(** The deletions touch the object at [value] only. *)
Lemma keeps_del_loop (n : nat) (value : Heap.addr) (to_remove : list nat) :
  n <= value -> Heap.keeps n (Heap.del_loop value to_remove).
Proof.
  intros Hv. induction to_remove as [|index to_remove IH]; simpl.
  - apply keeps_ret.
  - intros st H.
    destruct (Heap.lookup st value) as [[elems|items]|]; simpl; auto.
    destruct (py_del index elems) as [elems'| |]; simpl; auto.
    destruct (IH (Heap.update st value (Heap.OList elems'))) as [Hlen Hsame].
    { rewrite update_length. exact H. }
    split; [assumption|]. intros a Ha.
    rewrite Hsame by assumption. apply update_other. lia.
Qed.

Section BodyKeeps.

Variable flatten : Heap.hvalue -> string -> string -> Heap.M Heap.hvalue.
Hypothesis flatten_keeps :
  forall n v parent_key separator,
    Heap.keeps n (flatten v parent_key separator).

Lemma keeps_enum_loop (n : nat) (new_key separator : string)
      (elems : list Heap.hvalue) (index : nat)
      (flattened : list (string * Heap.hvalue)) (to_remove : list nat) :
  Heap.keeps n (Heap.enum_loop flatten new_key separator elems index
                               flattened to_remove).
Proof.
  revert index flattened to_remove.
  induction elems as [|val elems IH]; intros index flattened to_remove;
    simpl.
  - apply keeps_ret.
  - intros st H. destruct (Heap.is_dict st val).
    + apply keeps_bind; [apply flatten_keeps| |exact H]. intros sub.
      apply keeps_bind; [apply keeps_items_of|]. intros sub_items.
      apply IH.
    + apply IH. exact H.
Qed.

Lemma keeps_items_loop (n : nat) (parent_key separator : string)
      (items flattened : list (string * Heap.hvalue)) :
  Heap.keeps n (Heap.items_loop flatten parent_key separator items
                                flattened).
Proof.
  revert flattened.
  induction items as [|[key value] items IH]; intros flattened; simpl.
  - apply keeps_ret.
  - intros st H. destruct (Heap.is_dict st value).
    + apply keeps_bind; [apply flatten_keeps| |exact H]. intros sub.
      apply keeps_bind; [apply keeps_items_of|]. intros sub_items.
      apply IH.
    + destruct (Heap.as_list st value) as [elems|]; [|apply IH; exact H].
      apply (keeps_alloc n (Heap.OList elems)
               (fun copy =>
                  Heap.mbind
                    (Heap.enum_loop flatten
                       (new_key_of parent_key separator key) separator
                       elems 0 flattened [])
                    (fun r =>
                       Heap.mbind (Heap.del_loop copy (snd r))
                         (fun _ =>
                            Heap.items_loop flatten parent_key separator
                              items
                              (fst r ++
                               [(new_key_of parent_key separator key,
                                 Heap.HRef copy)])%list)))); [|exact H].
      intros copy Hcopy.
      apply keeps_bind; [apply keeps_enum_loop|]. intros r.
      apply keeps_bind; [apply keeps_del_loop; exact Hcopy|]. intros _.
      apply IH.
Qed.

Lemma keeps_flatten_body (n : nat) (nested_dict : Heap.hvalue)
      (parent_key separator : string) :
  Heap.keeps n (Heap.flatten_body flatten nested_dict parent_key separator).
Proof.
  unfold Heap.flatten_body.
  apply keeps_bind; [apply keeps_items_of|]. intros items.
  apply keeps_bind; [apply keeps_items_loop|]. intros flattened.
  apply (keeps_alloc n (Heap.ODict (py_dict flattened))
           (fun d => Heap.ret (Heap.HRef d))).
  intros d _. apply keeps_ret.
Qed.

End BodyKeeps.

Lemma keeps_flatten_dict (depth n : nat) (nested_dict : Heap.hvalue)
      (parent_key separator : string) :
  Heap.keeps n (Heap.flatten_dict depth nested_dict parent_key separator).
Proof.
  revert n nested_dict parent_key separator.
  induction depth as [|depth IH]; intros n nested_dict parent_key separator;
    simpl.
  - apply keeps_lift.
  - apply keeps_flatten_body. exact IH.
Qed.

(** ** Claim on the flattener and its argument *)

(** C9: [flatten_dict] does not change its argument: whatever the call
    does -- return or raise -- every object that was in the store before
    the call, so the record and every mapping and sequence inside it, is in
    the store after it, at its address and as it was.  The deletions go to
    the copy: for [{"a": [1, {"b": 2}]}] the copy made at address 3 ends as
    [[1]] and is what the result holds under "a", and the list at address 1
    still holds both elements. *)
Theorem flatten_dict_keeps_input :
  (forall (depth : nat) (nested_dict : Heap.hvalue)
          (parent_key separator : string) (st : Heap.store)
          (a : Heap.addr) (o : Heap.object),
      Heap.lookup st a = Some o ->
      Heap.lookup
        (snd (Heap.flatten_dict depth nested_dict parent_key separator st)) a
      = Some o)
  /\ Heap.flatten_dict 2 (Heap.HRef 2) "" "." example_store
     = (Ok (Heap.HRef 5),
        (example_store ++
         [Heap.OList [Heap.HInt 1];
          Heap.ODict [("a.b", Heap.HInt 2)];
          Heap.ODict [("a.b", Heap.HInt 2); ("a", Heap.HRef 3)]])%list).
Proof.
  split; [|reflexivity].
  intros depth nested_dict parent_key separator st a o H.
  assert (Ha : a < List.length st).
  { apply nth_error_Some. unfold Heap.lookup in H. congruence. }
  destruct (keeps_flatten_dict depth (List.length st) nested_dict
              parent_key separator st (le_n _)) as [_ Hsame].
  rewrite Hsame by exact Ha. exact H.
Qed.

Lemma flatten_dict_keeps_input_witness :
  Heap.lookup example_store 1
  = Some (Heap.OList [Heap.HInt 1; Heap.HRef 0])
  /\ Heap.lookup
       (snd (Heap.flatten_dict 2 (Heap.HRef 2) "" "." example_store)) 1
     = Some (Heap.OList [Heap.HInt 1; Heap.HRef 0]).
Proof.
  split; [reflexivity|].
  apply (proj1 flatten_dict_keeps_input 2 (Heap.HRef 2) "" "." example_store
               1 (Heap.OList [Heap.HInt 1; Heap.HRef 0])).
  reflexivity.
Defined.

(** ** The flattener on the store and on values *)

(** The flattener over the store and the flattener over values are two
    writings of one function: a record read from the store and flattened
    there gives what flattening the record gives.  The proof follows the
    two pairs of loops side by side. *)

Lemma option_all_Forall2 {A B : Type} (f : A -> option B) (l : list A)
      (l' : list B) :
  Heap.option_all f l = Some l' <-> Forall2 (fun x y => f x = Some y) l l'.
Proof.
  revert l'; induction l as [|x l IH]; intros l'; simpl.
  - split; [intros H; inversion H; constructor|intros H; inversion H; reflexivity].
  - split.
    + destruct (f x) as [y|] eqn:E; [|discriminate].
      destruct (Heap.option_all f l) as [ys|]; [|discriminate].
      intros H; inversion H; subst. constructor; [assumption|]. now apply IH.
    + intros H; inversion H as [|x0 y l0 ys Hy Hys]; subst.
      rewrite Hy. apply IH in Hys. now rewrite Hys.
Qed.

(** Reading a reference, one step. *)
Lemma reify_ref (g : nat) (st : Heap.store) (a : Heap.addr) :
  Heap.reify (S g) st (Heap.HRef a) =
  match Heap.lookup st a with
  | Some (Heap.OList elems) =>
      option_map VList (Heap.option_all (Heap.reify g st) elems)
  | Some (Heap.ODict items) =>
      option_map VDict
        (Heap.option_all
           (fun kv => option_map (pair (fst kv)) (Heap.reify g st (snd kv)))
           items)
  | None => None
  end.
Proof. reflexivity. Qed.

(** More depth reads the same. *)
Lemma reify_mono (g : nat) (st : Heap.store) (h : Heap.hvalue) (p : pyvalue) :
  Heap.reify g st h = Some p -> Heap.reify (S g) st h = Some p.
Proof.
  revert h p; induction g as [|g IH]; intros h p H.
  - destruct h; simpl in *; try assumption; discriminate.
  - destruct h; try exact H.
    rewrite reify_ref in H. rewrite reify_ref.
    destruct (Heap.lookup st a) as [[elems|items]|]; [| |discriminate].
    + destruct (Heap.option_all (Heap.reify g st) elems) as [ps|] eqn:E;
        [|discriminate].
      apply option_all_Forall2 in E.
      assert (E' : Heap.option_all (Heap.reify (S g) st) elems = Some ps).
      { apply option_all_Forall2. eapply Forall2_impl; [|exact E].
        intros x y Hxy. apply IH. exact Hxy. }
      rewrite E'. exact H.
    + destruct (Heap.option_all
                  (fun kv => option_map (pair (fst kv))
                                        (Heap.reify g st (snd kv))) items)
        as [ps|] eqn:E; [|discriminate].
      apply option_all_Forall2 in E.
      assert (E' : Heap.option_all
                     (fun kv => option_map (pair (fst kv))
                                           (Heap.reify (S g) st (snd kv)))
                     items = Some ps).
      { apply option_all_Forall2. eapply Forall2_impl; [|exact E].
        intros x y Hxy. cbn beta in *.
        destruct (Heap.reify g st (snd x)) as [px|] eqn:Ex; [|discriminate].
        rewrite (IH _ _ Ex). exact Hxy. }
      rewrite E'. exact H.
Qed.

(** A store that keeps the objects reads the same. *)
Lemma reify_extends (g : nat) (st0 st : Heap.store) (h : Heap.hvalue)
      (p : pyvalue) :
  Heap.extends st0 st ->
  Heap.reify g st0 h = Some p -> Heap.reify g st h = Some p.
Proof.
  intros [Hlen Hsame]. revert h p; induction g as [|g IH]; intros h p H.
  - destruct h; simpl in *; try assumption; discriminate.
  - destruct h; try exact H.
    rewrite reify_ref in H. rewrite reify_ref.
    destruct (Heap.lookup st0 a) as [o|] eqn:Ea; [|discriminate].
    assert (Ha : a < List.length st0).
    { apply nth_error_Some. unfold Heap.lookup in Ea. congruence. }
    rewrite (Hsame a Ha), Ea.
    destruct o as [elems|items].
    + destruct (Heap.option_all (Heap.reify g st0) elems) as [ps|] eqn:E;
        [|discriminate].
      apply option_all_Forall2 in E.
      assert (E' : Heap.option_all (Heap.reify g st) elems = Some ps).
      { apply option_all_Forall2. eapply Forall2_impl; [|exact E].
        intros x y Hxy. apply IH. exact Hxy. }
      rewrite E'. exact H.
    + destruct (Heap.option_all
                  (fun kv => option_map (pair (fst kv))
                                        (Heap.reify g st0 (snd kv))) items)
        as [ps|] eqn:E; [|discriminate].
      apply option_all_Forall2 in E.
      assert (E' : Heap.option_all
                     (fun kv => option_map (pair (fst kv))
                                           (Heap.reify g st (snd kv)))
                     items = Some ps).
      { apply option_all_Forall2. eapply Forall2_impl; [|exact E].
        intros x y Hxy. cbn beta in *.
        destruct (Heap.reify g st0 (snd x)) as [px|] eqn:Ex; [|discriminate].
        rewrite (IH _ _ Ex). exact Hxy. }
      rewrite E'. exact H.
Qed.

(** The type tests on a value of the store are the tests on what it
    stands for. *)
Lemma reify_is_dict (g : nat) (st : Heap.store) (h : Heap.hvalue)
      (p : pyvalue) :
  Heap.reify g st h = Some p -> Heap.is_dict st h = is_dict p.
Proof.
  intros H. destruct h; try (destruct g; inversion H; reflexivity).
  destruct g as [|g]; [discriminate|]. rewrite reify_ref in H.
  unfold Heap.is_dict.
  destruct (Heap.lookup st a) as [[elems|items]|]; [| |discriminate].
  - destruct (Heap.option_all _ elems); inversion H; reflexivity.
  - destruct (Heap.option_all _ items); inversion H; reflexivity.
Qed.

Lemma reify_dict (g : nat) (st : Heap.store) (h : Heap.hvalue)
      (pitems : list (string * pyvalue)) :
  Heap.reify g st h = Some (VDict pitems) ->
  exists g' a items,
    g = S g' /\ h = Heap.HRef a
    /\ Heap.lookup st a = Some (Heap.ODict items)
    /\ Forall2 (fun kv pkv => fst kv = fst pkv
                              /\ Heap.reify g' st (snd kv) = Some (snd pkv))
               items pitems.
Proof.
  intros H. destruct h; try (destruct g; discriminate).
  destruct g as [|g]; [discriminate|]. rewrite reify_ref in H.
  destruct (Heap.lookup st a) as [[elems|items]|] eqn:Ea; [| |discriminate].
  - destruct (Heap.option_all _ elems); discriminate.
  - destruct (Heap.option_all _ items) as [ps|] eqn:E; [|discriminate].
    inversion H; subst ps. exists g, a, items.
    split; [reflexivity|split; [reflexivity|split; [exact Ea|]]].
    apply option_all_Forall2 in E. eapply Forall2_impl; [|exact E].
    intros kv pkv Hkv. cbn beta in Hkv.
    destruct (Heap.reify g st (snd kv)) as [x|]; [|discriminate].
    inversion Hkv; subst. auto.
Qed.

Lemma reify_list (g : nat) (st : Heap.store) (h : Heap.hvalue)
      (ps : list pyvalue) :
  Heap.reify g st h = Some (VList ps) ->
  exists g' elems,
    g = S g' /\ Heap.as_list st h = Some elems
    /\ Forall2 (fun e pe => Heap.reify g' st e = Some pe) elems ps.
Proof.
  intros H. destruct h; try (destruct g; discriminate).
  destruct g as [|g]; [discriminate|]. rewrite reify_ref in H.
  unfold Heap.as_list.
  destruct (Heap.lookup st a) as [[elems|items]|] eqn:Ea; [| |discriminate].
  - destruct (Heap.option_all _ elems) as [ps'|] eqn:E; [|discriminate].
    inversion H; subst ps'. exists g, elems.
    split; [reflexivity|split; [reflexivity|]]. now apply option_all_Forall2.
  - destruct (Heap.option_all _ items); discriminate.
Qed.

Lemma reify_scalar (g : nat) (st : Heap.store) (h : Heap.hvalue)
      (p : pyvalue) :
  Heap.reify g st h = Some p ->
  match p with
  | VList _ | VDict _ => True
  | _ => (forall st', Heap.as_list st' h = None)
         /\ forall g' st', Heap.reify g' st' h = Some p
  end.
Proof.
  intros H. destruct h.
  - destruct g; inversion H; subst;
      (split; [reflexivity|intros [|?] ?; reflexivity]).
  - destruct g; inversion H; subst;
      (split; [reflexivity|intros [|?] ?; reflexivity]).
  - destruct g; inversion H; subst;
      (split; [reflexivity|intros [|?] ?; reflexivity]).
  - destruct g; inversion H; subst;
      (split; [reflexivity|intros [|?] ?; reflexivity]).
  - destruct g as [|g]; [discriminate|]. rewrite reify_ref in H.
    destruct (Heap.lookup st a) as [[elems|items]|]; [| |discriminate].
    + destruct (Heap.option_all _ elems); inversion H; exact I.
    + destruct (Heap.option_all _ items); inversion H; exact I.
Qed.

Lemma Forall2_firstn {A B : Type} (R : A -> B -> Prop) (n : nat)
      (l : list A) (l' : list B) :
  Forall2 R l l' -> Forall2 R (firstn n l) (firstn n l').
Proof.
  intros H; revert n; induction H; intros [|n]; simpl; constructor; auto.
Qed.

Lemma Forall2_skipn {A B : Type} (R : A -> B -> Prop) (n : nat)
      (l : list A) (l' : list B) :
  Forall2 R l l' -> Forall2 R (skipn n l) (skipn n l').
Proof.
  intros H; revert n; induction H; intros [|n]; simpl;
    try constructor; auto.
Qed.

(** Deleting by index sees the lengths only. *)
Lemma del_each_Forall2 {A B : Type} (R : A -> B -> Prop)
      (to_remove : list nat) (l : list A) (l' : list B) :
  Forall2 R l l' ->
  match del_each to_remove l' with
  | Ok b => exists a, del_each to_remove l = Ok a /\ Forall2 R a b
  | Raise e => del_each to_remove l = Raise e
  | Unmodelled => del_each to_remove l = Unmodelled
  end.
Proof.
  revert l l'; induction to_remove as [|index to_remove IH]; intros l l' H;
    simpl.
  - exists l. auto.
  - unfold py_del.
    rewrite (Forall2_length H).
    destruct (Nat.ltb index (List.length l')); simpl; [|reflexivity].
    apply IH. apply Forall2_app;
      [apply Forall2_firstn|apply (Forall2_skipn R (S index))]; exact H.
Qed.

Lemma update_same (st : Heap.store) (a : Heap.addr) (o : Heap.object) :
  a < List.length st -> Heap.lookup (Heap.update st a o) a = Some o.
Proof.
  unfold Heap.lookup. revert a; induction st as [|x st IH]; intros [|a] H;
    simpl in *; try lia; auto. apply IH. lia.
Qed.

(** The deletions on the list object at [value] are the deletions on its
    elements. *)
Lemma del_loop_spec (value : Heap.addr) (to_remove : list nat)
      (st : Heap.store) (elems : list Heap.hvalue) :
  Heap.lookup st value = Some (Heap.OList elems) ->
  match del_each to_remove elems with
  | Ok elems' =>
      exists st', Heap.del_loop value to_remove st = (Ok tt, st')
                  /\ Heap.lookup st' value = Some (Heap.OList elems')
                  /\ List.length st' = List.length st
                  /\ forall a, a <> value ->
                               Heap.lookup st' a = Heap.lookup st a
  | Raise e => exists st', Heap.del_loop value to_remove st = (Raise e, st')
  | Unmodelled =>
      exists st', Heap.del_loop value to_remove st = (Unmodelled, st')
  end.
Proof.
  revert st elems; induction to_remove as [|index to_remove IH];
    intros st elems H; simpl.
  - exists st. auto.
  - rewrite H. destruct (py_del index elems) as [elems1| |] eqn:E; simpl.
    + assert (Hv : value < List.length st).
      { apply nth_error_Some. unfold Heap.lookup in H. congruence. }
      specialize (IH (Heap.update st value (Heap.OList elems1)) elems1
                     (update_same _ _ _ Hv)).
      destruct (del_each to_remove elems1) as [elems'|e|].
      * destruct IH as (st' & Hrun & Hl & Hlen & Hother).
        exists st'. repeat split; try assumption.
        -- rewrite Hlen. apply update_length.
        -- intros a Ha. rewrite (Hother a Ha). now apply update_other.
      * exact IH.
      * exact IH.
    + exists st. reflexivity.
    + exists st. reflexivity.
Qed.

Lemma dict_set_Forall2 {V W : Type} (R : V -> W -> Prop)
      (d : list (string * V)) (pd : list (string * W))
      (key : string) (v : V) (w : W) :
  Forall2 (fun kv pkv => fst kv = fst pkv /\ R (snd kv) (snd pkv)) d pd ->
  R v w ->
  Forall2 (fun kv pkv => fst kv = fst pkv /\ R (snd kv) (snd pkv))
          (dict_set d key v) (dict_set pd key w).
Proof.
  intros H Hv. induction H as [|[k x] [k' y] d pd [Hk Hx] Ht IH]; simpl.
  - constructor; [split; [reflexivity|exact Hv]|constructor].
  - simpl in Hk. subst k'. destruct (String.eqb k key).
    + constructor; [split; [reflexivity|exact Hv]|assumption].
    + constructor; [split; [reflexivity|exact Hx]|exact IH].
Qed.

Lemma py_dict_Forall2 {V W : Type} (R : V -> W -> Prop)
      (l : list (string * V)) (pl : list (string * W)) :
  Forall2 (fun kv pkv => fst kv = fst pkv /\ R (snd kv) (snd pkv)) l pl ->
  Forall2 (fun kv pkv => fst kv = fst pkv /\ R (snd kv) (snd pkv))
          (py_dict l) (py_dict pl).
Proof.
  unfold py_dict. intros H.
  assert (G : forall d pd,
             Forall2 (fun kv pkv => fst kv = fst pkv /\ R (snd kv) (snd pkv))
                     d pd ->
             Forall2 (fun kv pkv => fst kv = fst pkv /\ R (snd kv) (snd pkv))
                     (fold_left (fun d kv => dict_set d (fst kv) (snd kv)) l d)
                     (fold_left (fun d kv => dict_set d (fst kv) (snd kv))
                                pl pd)).
  { induction H as [|kv pkv l pl [Hk Hv] _ IH]; intros d pd Hd; simpl.
    - exact Hd.
    - apply IH. rewrite Hk. apply dict_set_Forall2; assumption. }
  apply G. constructor.
Qed.

(** The relation goes over to a store that has the same lists at the
    addresses allowed. *)
Lemma val_rel_change (g : nat) (st0 st st' : Heap.store)
      (P P' : Heap.addr -> Prop) (h : Heap.hvalue) (p : pyvalue) :
  (forall c o, P c -> Heap.lookup st c = Some o ->
               P' c /\ Heap.lookup st' c = Some o) ->
  val_rel g st0 st P h p -> val_rel g st0 st' P' h p.
Proof.
  intros H [Hold|(c & elems & ps & -> & Hc & Hl & Hall & ->)].
  - left. exact Hold.
  - right. destruct (H c _ Hc Hl) as [Hc' Hl'].
    exists c, elems, ps. auto.
Qed.

Lemma items_rel_change (g : nat) (st0 st st' : Heap.store)
      (P P' : Heap.addr -> Prop)
      (l : list (string * Heap.hvalue)) (pl : list (string * pyvalue)) :
  (forall c o, P c -> Heap.lookup st c = Some o ->
               P' c /\ Heap.lookup st' c = Some o) ->
  Forall2 (item_rel g st0 st P) l pl -> Forall2 (item_rel g st0 st' P') l pl.
Proof.
  intros H Hl. eapply Forall2_impl; [|exact Hl].
  intros kv pkv [Hk Hv]. split; [exact Hk|].
  eapply val_rel_change; eassumption.
Qed.

Lemma val_rel_mono (g : nat) (st0 st : Heap.store) (P : Heap.addr -> Prop)
      (h : Heap.hvalue) (p : pyvalue) :
  val_rel g st0 st P h p -> val_rel (S g) st0 st P h p.
Proof.
  intros [Hold|(c & elems & ps & -> & Hc & Hl & Hall & ->)].
  - left. now apply reify_mono.
  - right. exists c, elems, ps. repeat split; auto.
    eapply Forall2_impl; [|exact Hall]. intros; now apply reify_mono.
Qed.

Lemma as_list_extends (st0 st : Heap.store) (h : Heap.hvalue)
      (l : list Heap.hvalue) :
  Heap.extends st0 st ->
  Heap.as_list st0 h = Some l -> Heap.as_list st h = Some l.
Proof.
  intros [_ Hsame] H. destruct h; try discriminate. unfold Heap.as_list in *.
  destruct (Heap.lookup st0 a) as [o|] eqn:Ea; [|discriminate].
  assert (Ha : a < List.length st0).
  { apply nth_error_Some. unfold Heap.lookup in Ea. congruence. }
  now rewrite (Hsame a Ha), Ea.
Qed.

Lemma lookup_lt (st : Heap.store) (a : Heap.addr) (o : Heap.object) :
  Heap.lookup st a = Some o -> a < List.length st.
Proof. intros H. apply nth_error_Some. unfold Heap.lookup in H. congruence. Qed.

(** What [keeps] gives for the stores of a run. *)
Lemma keeps_extends {A : Type} (m : Heap.M A) (st0 st : Heap.store) :
  Heap.keeps (List.length st0) m -> Heap.extends st0 st ->
  Heap.extends st0 (snd (m st)).
Proof.
  intros Hk [Hlen Hsame]. destruct (Hk st Hlen) as [Hlen' Hsame'].
  split; [exact Hlen'|]. intros a Ha. rewrite Hsame' by exact Ha. now apply Hsame.
Qed.

Lemma keeps_lookup {A : Type} (m : Heap.M A) (st : Heap.store)
      (c : Heap.addr) (o : Heap.object) :
  Heap.keeps (List.length st) m -> Heap.lookup st c = Some o ->
  Heap.lookup (snd (m st)) c = Some o.
Proof.
  intros Hk H. destruct (Hk st (le_n _)) as [_ Hsame].
  rewrite Hsame; [exact H|]. eapply lookup_lt; eassumption.
Qed.

Lemma keeps_length {A : Type} (m : Heap.M A) (st : Heap.store) :
  Heap.keeps (List.length st) m ->
  List.length st <= List.length (snd (m st)).
Proof. intros Hk. exact (proj1 (Hk st (le_n _))). Qed.

Section Simulation.

Variable g : nat.
Variable st0 : Heap.store.
Variable hflatten : Heap.hvalue -> string -> string -> Heap.M Heap.hvalue.
Hypothesis hflatten_keeps : forall n v p s, Heap.keeps n (hflatten v p s).
Hypothesis hflatten_sim :
  forall st v pv p s,
    Heap.reify g st0 v = Some pv -> is_dict pv = true ->
    Heap.extends st0 st ->
    sim (flat_rel g st0 (List.length st)) (hflatten v p s st)
        (flatten_dict pv p s).

(** The loops over [enumerate(value)]: same indices to remove, related
    lists [flattened]. *)
Lemma enum_loop_sim (new_key separator : string) (P : Heap.addr -> Prop)
      (elems : list Heap.hvalue) (pelems : list pyvalue) :
  Forall2 (fun e pe => Heap.reify g st0 e = Some pe) elems pelems ->
  forall index st flattened pflattened to_remove,
    Heap.extends st0 st ->
    (forall c, List.length st <= c -> P c) ->
    Forall2 (item_rel g st0 st P) flattened pflattened ->
    sim (fun st' r pr =>
           snd r = snd pr /\ Forall2 (item_rel g st0 st' P) (fst r) (fst pr))
        (Heap.enum_loop hflatten new_key separator elems index flattened
                        to_remove st)
        (enum_loop flatten_dict new_key separator pelems index pflattened
                   to_remove).
Proof.
  induction 1 as [|e pe elems pelems He Hrest IH];
    intros index st flattened pflattened to_remove Hext HP Hflat.
  - simpl. exists (flattened, to_remove), st. auto.
  - cbn [Heap.enum_loop enum_loop].
    rewrite (reify_is_dict g st e pe (reify_extends _ _ _ _ _ Hext He)).
    destruct pe as [| | | | |d0]; cbn [is_dict];
      try (apply IH; assumption).
    pose proof (hflatten_sim st e (VDict d0) new_key separator He eq_refl Hext)
      as Hsim.
    pose proof (keeps_extends _ st0 st
                  (hflatten_keeps _ e new_key separator) Hext) as Hext1.
    pose proof (fun c o => keeps_lookup (hflatten e new_key separator) st c o
                  (hflatten_keeps _ e new_key separator)) as Hkeep.
    pose proof (keeps_length (hflatten e new_key separator) st
                  (hflatten_keeps _ e new_key separator)) as Hlen.
    unfold Heap.mbind at 1.
    destruct (flatten_dict (VDict d0) new_key separator) as [d|ex|];
      cbn [sim bind] in *.
    + destruct Hsim as (h & st1 & Hrun & a & items & -> & Ha & Hitems).
      rewrite Hrun in *. cbn [snd] in *.
      unfold Heap.mbind, Heap.items_of. rewrite Ha.
      apply IH.
      * exact Hext1.
      * intros c Hc. apply HP. lia.
      * apply Forall2_app.
        -- eapply items_rel_change; [|exact Hflat].
           intros c o Hc Ho. split; [exact Hc|]. now apply Hkeep.
        -- eapply items_rel_change; [|exact Hitems].
           intros c o Hc Ho. split; [apply HP; exact Hc|exact Ho].
    + destruct Hsim as (st1 & Hrun). rewrite Hrun. exists st1. reflexivity.
    + destruct Hsim as (st1 & Hrun). rewrite Hrun. exists st1. reflexivity.
Qed.

(** The loops over the items.  For a list value the copy is allocated at
    the end of the store, the calls of the loop over its elements leave it
    as it is, and the deletions change it alone. *)
Lemma items_loop_sim (parent_key separator : string)
      (P : Heap.addr -> Prop)
      (items : list (string * Heap.hvalue))
      (pitems : list (string * pyvalue)) :
  Forall2 (fun kv pkv => fst kv = fst pkv
                         /\ Heap.reify g st0 (snd kv) = Some (snd pkv))
          items pitems ->
  forall st flattened pflattened,
    Heap.extends st0 st ->
    (forall c, List.length st <= c -> P c) ->
    Forall2 (item_rel g st0 st P) flattened pflattened ->
    sim (fun st' f pf => Forall2 (item_rel g st0 st' P) f pf)
        (Heap.items_loop hflatten parent_key separator items flattened st)
        (items_loop flatten_dict parent_key separator pitems pflattened).
Proof.
  induction 1 as [|[key value] [pkey pvalue] items pitems [Hk Hv] Hrest IH];
    intros st flattened pflattened Hext HP Hflat.
  - simpl. exists flattened, st. auto.
  - cbn [fst snd] in Hk, Hv. subst pkey.
    cbn [Heap.items_loop items_loop].
    rewrite (reify_is_dict g st value pvalue
               (reify_extends _ _ _ _ _ Hext Hv)).
    assert (Hscalar :
              (forall st', Heap.as_list st' value = None) ->
              sim (fun st' f pf => Forall2 (item_rel g st0 st' P) f pf)
                  (match Heap.as_list st value with
                   | Some elems =>
                       let (copy, st1) := Heap.alloc (Heap.OList elems) st in
                       Heap.mbind
                         (Heap.enum_loop hflatten
                            (new_key_of parent_key separator key) separator
                            elems 0 flattened [])
                         (fun r =>
                            Heap.mbind (Heap.del_loop copy (snd r))
                              (fun _ =>
                                 Heap.items_loop hflatten parent_key separator
                                   items
                                   (fst r ++
                                    [(new_key_of parent_key separator key,
                                      Heap.HRef copy)]))) st1
                   | None =>
                       Heap.items_loop hflatten parent_key separator items
                         (flattened ++
                          [(new_key_of parent_key separator key, value)]) st
                   end)
                  (items_loop flatten_dict parent_key separator pitems
                     (pflattened ++
                      [(new_key_of parent_key separator key, pvalue)]))).
    { intros Hnone. rewrite Hnone. apply IH; [exact Hext|exact HP|].
      apply Forall2_app; [exact Hflat|].
      constructor; [|constructor]. split; [reflexivity|]. left. exact Hv. }
    destruct pvalue as [| | | |ps|d0]; cbn [is_dict];
      try (apply Hscalar; exact (proj1 (reify_scalar _ _ _ _ Hv))).
    + (* a list *)
      clear Hscalar.
      destruct (reify_list _ _ _ _ Hv) as (g' & elems & Hg & Hl & Helems).
      rewrite (as_list_extends _ _ _ _ Hext Hl).
      assert (Helems' : Forall2 (fun e pe => Heap.reify g st0 e = Some pe)
                                elems ps).
      { rewrite Hg. eapply Forall2_impl; [|exact Helems].
        intros; now apply reify_mono. }
      unfold Heap.alloc.
      set (copy := List.length st).
      set (st1 := (st ++ [Heap.OList elems])%list).
      set (nk := new_key_of parent_key separator key).
      assert (Hlen1 : List.length st1 = S copy).
      { unfold st1, copy. rewrite length_app. simpl. lia. }
      assert (Hst1 : forall c o, Heap.lookup st c = Some o ->
                                 Heap.lookup st1 c = Some o).
      { intros c o Ho. unfold st1, Heap.lookup.
        rewrite nth_error_app1; [exact Ho|]. eapply lookup_lt; exact Ho. }
      assert (Hext1 : Heap.extends st0 st1).
      { destruct Hext as [Hl0 Hs0]. split; [lia|].
        intros a Ha. rewrite <- (Hs0 a Ha).
        unfold st1, Heap.lookup. apply nth_error_app1. lia. }
      assert (Hcopy1 : Heap.lookup st1 copy = Some (Heap.OList elems)).
      { unfold st1, copy, Heap.lookup.
        rewrite nth_error_app2 by lia. now rewrite Nat.sub_diag. }
      pose proof (enum_loop_sim nk separator (fun c => P c /\ c <> copy)
                    elems ps Helems' 0 st1 flattened pflattened []
                    Hext1) as Hsim.
      pose proof (keeps_enum_loop hflatten hflatten_keeps (List.length st1)
                    nk separator elems 0 flattened []) as Hk1.
      pose proof (keeps_enum_loop hflatten hflatten_keeps (List.length st0)
                    nk separator elems 0 flattened []) as Hk0.
      pose proof (keeps_extends _ st0 st1 Hk0 Hext1) as Hext2.
      pose proof (keeps_lookup _ st1 copy _ Hk1 Hcopy1) as Hcopy2.
      pose proof (keeps_length _ st1 Hk1) as Hlen2.
      unfold Heap.mbind at 1.
      destruct (enum_loop flatten_dict nk separator ps 0 pflattened [])
        as [pr|ex|]; cbn [sim bind] in *.
      * destruct Hsim as (r & st2 & Hrun & Hrem & Hflat2).
        { intros c Hc. split; [apply HP; lia|lia]. }
        { eapply items_rel_change; [|exact Hflat].
          intros c o Hc Ho. split; [|now apply Hst1].
          split; [exact Hc|]. apply lookup_lt in Ho. unfold copy. lia. }
        rewrite Hrun in *. cbn [snd] in *.
        pose proof (del_loop_spec copy (snd r) st2 elems Hcopy2) as Hdel.
        pose proof (del_each_Forall2
                      (fun e pe => Heap.reify g st0 e = Some pe)
                      (snd r) elems ps Helems') as Hdel'.
        rewrite Hrem in *.
        unfold Heap.mbind at 1.
        destruct (del_each (snd pr) ps) as [ps'|ex|]; cbn [bind].
        -- destruct Hdel' as (elems' & Hd & Helems2). rewrite Hd in Hdel.
           destruct Hdel as (st3 & Hrun3 & Hcopy3 & Hlen3 & Hother).
           rewrite Hrun3. apply IH.
           ++ destruct Hext2 as [Hl2 Hs2]. split; [lia|].
              intros a Ha. rewrite <- (Hs2 a Ha). apply Hother.
              destruct Hext as [Hl0 _]. unfold copy. lia.
           ++ intros c Hc. apply HP. lia.
           ++ apply Forall2_app.
              ** eapply items_rel_change; [|exact Hflat2].
                 intros c o [Hc Hne] Ho. split; [exact Hc|].
                 now rewrite (Hother c Hne).
              ** constructor; [|constructor]. split; [reflexivity|].
                 right. exists copy, elems', ps'.
                 repeat split; auto; try (apply HP; unfold copy; lia).
        -- rewrite Hdel' in Hdel. destruct Hdel as (st3 & Hrun3).
           rewrite Hrun3. exists st3. reflexivity.
        -- rewrite Hdel' in Hdel. destruct Hdel as (st3 & Hrun3).
           rewrite Hrun3. exists st3. reflexivity.
      * destruct Hsim as (st2 & Hrun).
        { intros c Hc. split; [apply HP; lia|lia]. }
        { eapply items_rel_change; [|exact Hflat].
          intros c o Hc Ho. split; [|now apply Hst1].
          split; [exact Hc|]. apply lookup_lt in Ho. unfold copy. lia. }
        rewrite Hrun. exists st2. reflexivity.
      * destruct Hsim as (st2 & Hrun).
        { intros c Hc. split; [apply HP; lia|lia]. }
        { eapply items_rel_change; [|exact Hflat].
          intros c o Hc Ho. split; [|now apply Hst1].
          split; [exact Hc|]. apply lookup_lt in Ho. unfold copy. lia. }
        rewrite Hrun. exists st2. reflexivity.
    + (* a dict *)
      clear Hscalar.
      pose proof (hflatten_sim st value (VDict d0)
                    (new_key_of parent_key separator key) separator
                    Hv eq_refl Hext) as Hsim.
      pose proof (keeps_extends _ st0 st
                    (hflatten_keeps _ value
                       (new_key_of parent_key separator key) separator) Hext)
        as Hext1.
      pose proof (fun c o =>
                    keeps_lookup
                      (hflatten value (new_key_of parent_key separator key)
                                separator) st c o
                      (hflatten_keeps _ value _ separator)) as Hkeep.
      pose proof (keeps_length
                    (hflatten value (new_key_of parent_key separator key)
                              separator) st
                    (hflatten_keeps _ value _ separator)) as Hlen.
      unfold Heap.mbind at 1.
      destruct (flatten_dict (VDict d0)
                  (new_key_of parent_key separator key) separator)
        as [d|ex|]; cbn [sim bind] in *.
      * destruct Hsim as (h & st1 & Hrun & a & sub & -> & Ha & Hsub).
        rewrite Hrun in *. cbn [snd] in *.
        unfold Heap.mbind, Heap.items_of. rewrite Ha.
        apply IH.
        -- exact Hext1.
        -- intros c Hc. apply HP. lia.
        -- apply Forall2_app.
           ++ eapply items_rel_change; [|exact Hflat].
              intros c o Hc Ho. split; [exact Hc|]. now apply Hkeep.
           ++ eapply items_rel_change; [|exact Hsub].
              intros c o Hc Ho. split; [apply HP; exact Hc|exact Ho].
      * destruct Hsim as (st1 & Hrun). rewrite Hrun. exists st1. reflexivity.
      * destruct Hsim as (st1 & Hrun). rewrite Hrun. exists st1. reflexivity.
Qed.

End Simulation.

Lemma items_of_not_dict (g : nat) (st0 st : Heap.store) (v : Heap.hvalue)
      (pv : pyvalue) :
  Heap.reify g st0 v = Some pv -> Heap.extends st0 st -> is_dict pv = false ->
  Heap.items_of v st = (Raise AttributeError, st).
Proof.
  intros H Hext Hd.
  pose proof (reify_is_dict _ _ _ _ (reify_extends _ _ _ _ _ Hext H)) as E.
  rewrite Hd in E. unfold Heap.items_of, Heap.is_dict in *.
  destruct v; try reflexivity.
  destruct (Heap.lookup st a) as [[l|items]|]; try reflexivity. discriminate.
Qed.

(** The call on the store does what the call on the value does: it returns
    a dict whose items stand for the items returned on the value, old values
    or copies made since the call began, or raises the same exception. *)
Lemma flatten_dict_sim (g : nat) (st0 : Heap.store) :
  forall (depth : nat) (st : Heap.store) (v : Heap.hvalue) (pv : pyvalue)
         (parent_key separator : string),
    Heap.reify g st0 v = Some pv -> Heap.extends st0 st ->
    g <= depth -> 1 <= depth ->
    sim (flat_rel g st0 (List.length st))
        (Heap.flatten_dict depth v parent_key separator st)
        (flatten_dict pv parent_key separator).
Proof.
  induction g as [|g IH];
    intros depth st v pv parent_key separator Hv Hext Hg Hd;
    (destruct depth as [|depth]; [lia|]).
  - destruct v; try discriminate; inversion Hv; subst;
      exists st; reflexivity.
  - cbn [Heap.flatten_dict]. unfold Heap.flatten_body.
    unfold Heap.mbind at 1.
    destruct pv as [| | | | |pitems];
      try (rewrite (items_of_not_dict _ _ _ _ _ Hv Hext eq_refl);
           exists st; reflexivity).
    destruct (reify_dict _ _ _ _ Hv) as (g' & a & items & Hg' & -> & Ha & Hitems).
    inversion Hg'; subst g'. clear Hg'.
    assert (Ha' : Heap.lookup st a = Some (Heap.ODict items)).
    { destruct Hext as [_ Hs]. rewrite Hs; [exact Ha|].
      eapply lookup_lt; exact Ha. }
    unfold Heap.items_of. rewrite Ha'.
    cbn [flatten_dict].
    pose proof (items_loop_sim g st0 (Heap.flatten_dict depth)
                  (fun n v p s => keeps_flatten_dict depth n v p s)) as Hloop.
    specialize (Hloop
      (fun st v pv p s Hv Hdict Hext =>
         IH depth st v pv p s Hv Hext ltac:(lia)
            ltac:(destruct pv; try discriminate;
                  destruct (reify_dict _ _ _ _ Hv) as (? & ? & ? & ? & _);
                  lia))).
    specialize (Hloop parent_key separator (fun c => List.length st <= c)
                      items pitems Hitems st [] [] Hext (fun c Hc => Hc)
                      (Forall2_nil _)).
    pose proof (keeps_items_loop (Heap.flatten_dict depth)
                  (fun n v p s => keeps_flatten_dict depth n v p s)
                  (List.length st) parent_key separator items []) as Hk.
    pose proof (keeps_length _ st Hk) as Hlen.
    unfold Heap.mbind.
    destruct (items_loop flatten_dict parent_key separator pitems [])
      as [pf|ex|]; cbn [sim bind] in *.
    + destruct Hloop as (f & st' & Hrun & Hf). rewrite Hrun in *.
      cbn [snd] in *. unfold Heap.alloc.
      eexists; eexists. split; [reflexivity|].
      exists (List.length st'), (py_dict f). split; [reflexivity|]. split.
      * unfold Heap.lookup. rewrite nth_error_app2 by lia.
        now rewrite Nat.sub_diag.
      * apply (py_dict_Forall2
                 (val_rel (S g) st0 (st' ++ [Heap.ODict (py_dict f)])%list
                          (fun c => List.length st <= c))).
        eapply Forall2_impl; [|exact Hf].
        intros kv pkv [Hk' Hval]. split; [exact Hk'|].
        apply val_rel_mono. eapply val_rel_change; [|exact Hval].
        intros c o Hc Ho. split; [exact Hc|].
        unfold Heap.lookup. rewrite nth_error_app1; [exact Ho|].
        eapply lookup_lt; exact Ho.
    + destruct Hloop as (st' & Hrun). rewrite Hrun. exists st'. reflexivity.
    + destruct Hloop as (st' & Hrun). rewrite Hrun. exists st'. reflexivity.
Qed.

Lemma extends_refl (st : Heap.store) : Heap.extends st st.
Proof. split; auto. Qed.

(** A record read from the store and flattened there gives, read back from
    the store, what flattening the record gives -- or raises what it
    raises -- as soon as the depth allowed covers the nesting of the
    record. *)
Theorem flatten_dict_on_store (g depth : nat) (st : Heap.store)
        (v : Heap.hvalue) (pv : pyvalue) (parent_key separator : string) :
  Heap.reify g st v = Some pv -> g <= depth -> 1 <= depth ->
  match flatten_dict pv parent_key separator with
  | Ok d =>
      exists a st',
        Heap.flatten_dict depth v parent_key separator st
        = (Ok (Heap.HRef a), st')
        /\ Heap.reify (S (S g)) st' (Heap.HRef a) = Some (VDict d)
  | Raise e =>
      exists st',
        Heap.flatten_dict depth v parent_key separator st = (Raise e, st')
  | Unmodelled =>
      exists st',
        Heap.flatten_dict depth v parent_key separator st = (Unmodelled, st')
  end.
Proof.
  intros Hv Hg Hd.
  pose proof (flatten_dict_sim g st depth st v pv parent_key separator
                Hv (extends_refl st) Hg Hd) as Hsim.
  pose proof (keeps_extends _ st st
                (keeps_flatten_dict depth _ v parent_key separator)
                (extends_refl st)) as Hext.
  destruct (flatten_dict pv parent_key separator) as [d|e|]; cbn [sim] in Hsim;
    [|exact Hsim|exact Hsim].
  destruct Hsim as (h & st' & Hrun & a & items & -> & Ha & Hitems).
  exists a, st'. split; [exact Hrun|].
  rewrite Hrun in Hext. cbn [snd] in Hext.
  rewrite reify_ref, Ha.
  assert (E : Heap.option_all
                (fun kv => option_map (pair (fst kv))
                                      (Heap.reify (S g) st' (snd kv)))
                items = Some d).
  { apply option_all_Forall2. eapply Forall2_impl; [|exact Hitems].
    intros [k h] [pk p] [Hk Hval]. cbn [fst snd] in *. subst pk.
    assert (Hr : Heap.reify (S g) st' h = Some p).
    { destruct Hval as [Hold|(c & elems & ps & -> & _ & Hl & Hall & ->)].
      - apply reify_mono. eapply reify_extends; eassumption.
      - rewrite reify_ref, Hl.
        assert (E : Heap.option_all (Heap.reify g st') elems = Some ps).
        { apply option_all_Forall2. eapply Forall2_impl; [|exact Hall].
          intros e pe He. eapply reify_extends; eassumption. }
        now rewrite E. }
    now rewrite Hr. }
  now rewrite E.
Qed.

(** The record [{"a": [1, {"b": 2}]}], read from its store and flattened
    there. *)
Example flatten_dict_on_example_store :
  Heap.reify 3 example_store (Heap.HRef 2)
  = Some (VDict [("a", VList [VInt 1; VDict [("b", VInt 2)]])])
  /\ exists a st',
       Heap.flatten_dict 3 (Heap.HRef 2) "" "." example_store
       = (Ok (Heap.HRef a), st')
       /\ Heap.reify 5 st' (Heap.HRef a)
          = Some (VDict [("a.b", VInt 2); ("a", VList [VInt 1])]).
Proof.
  split; [reflexivity|].
  apply (flatten_dict_on_store 3 3 example_store (Heap.HRef 2)
           (VDict [("a", VList [VInt 1; VDict [("b", VInt 2)]])]) "" ".");
    [reflexivity|lia|lia].
Qed.

(** * Further properties *)

(** ** The filters *)

(** The tokens of the table stand for the kinds of their test texts. *)
Lemma tests_row_kinds (tok tmpl : string) :
  In (tok, tmpl) tests -> kind_of_token tok = kind_of_template tmpl
                          /\ kind_of_token tok <> None.
Proof.
  simpl. intros H.
  repeat (destruct H as [H|H];
          [inversion H; subst; split; [reflexivity|discriminate]|]).
  contradiction.
Qed.

(** X1: for every row of the operator table of [classify_filter], the
    test text of the row, filled in by an evaluator with a value and a needle
    whose texts are made of printable ASCII characters other than the quote
    and the backslash ([literal]), evaluates to what the token of the row
    stands for: containment for "<", equality for "=", prefix for "{",
    suffix for "}", and the negations for the tokens with "!". *)
Theorem operator_evaluates_as_its_kind (hay : pyvalue) (key n tok tmpl : string)
        (kind : test_kind) :
  In (tok, tmpl) tests ->
  kind_of_token tok = Some kind ->
  literal (py_str hay) = true -> literal n = true ->
  eval_test hay (CTest (mkFilterTest key n tmpl))
  = Ok (kind_holds kind (py_str hay) n).
Proof.
  intros Hrow Hkind Hh Hn.
  destruct (tests_row_kinds tok tmpl Hrow) as [E _].
  rewrite E in Hkind.
  eapply eval_test_literal; eassumption.
Qed.

Lemma operator_evaluates_as_its_kind_witness :
  In ("{", "'{haystack}'.startswith('{needle}')") tests
  /\ kind_of_token "{" = Some StartsWith
  /\ literal (py_str (VStr "banana")) = true
  /\ literal "b" = true
  /\ eval_test (VStr "banana")
       (CTest (mkFilterTest "" "b" "'{haystack}'.startswith('{needle}')"))
     = Ok (kind_holds StartsWith (py_str (VStr "banana")) "b").
Proof.
  split; [simpl; tauto|]. split; [reflexivity|].
  split; [reflexivity|]. split; [reflexivity|].
  apply (operator_evaluates_as_its_kind (VStr "banana") "" "b" "{"
           "'{haystack}'.startswith('{needle}')" StartsWith);
    [simpl; tauto|reflexivity|reflexivity|reflexivity].
Defined.

(** What a comprehension returns, element by element. *)
Lemma comprehension_Forall2 {A B : Type} (f : A -> outcome B) (xs : list A)
      (ys : list B) :
  comprehension f xs = Ok ys -> Forall2 (fun x y => f x = Ok y) xs ys.
Proof.
  revert ys; induction xs as [|x xs IH]; intros ys H; simpl in H.
  - inversion H. constructor.
  - destruct (f x) as [y| |] eqn:E; simpl in H; try discriminate.
    destruct (comprehension f xs) as [ys'| |]; simpl in H; try discriminate.
    inversion H; subst. constructor; auto.
Qed.

(** What the loop over the table can return. *)
Lemma classify_scan_shape (tbl : list (string * string)) (fs : string)
      (c : classified) :
  classify_scan tbl fs = Ok c ->
  c = CNone \/ exists ft tok, c = CTest ft /\ In (tok, test ft) tbl.
Proof.
  induction tbl as [|[cond tst] tbl IH]; simpl; intros H.
  - inversion H. left. reflexivity.
  - destruct (py_in cond fs).
    + destruct (py_split cond fs) as [|k [|v [|w l]]]; try discriminate.
      inversion H. right. exists (mkFilterTest k v tst), cond.
      split; [reflexivity|left; reflexivity].
    + destruct (IH H) as [->|(ft & tok & -> & Hin)]; [left; reflexivity|].
      right. exists ft, tok. split; [reflexivity|right; exact Hin].
Qed.

(** What [classify_filter] can return: [None], a predicate of the table, or
    a non-empty list of these. *)
Lemma classify_filter_shape (fs : string) (c : classified) :
  classify_filter fs = Ok c ->
  as_list c <> []
  /\ Forall (fun r => r = CNone
                      \/ exists ft tok, r = CTest ft /\ In (tok, test ft) tests)
            (as_list c).
Proof.
  intros H. destruct (py_in "," fs) eqn:Hcomma.
  - rewrite classify_filter_commas in H by assumption.
    destruct (comprehension (classify_scan tests) (py_split "," fs))
      as [l| |] eqn:E; simpl in H; try discriminate.
    inversion H; subst c. cbn [as_list].
    apply comprehension_Forall2 in E. split.
    + pose proof (split_from_nonempty (S (String.length fs)) "," "" fs) as Hne.
      fold (py_split "," fs) in Hne.
      destruct E; [congruence|discriminate].
    + clear H. induction E as [|clause r clauses l Hr _ IH]; constructor.
      * eapply classify_scan_shape; exact Hr.
      * exact IH.
  - rewrite classify_filter_clause in H by assumption.
    destruct (classify_scan_shape _ _ _ H) as [->|(ft & tok & -> & Hin)];
      cbn [as_list]; (split; [discriminate|]).
    + constructor; [left; reflexivity|constructor].
    + constructor; [|constructor]. right. exists ft, tok. auto.
Qed.

(** The predicates of a parsed filter: there is one at least, and the test
    text of each is a row of the table. *)
Lemma parsed_preds (fs : string) (c : classified) (preds : list FilterTest) :
  classify_filter fs = Ok c -> as_list c = map CTest preds ->
  preds <> []
  /\ Forall (fun ft => exists tok, In (tok, test ft) tests) preds.
Proof.
  intros Hc Hl. destruct (classify_filter_shape fs c Hc) as [Hne Hall].
  rewrite Hl in Hne, Hall. split.
  - destruct preds; [intros _; apply Hne; reflexivity|discriminate].
  - clear Hne Hl. induction preds as [|ft preds IH]; constructor.
    + inversion Hall as [|r l Hr _]; subst.
      destruct Hr as [Hr|(ft' & tok & Hr & Hin)]; [discriminate|].
      inversion Hr; subst. exists tok. exact Hin.
    + apply IH. inversion Hall; assumption.
Qed.

(** [eval_list and all(eval_list)] on a list that is not empty. *)
Lemma accepts_map {A : Type} (f : A -> bool) (l : list A) :
  l <> [] -> accepts (map f l) = forallb f l.
Proof.
  destruct l as [|x l]; [congruence|]. intros _. simpl. f_equal.
  induction l as [|y l IH]; simpl; [reflexivity|]. now rewrite IH.
Qed.

(** Predicates of the table with plain needles. *)
Lemma plain_preds (preds : list FilterTest) :
  Forall (fun ft => exists tok, In (tok, test ft) tests) preds ->
  Forall (fun ft => literal (needle ft) = true) preds ->
  Forall plain_pred preds.
Proof.
  intros H1 H2. induction H1 as [|ft preds Hft _ IH]; constructor.
  - inversion H2; subst. split; assumption.
  - apply IH. inversion H2; assumption.
Qed.

(** X2: for a filter that [classify_filter] parses into predicates,
    with needles and values whose texts are made of printable ASCII
    characters other than the quote and the backslash ([literal]),
    [results_filter] returns the values of which every predicate holds, in
    the order of the input. *)
Theorem results_filter_on_plain_values (fs : string) (c : classified)
        (preds : list FilterTest) (results : list pyvalue) :
  classify_filter fs = Ok c ->
  as_list c = map CTest preds ->
  Forall (fun ft => literal (needle ft) = true) preds ->
  Forall (fun v => literal (py_str v) = true) results ->
  results_filter results fs
  = Ok (filter (fun v => forallb (fun ft => pred_holds ft v) preds) results).
Proof.
  intros Hc Hl Hn Hr.
  destruct (parsed_preds fs c preds Hc Hl) as [Hne Htests].
  unfold results_filter. rewrite Hc. cbn [bind]. rewrite Hl.
  rewrite results_loop_literal by (try assumption; now apply plain_preds).
  cbn [app]. f_equal. apply filter_ext. intros v. now apply accepts_map.
Qed.

Lemma results_filter_on_plain_values_witness :
  classify_filter "{b,}na"
  = Ok (CList [CTest (mkFilterTest "" "b" "'{haystack}'.startswith('{needle}')");
               CTest (mkFilterTest "" "na" "'{haystack}'.endswith('{needle}')")])
  /\ results_filter [VStr "apple"; VStr "banana"; VStr "bean"] "{b,}na"
     = Ok [VStr "banana"].
Proof.
  split; [reflexivity|].
  apply (results_filter_on_plain_values "{b,}na"
           (CList [CTest (mkFilterTest "" "b"
                            "'{haystack}'.startswith('{needle}')");
                   CTest (mkFilterTest "" "na"
                            "'{haystack}'.endswith('{needle}')")])
           [mkFilterTest "" "b" "'{haystack}'.startswith('{needle}')";
            mkFilterTest "" "na" "'{haystack}'.endswith('{needle}')"]
           [VStr "apple"; VStr "banana"; VStr "bean"]);
    [reflexivity|reflexivity| |]; repeat constructor.
Defined.

(** X3: for a filter that [classify_filter] parses into predicates
    with plain needles, and records that flatten to plain values (plain: a
    text of printable ASCII characters other than the quote and the
    backslash), [inventory_filter] returns the records that have a key of
    some predicate and pass every predicate whose key they have, in the
    order of the input. *)
Theorem inventory_filter_on_plain_records (fs : string) (c : classified)
        (preds : list FilterTest) (inventory : list pyvalue) :
  classify_filter fs = Ok c ->
  as_list c = map CTest preds ->
  Forall (fun ft => literal (needle ft) = true) preds ->
  Forall plain_record inventory ->
  inventory_filter inventory fs
  = Ok (filter (fun host => match flatten_dict host "" "." with
                            | Ok flat => passes preds flat
                            | _ => false
                            end) inventory).
Proof.
  intros Hc Hl Hn Hinv.
  destruct (parsed_preds fs c preds Hc Hl) as [_ Htests].
  pose proof (plain_preds preds Htests Hn) as Hp.
  assert (Hcol : forall host, plain_record host ->
            exists flat, flatten_dict host "" "." = Ok flat
              /\ collected preds host
                 = Ok (map (fun ft => match dict_get flat (haystack ft) with
                                      | Ok v => pred_holds ft v
                                      | _ => false
                                      end)
                           (filter (fun ft => dict_has flat (haystack ft))
                                   preds))).
  { intros host (flat & Hf & Hlit). exists flat. split; [exact Hf|].
    unfold collected. rewrite Hf. cbn [bind].
    now apply present_results_literal. }
  unfold inventory_filter. rewrite Hc. cbn [bind]. rewrite Hl.
  apply inventory_loop_spec. split.
  - eapply Forall_impl; [|exact Hinv]. intros host Hhost.
    destruct (Hcol host Hhost) as (flat & _ & E). eexists. exact E.
  - cbn [app]. apply filter_ext_in. intros host Hin.
    assert (Hhost : plain_record host).
    { exact (proj1 (Forall_forall _ _) Hinv host Hin). }
    destruct (Hcol host Hhost) as (flat & Hf & E).
    unfold retained. rewrite E, Hf. unfold passes.
    destruct (filter (fun ft => dict_has flat (haystack ft)) preds)
      as [|ft present]; [reflexivity|].
    now rewrite accepts_map by discriminate.
Qed.

Lemma inventory_filter_on_plain_records_witness :
  inventory_filter
    [VDict [("name", VStr "web1"); ("os", VDict [("family", VStr "rhel")])];
     VDict [("name", VStr "db1"); ("os", VDict [("family", VStr "sles")])];
     VDict [("name", VStr "web2")]]
    "name{web,os.family=rhel"
  = Ok [VDict [("name", VStr "web1"); ("os", VDict [("family", VStr "rhel")])];
        VDict [("name", VStr "web2")]].
Proof.
  assert (Hplain : forall d : dict,
             forallb (fun kv => literal (py_str (snd kv))) d = true ->
             forall key v, dict_get d key = Ok v -> literal (py_str v) = true).
  { induction d as [|[k w] d IH]; cbn [forallb dict_get snd];
      intros Hall key v Hv; [discriminate|].
    apply andb_true_iff in Hall. destruct Hall as [Hw Hd].
    destruct (String.eqb k key); [inversion Hv; subst; exact Hw|].
    eapply IH; eassumption. }
  rewrite (inventory_filter_on_plain_records "name{web,os.family=rhel"
           (CList [CTest (mkFilterTest "name" "web"
                            "'{haystack}'.startswith('{needle}')");
                   CTest (mkFilterTest "os.family" "rhel"
                            "'{haystack}' == '{needle}'")])
           [mkFilterTest "name" "web" "'{haystack}'.startswith('{needle}')";
            mkFilterTest "os.family" "rhel" "'{haystack}' == '{needle}'"]);
    [reflexivity|reflexivity|reflexivity|repeat constructor|].
  repeat (constructor;
          [eexists; split; [reflexivity|apply Hplain; reflexivity]|]).
  constructor.
Defined.

(** The loop of [results_filter] returns when the tests of every value
    can be evaluated, and then adds the values it keeps. *)
Lemma results_loop_spec (resolved : list classified)
      (results matching out : list pyvalue) :
  results_loop resolved results matching = Ok out <->
  Forall (fun v => exists bs, comprehension (eval_test v) resolved = Ok bs)
         results
  /\ out = (matching ++ filter (keeps_value resolved) results)%list.
Proof.
  revert matching out; induction results as [|res results IH];
    intros matching out; cbn [results_loop filter].
  - rewrite app_nil_r. split.
    + intros H; inversion H; auto.
    + intros [_ ->]; reflexivity.
  - unfold keeps_value at 1.
    destruct (comprehension (eval_test res) resolved) as [bs| |] eqn:E;
      cbn [bind].
    + rewrite IH.
      assert (Hout : ((if accepts bs then matching ++ [res] else matching)
                        ++ filter (keeps_value resolved) results
                      = matching ++
                        (if accepts bs
                         then res :: filter (keeps_value resolved) results
                         else filter (keeps_value resolved) results))%list).
      { destruct (accepts bs); [|reflexivity]. now rewrite <- app_assoc. }
      rewrite Hout. split.
      * intros [Hall ->]. split; [|reflexivity].
        constructor; [exists bs; exact E|assumption].
      * intros [Hall ->]. inversion Hall; subst. split; [assumption|reflexivity].
    + split; [discriminate|]. intros [Hall _].
      inversion Hall as [|h l [bs Hbs] Hrest]; subst. congruence.
    + split; [discriminate|]. intros [Hall _].
      inversion Hall as [|h l [bs Hbs] Hrest]; subst. congruence.
Qed.

(** X4: for a filter that [classify_filter] parses, [results_filter]
    returns exactly when the tests of every value can be evaluated, and then
    it returns the values it keeps; one value whose test text cannot be
    evaluated makes the call fail for all. *)
Theorem results_filter_all_or_nothing (results : list pyvalue) (fs : string)
        (c : classified) :
  classify_filter fs = Ok c ->
  forall out : list pyvalue,
    results_filter results fs = Ok out <->
    Forall (fun v => exists bs,
                comprehension (eval_test v) (as_list c) = Ok bs) results
    /\ out = filter (keeps_value (as_list c)) results.
Proof.
  intros Hc out. unfold results_filter. rewrite Hc. cbn [bind].
  apply results_loop_spec.
Qed.

Lemma results_filter_all_or_nothing_witness :
  classify_filter "<an" =
  Ok (CTest (mkFilterTest "" "an" "'{needle}' in '{haystack}'"))
  /\ ~ (exists out,
          results_filter [VStr "banana"; VStr "it's"; VStr "crane"] "<an"
          = Ok out).
Proof.
  split; [reflexivity|].
  intros [out H].
  apply (proj1 (results_filter_all_or_nothing
                  [VStr "banana"; VStr "it's"; VStr "crane"] "<an"
                  (CTest (mkFilterTest "" "an" "'{needle}' in '{haystack}'"))
                  eq_refl out)) in H.
  destruct H as [H _].
  inversion H as [|x l _ H2]; subst.
  inversion H2 as [|x l [bs Hbs] _]; subst.
  vm_compute in Hbs. discriminate.
Defined.

Lemma filters_without_token_never_return_witness :
  first_match tests "web,rhel" = None
  /\ results_filter [VStr "web1"] "web,rhel" = Raise AttributeError.
Proof.
  split; [reflexivity|].
  apply (proj1 (filters_without_token_never_return "web,rhel" (VStr "web1") []
                  eq_refl)).
Defined.

(** [s.split(sep)] has one piece more than [sep] has occurrences, for a
    separator that cannot overlap itself. *)
Lemma split_from_count (fuel : nat) (sep cur s : string) :
  token_shape sep -> String.length s < fuel ->
  List.length (split_from fuel sep cur s) = 1 + occurrences sep s.
Proof.
  intros Hshape. revert cur s.
  induction fuel as [|fuel IH]; intros cur s Hlen; [lia|].
  cbn [split_from]. destruct (strip_prefix sep s) as [rest|] eqn:E.
  - pose proof (strip_prefix_Some _ _ _ E) as Hs.
    cbn [List.length].
    destruct Hshape as [(a & ->)|(a & b & Hab & ->)]; subst s.
    + rewrite IH by (simpl in Hlen; lia).
      simpl. unfold startswith. simpl. rewrite Ascii.eqb_refl. reflexivity.
    + rewrite IH by (simpl in Hlen; lia).
      cbn [append occurrences]. unfold startswith. cbn [strip_prefix].
      rewrite !Ascii.eqb_refl.
      destruct (Ascii.eqb_spec a b) as [Heq|_]; [contradiction|]. reflexivity.
  - destruct s as [|c s]; cbn [occurrences]; unfold startswith; rewrite E.
    + reflexivity.
    + rewrite IH by (simpl in Hlen; lia). reflexivity.
Qed.

(** The tokens of the table have one character, or two different ones. *)
Lemma tests_token_shape (clause tok tmpl : string) :
  first_match tests clause = Some (tok, tmpl) -> token_shape tok.
Proof.
  unfold first_match. intros H. apply find_some in H. destruct H as [H _].
  simpl in H.
  repeat (destruct H as [H|H];
          [inversion H; subst;
           first [left; eexists; reflexivity
                 |right; do 2 eexists; split; [|reflexivity]; discriminate]|]).
  contradiction.
Qed.

(** The loop over the table on one clause: [None], a predicate, or
    [ValueError], the last exactly when the token repeats. *)
Lemma classify_scan_cases (clause : string) :
  (classify_scan tests clause = Raise ValueError /\ repeats_token clause)
  \/ ((exists c, classify_scan tests clause = Ok c) /\ ~ repeats_token clause).
Proof.
  rewrite classify_scan_first_match. unfold repeats_token.
  destruct (first_match tests clause) as [[tok tmpl]|] eqn:Hf.
  - pose proof (split_from_count (S (String.length clause)) tok "" clause
                  (tests_token_shape _ _ _ Hf) (Nat.lt_succ_diag_r _)) as Hlen.
    fold (py_split tok clause) in Hlen.
    assert (Hin : 1 <= occurrences tok clause).
    { apply occurrences_pos_in. unfold first_match in Hf.
      apply find_some in Hf. exact (proj2 Hf). }
    destruct (py_split tok clause) as [|k [|v [|w l]]]; simpl in Hlen;
      try lia.
    + right. split; [eexists; reflexivity|].
      intros (tok' & tmpl' & E & H2). inversion E; subst. lia.
    + left. split; [reflexivity|]. exists tok, tmpl. split; [reflexivity|lia].
  - right. split; [eexists; reflexivity|].
    intros (tok' & tmpl' & E & _). discriminate.
Qed.

(** A comprehension whose elements return or raise [e]: it raises [e]
    when some element does, else it returns. *)
Lemma comprehension_cases {A B : Type} (f : A -> outcome B) (e : exn)
      (bad : A -> Prop) (xs : list A) :
  (forall x, (f x = Raise e /\ bad x) \/ ((exists y, f x = Ok y) /\ ~ bad x)) ->
  (comprehension f xs = Raise e /\ Exists bad xs)
  \/ ((exists ys, comprehension f xs = Ok ys) /\ ~ Exists bad xs).
Proof.
  intros Hf. induction xs as [|x xs IH]; cbn [comprehension].
  - right. split; [eexists; reflexivity|]. intros H; inversion H.
  - destruct (Hf x) as [[Hx Hbad]|[[y Hx] Hgood]]; rewrite Hx; cbn [bind].
    + left. split; [reflexivity|]. left. exact Hbad.
    + destruct IH as [[Hxs Hex]|[[ys Hxs] Hnone]]; rewrite Hxs; cbn [bind].
      * left. split; [reflexivity|]. right. exact Hex.
      * right. split; [eexists; reflexivity|].
        intros H; inversion H; subst; contradiction.
Qed.

(** A string without the separator is split into itself. *)
Lemma split_from_absent (fuel : nat) (sep cur s : string) :
  py_in sep s = false -> String.length s < fuel ->
  split_from fuel sep cur s = [cur ++ s].
Proof.
  revert cur s; induction fuel as [|fuel IH]; intros cur s Hin Hlen; [lia|].
  cbn [split_from]. destruct s as [|c s]; cbn [py_in] in Hin.
  - destruct (strip_prefix sep ""); [discriminate|].
    now rewrite string_app_nil_r.
  - destruct (strip_prefix sep (String c s)); [discriminate|].
    rewrite IH by (try assumption; simpl in Hlen; lia).
    now rewrite string_app_assoc.
Qed.

(** X6: [classify_filter] raises [ValueError] exactly when, in some
    clause between commas, the first token of the table found in the clause
    occurs in it more than once; else it returns. *)
Theorem classify_filter_value_error (fs : string) :
  (classify_filter fs = Raise ValueError
   <-> Exists repeats_token (py_split "," fs))
  /\ ((exists c, classify_filter fs = Ok c)
      <-> ~ Exists repeats_token (py_split "," fs)).
Proof.
  assert (H : (classify_filter fs = Raise ValueError
               /\ Exists repeats_token (py_split "," fs))
              \/ ((exists c, classify_filter fs = Ok c)
                  /\ ~ Exists repeats_token (py_split "," fs))).
  { destruct (py_in "," fs) eqn:Hcomma.
    - rewrite classify_filter_commas by assumption.
      destruct (comprehension_cases (classify_scan tests) ValueError
                  repeats_token (py_split "," fs) classify_scan_cases)
        as [[E Hex]|[[ys E] Hnone]]; rewrite E; cbn [bind].
      + left. auto.
      + right. split; [eexists; reflexivity|exact Hnone].
    - rewrite classify_filter_clause by assumption.
      unfold py_split.
      rewrite split_from_absent by (try assumption; apply Nat.lt_succ_diag_r).
      cbn [append].
      destruct (classify_scan_cases fs) as [[E Hbad]|[[c E] Hgood]].
      + left. split; [exact E|]. left. exact Hbad.
      + right. split; [exists c; exact E|].
        intros Hex. inversion Hex as [x l Hx|x l Hx]; subst;
          [contradiction|inversion Hx]. }
  destruct H as [[E Hex]|[[c E] Hnone]]; split; split; intros H;
    try assumption; try contradiction.
  - destruct H as [c Hc]. congruence.
  - rewrite E in H. discriminate.
  - exists c. exact E.
Qed.

Lemma classify_filter_value_error_witness :
  classify_filter "name=a=b" = Raise ValueError.
Proof.
  apply (proj2 (proj1 (classify_filter_value_error "name=a=b"))).
  left. exists "=", "'{haystack}' == '{needle}'".
  split; [reflexivity|]. vm_compute. lia.
Defined.

(** ** The flattener *)

Lemma existsb_eqb_map_S (i : nat) (qs : list nat) :
  existsb (Nat.eqb (S i)) (map S qs) = existsb (Nat.eqb i) qs.
Proof.
  induction qs as [|q qs IH]; cbn [existsb map]; [reflexivity|].
  rewrite IH. reflexivity.
Qed.

Lemma keep_from_map_S {A : Type} (i : nat) (qs : list nat) (l : list A) :
  keep_from (S i) (map S qs) l = keep_from i qs l.
Proof.
  revert i; induction l as [|x l IH]; intros i; cbn [keep_from];
    [reflexivity|].
  rewrite existsb_eqb_map_S, IH. reflexivity.
Qed.

Lemma keep_from_below {A : Type} (j q : nat) (qs : list nat) (l : list A) :
  q < j -> keep_from j (q :: qs) l = keep_from j qs l.
Proof.
  revert j; induction l as [|x l IH]; intros j Hq; cbn [keep_from existsb];
    [reflexivity|].
  destruct (Nat.eqb_spec j q) as [E|_]; [lia|]. cbn [orb].
  rewrite IH by lia. reflexivity.
Qed.

Lemma existsb_eqb_above (i : nat) (qs : list nat) :
  Forall (fun q => i < q) qs -> existsb (Nat.eqb i) qs = false.
Proof.
  induction 1 as [|q qs Hq _ IH]; cbn [existsb]; [reflexivity|].
  destruct (Nat.eqb_spec i q) as [E|_]; [lia|]. exact IH.
Qed.

(** Deleting index [p] first, then the indices [qs], none below [p]: in
    terms of the list before, [p] and the successors of [qs] go. *)
Lemma keep_from_del {A : Type} (i p : nat) (qs : list nat) (l : list A) :
  Forall (fun q => i + p <= q) qs ->
  keep_from i ((i + p) :: map S qs) l
  = keep_from i qs (firstn p l ++ skipn (S p) l)%list.
Proof.
  revert i p; induction l as [|x l IH]; intros i p Hqs.
  - destruct p; reflexivity.
  - destruct p as [|p].
    + cbn [firstn skipn app keep_from existsb].
      rewrite Nat.add_0_r, Nat.eqb_refl. cbn [orb].
      rewrite keep_from_below by lia. apply keep_from_map_S.
    + cbn [firstn skipn app keep_from existsb].
      destruct (Nat.eqb_spec i (i + S p)) as [E|_]; [lia|]. cbn [orb].
      rewrite (existsb_eqb_above i (map S qs)), (existsb_eqb_above i qs).
      * f_equal. replace (i + S p) with (S i + p) by lia.
        apply IH. eapply Forall_impl; [|exact Hqs]. simpl; intros; lia.
      * eapply Forall_impl; [|exact Hqs]. simpl; intros; lia.
      * apply Forall_map. eapply Forall_impl; [|exact Hqs]. simpl; intros; lia.
Qed.

(** Shifting by one more is the successor of shifting. *)
Lemma shifted_S (ps : list nat) (k : nat) :
  shifted ps (S k) = map S (shifted ps k).
Proof.
  revert k; induction ps as [|p ps IH]; intros k; simpl; [reflexivity|].
  rewrite IH. f_equal. lia.
Qed.

Lemma ascending_from_shifted (lo : nat) (ps : list nat) (k : nat) :
  ascending_from lo ps = true -> Forall (fun q => lo <= q) (shifted ps k).
Proof.
  revert lo k; induction ps as [|p ps IH]; intros lo k H; simpl in *.
  - constructor.
  - apply andb_true_iff in H. destruct H as [Hlo Hps].
    apply Nat.leb_le in Hlo. constructor; [lia|].
    eapply Forall_impl; [|apply (IH (S p) (S k) Hps)]. simpl; intros; lia.
Qed.

(** [for index in to_remove: del value[index]] on ascending indices. *)
Lemma del_each_ascending {A : Type} (ps : list nat) (l : list A) :
  ascending_from 0 ps = true ->
  del_each ps l
  = if forallb (fun q => Nat.ltb q (List.length l)) (shifted ps 0)
    then Ok (keep_from 0 (shifted ps 0) l)
    else Raise IndexError.
Proof.
  assert (G : forall lo, ascending_from lo ps = true ->
              del_each ps l
              = if forallb (fun q => Nat.ltb q (List.length l)) (shifted ps 0)
                then Ok (keep_from 0 (shifted ps 0) l)
                else Raise IndexError); [|apply G].
  revert l; induction ps as [|p ps IH]; intros l lo H.
  - simpl. clear. revert l. assert (G : forall i (l : list A), keep_from i [] l = l).
    { intros i l; revert i; induction l as [|x l IHl]; intros i; simpl;
        [reflexivity|now rewrite IHl]. }
    intros l. now rewrite G.
  - cbn [ascending_from] in H. apply andb_true_iff in H. destruct H as [_ Hps].
    cbn [del_each shifted forallb]. unfold py_del. rewrite Nat.add_0_r.
    destruct (Nat.ltb_spec p (List.length l)) as [Hp|Hp]; cbn [bind andb];
      [|reflexivity].
    rewrite (IH _ (S p) Hps). rewrite shifted_S.
    assert (Hlen : List.length (firstn p l ++ skipn (S p) l)%list
                   = List.length l - 1).
    { rewrite length_app, length_firstn, length_skipn. lia. }
    rewrite Hlen.
    assert (Hall : forallb (fun q => Nat.ltb q (List.length l))
                           (map S (shifted ps 0))
                   = forallb (fun q => Nat.ltb q (List.length l - 1))
                             (shifted ps 0)).
    { clear. generalize (shifted ps 0) as qs.
      induction qs as [|q qs IHq]; cbn [map forallb]; [reflexivity|].
      rewrite IHq. f_equal.
      destruct (Nat.ltb_spec (S q) (List.length l)),
               (Nat.ltb_spec q (List.length l - 1)); try reflexivity; lia. }
    rewrite Hall.
    destruct (forallb _ (shifted ps 0)); [|reflexivity].
    f_equal. symmetry.
    apply (keep_from_del 0 p). 
    eapply Forall_impl; [|apply (ascending_from_shifted (S p) ps 0 Hps)].
    simpl; intros; lia.
Qed.

(** The indices collected are in ascending order. *)
Lemma dict_positions_ascending (elems : list pyvalue) (index : nat) :
  ascending_from index (dict_positions elems index) = true.
Proof.
  assert (G : forall lo, lo <= index ->
                         ascending_from lo (dict_positions elems index) = true);
    [|apply G; lia].
  revert index; induction elems as [|v elems IH]; intros index lo Hlo; simpl;
    [reflexivity|].
  destruct (is_dict v); simpl.
  - apply andb_true_iff; split; [apply Nat.leb_le; lia|apply IH; lia].
  - apply IH; lia.
Qed.

(** The loop over a list value: the records are flattened from left to
    right and their indices collected. *)
Lemma enum_loop_closed (flatten : pyvalue -> string -> string -> outcome dict)
      (new_key separator : string) (elems : list pyvalue) (index : nat)
      (flattened : list (string * pyvalue)) (to_remove : list nat) :
  enum_loop flatten new_key separator elems index flattened to_remove
  = (subs <- comprehension (fun val => flatten val new_key separator)
                           (filter is_dict elems) ;;
     Ok ((flattened ++ concat subs)%list,
         (to_remove ++ dict_positions elems index)%list)).
Proof.
  revert index flattened to_remove.
  induction elems as [|val elems IH]; intros index flattened to_remove.
  - simpl. now rewrite !app_nil_r.
  - destruct val; cbn [enum_loop filter is_dict dict_positions comprehension];
      try apply IH.
    destruct (flatten (VDict items) new_key separator) as [sub| |];
      cbn [bind]; try reflexivity.
    rewrite IH.
    destruct (comprehension _ (filter is_dict elems)) as [subs| |];
      cbn [bind concat]; try reflexivity.
    now rewrite <- !app_assoc.
Qed.

(** The loop over the entries of a record adds what each entry gives, in
    order. *)
Lemma items_loop_closed (parent_key separator : string)
      (items flattened : list (string * pyvalue)) :
  items_loop flatten_dict parent_key separator items flattened
  = (parts <- comprehension (entry_items parent_key separator) items ;;
     Ok (flattened ++ concat parts)%list).
Proof.
  revert flattened; induction items as [|[key value] items IH];
    intros flattened.
  - simpl. now rewrite app_nil_r.
  - cbn [items_loop comprehension]. unfold entry_items at 1. cbn [fst snd].
    destruct value.
    1-4: cbn [bind]; rewrite IH;
      destruct (comprehension _ items); cbn [bind concat]; try reflexivity;
      now rewrite <- app_assoc.
    + rewrite enum_loop_closed.
      destruct (comprehension _ (filter is_dict elems)) as [subs| |];
        cbn [bind]; try reflexivity.
      cbn [fst snd app]. unfold list_after_deletions.
      rewrite (del_each_ascending _ _ (dict_positions_ascending elems 0)).
      destruct (forallb _ _); cbn [bind]; try reflexivity.
      rewrite IH. destruct (comprehension _ items); cbn [bind concat];
        try reflexivity.
      now rewrite <- !app_assoc.
    + destruct (flatten_dict (VDict items0) _ separator) as [sub| |];
        cbn [bind]; try reflexivity.
      rewrite IH. destruct (comprehension _ items); cbn [bind concat];
        try reflexivity.
      now rewrite <- app_assoc.
Qed.

(** The flattening of a record, entry by entry. *)
Lemma flatten_dict_entries (items : list (string * pyvalue))
      (parent_key separator : string) :
  flatten_dict (VDict items) parent_key separator
  = (parts <- comprehension (entry_items parent_key separator) items ;;
     Ok (py_dict (concat parts))).
Proof.
  cbn [flatten_dict]. rewrite items_loop_closed.
  destruct (comprehension _ items); reflexivity.
Qed.

(** X7: [flatten_dict] on a record is the dict of what its entries
    add, one after the other: a record under a key adds its own flattening
    under the new key; a list adds the flattenings of the records in it,
    then the list after the deletions; any other value is added as it is.
    The list after the deletions is what the loop [del value[index]] leaves
    when run over the positions of the records. *)
Theorem flatten_dict_by_entries (items : list (string * pyvalue))
        (parent_key separator : string) :
  flatten_dict (VDict items) parent_key separator
  = (parts <- comprehension (entry_items parent_key separator) items ;;
     Ok (py_dict (concat parts)))
  /\ forall elems,
      list_after_deletions elems = del_each (dict_positions elems 0) elems.
Proof.
  split; [apply flatten_dict_entries|].
  intros elems. unfold list_after_deletions.
  now rewrite (del_each_ascending _ _ (dict_positions_ascending elems 0)).
Qed.

(** Induction on a value, through its lists and records. *)
Lemma pyvalue_nested_ind (P : pyvalue -> Prop) :
  P VNone -> (forall b, P (VBool b)) -> (forall z, P (VInt z)) ->
  (forall s, P (VStr s)) ->
  (forall elems, Forall P elems -> P (VList elems)) ->
  (forall items, Forall (fun kv => P (snd kv)) items -> P (VDict items)) ->
  forall v, P v.
Proof.
  intros HN HB HI HS HL HD.
  fix IH 1. intros [ | b | z | s | elems | items].
  - exact HN.
  - apply HB.
  - apply HI.
  - apply HS.
  - apply HL. induction elems as [|e elems IHe]; constructor;
      [apply IH|exact IHe].
  - apply HD. induction items as [|[k e] items IHe]; constructor;
      [apply IH|exact IHe].
Qed.

(** The same with a test for the elements that raise. *)
Lemma comprehension_cases_in {A B : Type} (f : A -> outcome B) (e : exn)
      (bad : A -> bool) (xs : list A) :
  Forall (fun x => (f x = Raise e /\ bad x = true)
                   \/ ((exists y, f x = Ok y) /\ bad x = false)) xs ->
  (comprehension f xs = Raise e /\ existsb bad xs = true)
  \/ ((exists ys, comprehension f xs = Ok ys) /\ existsb bad xs = false).
Proof.
  induction 1 as [|x xs Hx _ IH]; cbn [comprehension existsb].
  - right. split; [eexists; reflexivity|reflexivity].
  - destruct Hx as [[Hx Hbad]|[[y Hx] Hgood]]; rewrite Hx; cbn [bind].
    + left. rewrite Hbad. split; reflexivity.
    + rewrite Hgood. cbn [orb].
      destruct IH as [[Hxs Hex]|[[ys Hxs] Hnone]]; rewrite Hxs; cbn [bind].
      * left. split; [reflexivity|exact Hex].
      * right. split; [eexists; reflexivity|exact Hnone].
Qed.

Lemma existsb_filter {A : Type} (keep bad : A -> bool) (l : list A) :
  (forall x, keep x = false -> bad x = false) ->
  existsb bad (filter keep l) = existsb bad l.
Proof.
  intros H. induction l as [|x l IH]; cbn [filter existsb]; [reflexivity|].
  destruct (keep x) eqn:E; cbn [existsb]; rewrite IH; [reflexivity|].
  now rewrite (H x E).
Qed.

(** The overrun decides for a record, and for the records in a list. *)
Lemma flatten_dict_overrun_nested (v : pyvalue) :
  (is_dict v = true -> overrun_decides v)
  /\ match v with
     | VList elems =>
         Forall (fun val => is_dict val = true -> overrun_decides val) elems
     | _ => True
     end.
Proof.
  induction v as [ | b | z | s | elems IH | items IH ] using pyvalue_nested_ind;
    try (split; [discriminate|exact I]).
  - split; [discriminate|].
    eapply Forall_impl; [|exact IH]. cbn beta. intros val H. exact (proj1 H).
  - split; [|exact I]. intros _ parent_key separator.
    rewrite flatten_dict_entries. cbn [has_overrun].
    match goal with
    | |- context [existsb ?f items] => set (bad := f)
    end.
    assert (H : Forall (fun entry =>
                 (entry_items parent_key separator entry = Raise IndexError
                  /\ bad entry = true)
                 \/ ((exists y, entry_items parent_key separator entry = Ok y)
                     /\ bad entry = false)) items).
    { clear -IH. induction IH as [|[key value] items Hv _ IHitems];
        constructor; [|exact IHitems].
      unfold entry_items, bad. cbn [fst snd] in *.
      destruct value as [ | b | z | s | elems | sub ].
      1-4: right; split; [eexists; reflexivity|reflexivity].
      - destruct Hv as [_ Hv].
        set (new_key := new_key_of parent_key separator key).
        assert (Hsub : Forall (fun val =>
                   (flatten_dict val new_key separator = Raise IndexError
                    /\ has_overrun val = true)
                   \/ ((exists y, flatten_dict val new_key separator = Ok y)
                       /\ has_overrun val = false)) (filter is_dict elems)).
        { apply Forall_forall. intros val Hin. apply filter_In in Hin.
          destruct Hin as [Hin Hd].
          rewrite Forall_forall in Hv. apply (Hv val Hin Hd). }
        destruct (comprehension_cases_in _ IndexError has_overrun _ Hsub)
          as [[E Hex]|[[ys E] Hnone]]; rewrite E; cbn [bind];
          rewrite existsb_filter in *
            by (intros [] Hx; try reflexivity; discriminate).
        + left. rewrite Hex. split; reflexivity.
        + rewrite Hnone. cbn [orb]. unfold list_after_deletions.
          destruct (forallb _ _); cbn [bind negb].
          * right. split; [eexists; reflexivity|reflexivity].
          * left. split; reflexivity.
      - apply (proj1 Hv eq_refl). }
    destruct (comprehension_cases_in _ IndexError bad items H)
      as [[E Hex]|[[ys E] Hnone]]; rewrite E; cbn [bind].
    + left. auto.
    + right. split; [eexists; reflexivity|exact Hnone].
Qed.

(** X8: as long as the call stack suffices, [flatten_dict] on a
    record raises [IndexError] exactly when some deletion runs past the end
    of its list ([has_overrun]), and returns exactly when none does. *)
Theorem flatten_dict_index_error (items : list (string * pyvalue))
        (parent_key separator : string) :
  (flatten_dict (VDict items) parent_key separator = Raise IndexError
   <-> has_overrun (VDict items) = true)
  /\ ((exists out, flatten_dict (VDict items) parent_key separator = Ok out)
      <-> has_overrun (VDict items) = false).
Proof.
  destruct (proj1 (flatten_dict_overrun_nested (VDict items)) eq_refl
                  parent_key separator) as [[E H]|[[out E] H]];
    rewrite E, H; split; split; intros G; try reflexivity; try discriminate.
  - destruct G; discriminate.
  - exists out; reflexivity.
Qed.

(** The closed form is the loop of deletions. *)
Lemma list_after_deletions_del_each (elems : list pyvalue) :
  list_after_deletions elems = del_each (dict_positions elems 0) elems.
Proof.
  unfold list_after_deletions.
  now rewrite (del_each_ascending _ _ (dict_positions_ascending elems 0)).
Qed.

(** The positions of the records in two lists put together. *)
Lemma dict_positions_app (l1 l2 : list pyvalue) (index : nat) :
  dict_positions (l1 ++ l2) index
  = (dict_positions l1 index
     ++ dict_positions l2 (index + List.length l1))%list.
Proof.
  revert index; induction l1 as [|v l1 IH]; intros index;
    cbn [app dict_positions List.length].
  - now rewrite Nat.add_0_r.
  - rewrite IH. replace (S index + List.length l1)
      with (index + S (List.length l1)) by lia.
    destruct (is_dict v); reflexivity.
Qed.

(** A list without records has no positions. *)
Lemma dict_positions_free (l : list pyvalue) (index : nat) :
  existsb is_dict l = false -> dict_positions l index = [].
Proof.
  revert index; induction l as [|v l IH]; intros index H;
    cbn [existsb dict_positions] in *; [reflexivity|].
  apply orb_false_iff in H. destruct H as [Hv Hl]. rewrite Hv. now apply IH.
Qed.

Lemma filter_dict_free (l : list pyvalue) :
  existsb is_dict l = false -> filter is_dict l = [].
Proof.
  induction l as [|v l IH]; intros H; cbn [existsb filter] in *;
    [reflexivity|].
  apply orb_false_iff in H. destruct H as [Hv Hl]. rewrite Hv. now apply IH.
Qed.

(** Deleting the element after a prefix. *)
Lemma py_del_middle {A : Type} (pre post : list A) (x : A) :
  py_del (List.length pre) (pre ++ x :: post) = Ok (pre ++ post)%list.
Proof.
  unfold py_del.
  destruct (Nat.ltb_spec (List.length pre) (List.length (pre ++ x :: post)))
    as [_|H].
  - f_equal. induction pre as [|y pre IH]; [reflexivity|].
    cbn [List.length app firstn skipn] in *. now f_equal.
  - rewrite length_app in H. simpl in H. lia.
Qed.

(** Deleting at the length of the list is out of range. *)
Lemma py_del_end {A : Type} (l : list A) :
  py_del (List.length l) l = Raise IndexError.
Proof. unfold py_del. now rewrite Nat.ltb_irrefl. Qed.

Lemma flatten_dict_index_error_witness :
  flatten_dict
    (VDict [("a", VList [VDict [("b", VInt 1)]; VDict [("c", VInt 2)]])])
    "" "." = Raise IndexError.
Proof.
  apply (proj2 (proj1 (flatten_dict_index_error
                         [("a", VList [VDict [("b", VInt 1)];
                                       VDict [("c", VInt 2)]])] "" "."))).
  reflexivity.
Defined.

(** X9: a list with one record in it, anywhere: the record leaves
    the list, its flattening under the new key comes first, then the list
    without it. *)
Theorem flatten_dict_one_record_in_list
        (key : string) (pre post : list pyvalue)
        (d : list (string * pyvalue)) (parent_key separator : string) :
  existsb is_dict pre = false -> existsb is_dict post = false ->
  flatten_dict (VDict [(key, VList (pre ++ VDict d :: post))])
               parent_key separator
  = (sub <- flatten_dict (VDict d) (new_key_of parent_key separator key)
                         separator ;;
     Ok (py_dict (sub ++ [(new_key_of parent_key separator key,
                           VList (pre ++ post))]))).
Proof.
  intros Hpre Hpost. rewrite flatten_dict_entries.
  cbn [comprehension]. unfold entry_items. cbn [fst snd].
  rewrite filter_app. cbn [filter is_dict].
  rewrite (filter_dict_free _ Hpre), (filter_dict_free _ Hpost).
  cbn [app comprehension].
  destruct (flatten_dict (VDict d) _ separator) as [sub| |]; cbn [bind];
    try reflexivity.
  rewrite list_after_deletions_del_each, dict_positions_app.
  cbn [dict_positions is_dict].
  rewrite (dict_positions_free _ _ Hpre), (dict_positions_free _ _ Hpost).
  cbn [app del_each Nat.add]. rewrite py_del_middle. cbn [bind concat].
  now rewrite !app_nil_r.
Qed.

Lemma flatten_dict_one_record_in_list_witness :
  flatten_dict (VDict [("nics", VList [VStr "lo"; VDict [("ip", VStr "::1")];
                                       VStr "eth0"])]) "host" "."
  = Ok [("host.nics.ip", VStr "::1");
        ("host.nics", VList [VStr "lo"; VStr "eth0"])].
Proof.
  refine (eq_trans
            (flatten_dict_one_record_in_list "nics" [VStr "lo"] [VStr "eth0"]
               [("ip", VStr "::1")] "host" "." eq_refl eq_refl) _).
  reflexivity.
Defined.

(** X10: a list with two records in it: after the first deletion the
    second index is one too far, so [IndexError] is raised when the second
    record is the last element, and else the element after the second
    record is deleted and the second record stays in the list. *)
Theorem flatten_dict_two_records_in_list
        (key : string) (pre mid post : list pyvalue)
        (d1 d2 : list (string * pyvalue)) (parent_key separator : string) :
  existsb is_dict pre = false -> existsb is_dict mid = false ->
  existsb is_dict post = false ->
  flatten_dict
    (VDict [(key, VList (pre ++ VDict d1 :: mid ++ VDict d2 :: post))])
    parent_key separator
  = (sub1 <- flatten_dict (VDict d1) (new_key_of parent_key separator key)
                          separator ;;
     sub2 <- flatten_dict (VDict d2) (new_key_of parent_key separator key)
                          separator ;;
     match post with
     | [] => Raise IndexError
     | _ :: post' =>
         Ok (py_dict (sub1 ++ sub2
                      ++ [(new_key_of parent_key separator key,
                           VList (pre ++ mid ++ VDict d2 :: post'))]))
     end).
Proof.
  intros Hpre Hmid Hpost. rewrite flatten_dict_entries.
  cbn [comprehension]. unfold entry_items. cbn [fst snd].
  rewrite filter_app. cbn [filter is_dict]. rewrite filter_app.
  cbn [filter is_dict].
  rewrite (filter_dict_free _ Hpre), (filter_dict_free _ Hmid),
    (filter_dict_free _ Hpost).
  cbn [app comprehension].
  destruct (flatten_dict (VDict d1) _ separator) as [sub1| |]; cbn [bind];
    try reflexivity.
  destruct (flatten_dict (VDict d2) _ separator) as [sub2| |]; cbn [bind];
    try reflexivity.
  rewrite list_after_deletions_del_each, dict_positions_app.
  cbn [dict_positions is_dict]. rewrite dict_positions_app.
  cbn [dict_positions is_dict].
  rewrite (dict_positions_free _ _ Hpre), (dict_positions_free _ _ Hmid),
    (dict_positions_free _ _ Hpost).
  cbn [app del_each Nat.add]. rewrite py_del_middle. cbn [bind].
  replace (S (List.length pre + List.length mid))
    with (List.length (pre ++ mid ++ [VDict d2]))
    by (rewrite !length_app; simpl; lia).
  replace (pre ++ mid ++ VDict d2 :: post)%list
    with ((pre ++ mid ++ [VDict d2]) ++ post)%list
    by (now rewrite <- !app_assoc).
  destruct post as [|x post'].
  - rewrite app_nil_r, py_del_end. reflexivity.
  - rewrite py_del_middle. cbn [bind concat].
    rewrite !app_nil_r, <- !app_assoc. reflexivity.
Qed.

Lemma flatten_dict_two_records_in_list_witness :
  flatten_dict
    (VDict [("a", VList [VInt 0; VDict [("b", VInt 1)]; VInt 7;
                         VDict [("c", VInt 2)]; VInt 8; VInt 9])]) "" "."
  = Ok [("a.b", VInt 1); ("a.c", VInt 2);
        ("a", VList [VInt 0; VInt 7; VDict [("c", VInt 2)]; VInt 9])].
Proof.
  refine (eq_trans
            (flatten_dict_two_records_in_list "a" [VInt 0] [VInt 7]
               [VInt 8; VInt 9] [("b", VInt 1)] [("c", VInt 2)] "" "."
               eq_refl eq_refl eq_refl) _).
  reflexivity.
Defined.

(** Induction along the calls of [flatten_dict]: on the records that are
    values of a record, and on the records that stand in its lists. *)
Lemma record_ind (P : list (string * pyvalue) -> Prop) :
  (forall items,
      Forall (fun entry =>
                match snd entry with
                | VDict sub => P sub
                | VList elems =>
                    Forall (fun val => match val with
                                       | VDict sub => P sub
                                       | _ => True
                                       end) elems
                | _ => True
                end) items ->
      P items) ->
  forall items, P items.
Proof.
  intros H items.
  change (match VDict items with
          | VDict sub => P sub
          | VList elems =>
              Forall (fun val => match val with
                                 | VDict sub => P sub
                                 | _ => True
                                 end) elems
          | _ => True
          end).
  generalize (VDict items) as v. clear items.
  induction v as [ | b | z | s | elems IH | items IH ] using pyvalue_nested_ind;
    try exact I.
  - eapply Forall_impl; [|exact IH]. intros []; auto.
  - apply H. exact IH.
Qed.

Lemma dict_set_In {V : Type} (d : list (string * V)) (key : string) (v : V)
      (kv : string * V) :
  In kv (dict_set d key v) -> (fst kv = key /\ snd kv = v) \/ In kv d.
Proof.
  induction d as [|[k w] d IH]; cbn [dict_set].
  - intros [<-|[]]. left. split; reflexivity.
  - destruct (String.eqb_spec k key) as [->|_].
    + intros [<-|H]; [left; split; reflexivity|right; right; exact H].
    + intros [<-|H]; [right; left; reflexivity|].
      destruct (IH H) as [G|G]; [left; exact G|right; right; exact G].
Qed.

(** An item of [dict(pairs)] is one of the pairs. *)
Lemma py_dict_In {V : Type} (l : list (string * V)) (kv : string * V) :
  In kv (py_dict l) -> In kv l.
Proof.
  unfold py_dict.
  assert (G : forall d, In kv (fold_left (fun d kv => dict_set d (fst kv)
                                                               (snd kv)) l d)
                        -> In kv d \/ In kv l).
  { induction l as [|[k v] l IH]; intros d H; cbn [fold_left] in H.
    - left. exact H.
    - destruct (IH _ H) as [G|G].
      + cbn [fst snd] in G. apply dict_set_In in G.
        destruct G as [[G1 G2]|G]; [|left; exact G].
        right. left. destruct kv; cbn in *; subst; reflexivity.
      + right. right. exact G. }
  intros H. destruct (G [] H) as [[]|H']. exact H'.
Qed.

(** Setting a new key adds it at the end. *)
Lemma dict_set_fresh {V : Type} (d : list (string * V)) (key : string)
      (v : V) :
  ~ In key (map fst d) -> dict_set d key v = (d ++ [(key, v)])%list.
Proof.
  induction d as [|[k w] d IH]; cbn [dict_set map fst In app]; intros H;
    [reflexivity|].
  destruct (String.eqb_spec k key) as [->|_]; [tauto|].
  rewrite IH by tauto. reflexivity.
Qed.

(** Setting a key that is there keeps the keys. *)
Lemma dict_set_keys {V : Type} (d : list (string * V)) (key : string)
      (v : V) :
  In key (map fst d) -> map fst (dict_set d key v) = map fst d.
Proof.
  induction d as [|[k w] d IH]; cbn [dict_set map fst In]; intros H;
    [contradiction|].
  destruct (String.eqb_spec k key) as [->|Hne]; [reflexivity|].
  cbn [map fst]. rewrite IH; [reflexivity|]. destruct H; [contradiction|auto].
Qed.

(** A dict has every key once. *)
Lemma py_dict_NoDup {V : Type} (l : list (string * V)) :
  NoDup (map fst (py_dict l)).
Proof.
  unfold py_dict.
  assert (G : forall d, NoDup (map fst d) ->
                        NoDup (map fst (fold_left
                                          (fun d kv => dict_set d (fst kv)
                                                                (snd kv))
                                          l d))).
  { induction l as [|[k v] l IH]; intros d H; cbn [fold_left]; [exact H|].
    apply IH. cbn [fst snd].
    destruct (in_dec string_dec k (map fst d)) as [Hin|Hout].
    - now rewrite dict_set_keys.
    - rewrite dict_set_fresh by assumption. rewrite map_app. cbn [map fst].
      apply NoDup_app; [exact H|repeat constructor; intros []|].
      intros x Hx [<-|[]]. contradiction. }
  apply G. constructor.
Qed.

(** Pairs with different keys are the items of the dict made from them. *)
Lemma py_dict_NoDup_id {V : Type} (l : list (string * V)) :
  NoDup (map fst l) -> py_dict l = l.
Proof.
  unfold py_dict.
  assert (G : forall d, NoDup (map fst (d ++ l)) ->
                        fold_left (fun d kv => dict_set d (fst kv) (snd kv))
                                  l d
                        = (d ++ l)%list).
  { induction l as [|[k v] l IH]; intros d H; cbn [fold_left].
    - now rewrite app_nil_r.
    - cbn [fst snd]. rewrite dict_set_fresh.
      + rewrite IH; rewrite <- app_assoc; [reflexivity|exact H].
      + rewrite map_app in H. cbn [map fst] in H.
        apply NoDup_remove_2 in H. intros Hin. apply H.
        apply in_or_app. left. exact Hin. }
  intros H. apply (G [] H).
Qed.

Lemma Forall_concat {A : Type} (P : A -> Prop) (ls : list (list A)) :
  Forall (Forall P) ls -> Forall P (concat ls).
Proof.
  induction 1 as [|l ls Hl _ IH]; cbn [concat]; [constructor|].
  apply Forall_app. split; assumption.
Qed.

Lemma Forall_py_dict {V : Type} (P : string * V -> Prop)
      (l : list (string * V)) :
  Forall P l -> Forall P (py_dict l).
Proof.
  rewrite !Forall_forall. intros H kv Hin. apply H, py_dict_In, Hin.
Qed.

(** What the comprehension returns comes from its elements. *)
Lemma comprehension_Forall {A B : Type} (f : A -> outcome B) (P : B -> Prop)
      (xs : list A) (ys : list B) :
  comprehension f xs = Ok ys ->
  Forall (fun x => forall y, f x = Ok y -> P y) xs -> Forall P ys.
Proof.
  intros Hc H. apply comprehension_Forall2 in Hc.
  induction Hc as [|x y xs ys Hxy _ IH]; [constructor|].
  inversion H; subst. constructor; auto.
Qed.

(** What the flattener returns has every key once. *)
Lemma flatten_dict_NoDup (nested_dict : pyvalue)
      (parent_key separator : string) (out : dict) :
  flatten_dict nested_dict parent_key separator = Ok out ->
  NoDup (map fst out).
Proof.
  destruct nested_dict as [ | | | | |items]; try discriminate.
  rewrite flatten_dict_entries.
  destruct (comprehension _ items); try discriminate.
  intros H; inversion H; subst. apply py_dict_NoDup.
Qed.

(** X11: what [flatten_dict] returns has every key once and no record
    among its values (a record may be left inside a list). *)
Theorem flatten_dict_result_shape (nested_dict : pyvalue)
        (parent_key separator : string) (out : dict) :
  flatten_dict nested_dict parent_key separator = Ok out ->
  NoDup (map fst out)
  /\ Forall (fun kv => is_dict (snd kv) = false) out.
Proof.
  intros H. split; [apply (flatten_dict_NoDup _ _ _ _ H)|].
  destruct nested_dict as [ | | | | |items]; try discriminate.
  - revert parent_key separator out H.
    induction items as [items IH] using record_ind.
    intros parent_key separator out H.
    rewrite flatten_dict_entries in H.
    destruct (comprehension _ items) as [parts| |] eqn:E; try discriminate.
    inversion H; subst. apply Forall_py_dict, Forall_concat.
    apply (comprehension_Forall _ _ _ _ E).
    eapply Forall_impl; [|exact IH]. clear.
    intros [key value] Hv part. unfold entry_items. cbn [fst snd] in *.
    destruct value as [ | b | z | s | elems | sub ].
    1-4: intros G; inversion G; subst; repeat constructor.
    + destruct (comprehension _ (filter is_dict elems)) as [subs| |] eqn:E;
        cbn [bind]; try discriminate.
      destruct (list_after_deletions elems) as [value'| |]; cbn [bind];
        try discriminate.
      intros G; inversion G; subst. apply Forall_app. split;
        [|repeat constructor].
      apply Forall_concat. apply (comprehension_Forall _ _ _ _ E).
      apply Forall_forall. intros val Hin. apply filter_In in Hin.
      destruct Hin as [Hin Hd]. rewrite Forall_forall in Hv.
      specialize (Hv val Hin). destruct val; try discriminate.
      intros y. apply Hv.
    + apply Hv.
Qed.

Lemma flatten_dict_result_shape_witness :
  NoDup (map fst [("a.b", VInt 1); ("a.c", VInt 2);
                  ("a", VList [VInt 7; VDict [("c", VInt 2)]])])
  /\ Forall (fun kv : string * pyvalue => is_dict (snd kv) = false)
            [("a.b", VInt 1); ("a.c", VInt 2);
             ("a", VList [VInt 7; VDict [("c", VInt 2)]])].
Proof.
  apply (flatten_dict_result_shape
           (VDict [("a", VList [VDict [("b", VInt 1)]; VInt 7;
                                VDict [("c", VInt 2)]; VInt 8])])
           "" ".").
  reflexivity.
Defined.

Lemma string_app_inv_head (p s t : string) : p ++ s = p ++ t -> s = t.
Proof.
  induction p as [|a p IH]; cbn [append]; intros H; [exact H|].
  inversion H. auto.
Qed.

(** Different keys get different new keys. *)
Lemma new_key_of_inj (parent_key separator k1 k2 : string) :
  new_key_of parent_key separator k1 = new_key_of parent_key separator k2 ->
  k1 = k2.
Proof.
  unfold new_key_of. destruct parent_key as [|a p]; [auto|].
  intros H. apply string_app_inv_head in H.
  apply string_app_inv_head in H. exact H.
Qed.

Lemma NoDup_map_inj {A B : Type} (f : A -> B) (l : list A) :
  (forall x y, f x = f y -> x = y) -> NoDup l -> NoDup (map f l).
Proof.
  intros Hf. induction 1 as [|x l Hx _ IH]; cbn [map]; constructor;
    [|exact IH].
  intros Hin. apply in_map_iff in Hin. destruct Hin as (y & E & Hy).
  apply Hf in E. subst. contradiction.
Qed.

Lemma list_after_deletions_free (elems : list pyvalue) :
  existsb is_dict elems = false -> list_after_deletions elems = Ok elems.
Proof.
  intros H. rewrite list_after_deletions_del_each.
  now rewrite dict_positions_free.
Qed.

(** An entry with a flat value adds itself under the new key. *)
Lemma entry_items_flat (parent_key separator : string)
      (entry : string * pyvalue) :
  flat_value (snd entry) = true ->
  entry_items parent_key separator entry
  = Ok [(new_key_of parent_key separator (fst entry), snd entry)].
Proof.
  destruct entry as [key value]. unfold entry_items. cbn [fst snd].
  destruct value as [ | b | z | s | elems | sub ]; try reflexivity;
    cbn [flat_value]; [|discriminate].
  intros H. apply negb_true_iff in H.
  rewrite filter_dict_free, list_after_deletions_free by assumption.
  reflexivity.
Qed.

(** The entries of a record with flat values add one pair each. *)
Lemma flat_entries (parent_key separator : string)
      (items : list (string * pyvalue)) :
  Forall (fun entry => flat_value (snd entry) = true) items ->
  comprehension (entry_items parent_key separator) items
  = Ok (map (fun entry => [(new_key_of parent_key separator (fst entry),
                            snd entry)]) items).
Proof.
  induction 1 as [|entry items He _ IH]; cbn [comprehension map];
    [reflexivity|].
  rewrite (entry_items_flat _ _ _ He), IH. reflexivity.
Qed.

Lemma concat_singletons {A B : Type} (f : A -> B) (l : list A) :
  concat (map (fun x => [f x]) l) = map f l.
Proof.
  induction l as [|x l IH]; cbn [map concat app]; [reflexivity|].
  now rewrite IH.
Qed.

(** X12: a record whose values are no records and whose lists hold no
    records is returned with the same values in the same order, every key
    prefixed by the parent key and the separator; without a parent key it is
    returned as it is. *)
Theorem flatten_dict_flat_record (items : list (string * pyvalue))
        (parent_key separator : string) :
  Forall (fun entry => flat_value (snd entry) = true) items ->
  NoDup (map fst items) ->
  flatten_dict (VDict items) parent_key separator
  = Ok (map (fun entry => (new_key_of parent_key separator (fst entry),
                           snd entry)) items).
Proof.
  intros Hflat Hkeys. rewrite flatten_dict_entries.
  rewrite (flat_entries _ _ _ Hflat). cbn [bind]. f_equal.
  rewrite (concat_singletons
             (fun entry => (new_key_of parent_key separator (fst entry),
                            snd entry))).
  apply py_dict_NoDup_id.
  rewrite map_map. cbn [fst].
  rewrite <- (map_map fst (new_key_of parent_key separator)).
  apply NoDup_map_inj; [apply new_key_of_inj|exact Hkeys].
Qed.

Lemma flatten_dict_flat_record_witness :
  flatten_dict (VDict [("name", VStr "web1"); ("tags", VList [VStr "prod"]);
                       ("cpus", VInt 4)]) "host" "_"
  = Ok [("host_name", VStr "web1"); ("host_tags", VList [VStr "prod"]);
        ("host_cpus", VInt 4)].
Proof.
  refine (eq_trans
            (flatten_dict_flat_record
               [("name", VStr "web1"); ("tags", VList [VStr "prod"]);
                ("cpus", VInt 4)] "host" "_" _ _) _).
  - repeat constructor.
  - repeat constructor; simpl; intuition discriminate.
  - reflexivity.
Defined.

(** A list with at most one record has none, or is a list without
    records around one record. *)
Lemma one_record_split (elems : list pyvalue) :
  List.length (filter is_dict elems) <= 1 ->
  existsb is_dict elems = false
  \/ exists pre d post,
      elems = (pre ++ VDict d :: post)%list
      /\ existsb is_dict pre = false /\ existsb is_dict post = false.
Proof.
  induction elems as [|v elems IH]; cbn [filter existsb]; intros H;
    [left; reflexivity|].
  destruct (is_dict v) eqn:Hv; cbn [List.length orb] in *.
  - right. destruct v; try discriminate. exists [], items, elems.
    split; [reflexivity|]. split; [reflexivity|].
    destruct (filter is_dict elems) eqn:F; [|simpl in H; lia].
    clear -F. induction elems as [|w elems IH]; [reflexivity|].
    cbn [filter existsb] in *. destruct (is_dict w); [discriminate|].
    apply IH, F.
  - destruct (IH H) as [G|(pre & d & post & -> & Hpre & Hpost)];
      [left; exact G|].
    right. exists (v :: pre), d, post. split; [reflexivity|].
    split; [cbn [existsb]; now rewrite Hv|exact Hpost].
Qed.

Lemma existsb_app_false {A : Type} (f : A -> bool) (l1 l2 : list A) :
  existsb f l1 = false -> existsb f l2 = false ->
  existsb f (l1 ++ l2) = false.
Proof. intros H1 H2. rewrite existsb_app, H1, H2. reflexivity. Qed.

(** On a record whose lists hold at most one record each, the flattener as
    written here, without a bound on the nesting, returns, and what it
    returns has flat values only. *)
Lemma flatten_dict_one_record_lists (items : list (string * pyvalue)) :
  one_record_lists (VDict items) = true ->
  forall parent_key separator,
  exists out, flatten_dict (VDict items) parent_key separator = Ok out
              /\ Forall (fun kv => flat_value (snd kv) = true) out.
Proof.
  induction items as [items IH] using record_ind.
  intros Hone parent_key separator.
  rewrite flatten_dict_entries. cbn [one_record_lists] in Hone.
  assert (H : exists parts,
             comprehension (entry_items parent_key separator) items = Ok parts
             /\ Forall (Forall (fun kv => flat_value (snd kv) = true)) parts).
  { clear -IH Hone.
    induction IH as [|[key value] items Hv _ IHitems];
      cbn [comprehension forallb] in *.
    - exists []. split; [reflexivity|constructor].
    - apply andb_true_iff in Hone. destruct Hone as [Hvalue Hitems].
      destruct (IHitems Hitems) as (parts & E & Hparts). rewrite E.
      cbn [fst snd] in *. unfold entry_items. cbn [fst snd].
      set (new_key := new_key_of parent_key separator key).
      destruct value as [ | b | z | s | elems | sub ].
      1-4: cbn [bind]; eexists; split; [reflexivity|];
        constructor; [repeat constructor|exact Hparts].
      + cbn [one_record_lists] in Hvalue.
        apply andb_true_iff in Hvalue. destruct Hvalue as [Hlen Helems].
        apply Nat.leb_le in Hlen.
        destruct (one_record_split elems Hlen)
          as [Hfree|(pre & d & post & -> & Hpre & Hpost)].
        * rewrite filter_dict_free, list_after_deletions_free by assumption.
          cbn [comprehension bind concat app]. eexists.
          split; [reflexivity|]. constructor; [|exact Hparts].
          repeat constructor. cbn [snd flat_value]. now rewrite Hfree.
        * rewrite filter_app. cbn [filter is_dict].
          rewrite (filter_dict_free _ Hpre), (filter_dict_free _ Hpost).
          cbn [app comprehension].
          rewrite Forall_forall in Hv.
          assert (Hin : In (VDict d) (pre ++ VDict d :: post))
            by (apply in_or_app; right; left; reflexivity).
          rewrite forallb_forall in Helems.
          destruct (Hv _ Hin (Helems _ Hin) new_key separator)
            as (sub & Esub & Hsub).
          rewrite Esub. cbn [bind].
          rewrite list_after_deletions_del_each, dict_positions_app.
          cbn [dict_positions is_dict].
          rewrite (dict_positions_free _ _ Hpre),
            (dict_positions_free _ _ Hpost).
          cbn [app del_each Nat.add]. rewrite py_del_middle.
          cbn [bind concat]. eexists. split; [reflexivity|].
          constructor; [|exact Hparts]. rewrite app_nil_r.
          apply Forall_app. split; [exact Hsub|].
          repeat constructor. cbn [snd flat_value].
          now rewrite existsb_app_false.
      + destruct (Hv Hvalue new_key separator) as (out & Eout & Hout).
        rewrite Eout. cbn [bind]. eexists. split; [reflexivity|].
        constructor; [exact Hout|exact Hparts]. }
  destruct H as (parts & E & Hparts). rewrite E. cbn [bind].
  eexists. split; [reflexivity|].
  apply Forall_py_dict, Forall_concat, Hparts.
Qed.

(** X13: on a record none of whose lists holds more than one record,
    what [flatten_dict] returns, when it returns, comes back as it is when
    flattened again without a parent key: a second flattening changes
    nothing. *)
Theorem flatten_dict_idempotent (items : list (string * pyvalue))
        (parent_key separator : string) (out : dict) :
  one_record_lists (VDict items) = true ->
  flatten_dict (VDict items) parent_key separator = Ok out ->
  forall separator', flatten_dict (VDict out) "" separator' = Ok out.
Proof.
  intros Hone E separator'.
  destruct (flatten_dict_one_record_lists items Hone parent_key separator)
    as (out' & E' & Hflat).
  assert (out' = out) by congruence. subst out'.
  rewrite flatten_dict_entries, (flat_entries _ _ _ Hflat). cbn [bind].
  f_equal.
  rewrite (concat_singletons
             (fun entry : string * pyvalue =>
                (new_key_of "" separator' (fst entry), snd entry))).
  cbn [new_key_of].
  assert (Hid : map (fun entry : string * pyvalue => (fst entry, snd entry))
                    out = out).
  { clear. induction out as [|[k v] out IH]; cbn [map fst snd];
      [reflexivity|now rewrite IH]. }
  rewrite Hid.
  apply py_dict_NoDup_id, (flatten_dict_NoDup _ _ _ _ E).
Qed.

Lemma flatten_dict_idempotent_witness :
  flatten_dict
    (VDict [("name", VStr "web1");
            ("os.family", VStr "rhel");
            ("nics.ip", VStr "::1");
            ("nics", VList [VStr "lo"])]) "" "_"
  = Ok [("name", VStr "web1");
        ("os.family", VStr "rhel");
        ("nics.ip", VStr "::1");
        ("nics", VList [VStr "lo"])].
Proof.
  apply (flatten_dict_idempotent
           [("name", VStr "web1");
            ("os", VDict [("family", VStr "rhel")]);
            ("nics", VList [VStr "lo"; VDict [("ip", VStr "::1")]])] "" "."
           [("name", VStr "web1");
            ("os.family", VStr "rhel");
            ("nics.ip", VStr "::1");
            ("nics", VList [VStr "lo"])]);
    reflexivity.
Defined.

(** ** Cleaning and merging *)

(** Reading a dict after setting a key. *)
Lemma dict_get_set {V : Type} (d : list (string * V)) (key key' : string)
      (v : V) :
  dict_get (dict_set d key v) key'
  = if String.eqb key key' then Ok v else dict_get d key'.
Proof.
  induction d as [|[k w] d IH]; cbn [dict_set dict_get].
  - destruct (String.eqb key key'); reflexivity.
  - destruct (String.eqb_spec k key) as [->|Hk]; cbn [dict_get].
    + destruct (String.eqb key key'); reflexivity.
    + rewrite IH. destruct (String.eqb_spec k key') as [->|_];
        [|reflexivity].
      destruct (String.eqb_spec key key') as [->|_];
        [contradiction|reflexivity].
Qed.

Lemma dict_has_false_get {V : Type} (d : list (string * V)) (key : string) :
  dict_has d key = false -> dict_get d key = Raise KeyError.
Proof.
  induction d as [|[k v] d IH]; cbn [dict_has dict_get]; [reflexivity|].
  destruct (String.eqb k key); cbn [orb]; [discriminate|exact IH].
Qed.

(** What is read under a key is an item. *)
Lemma dict_get_In {V : Type} (d : list (string * V)) (key : string) (v : V) :
  dict_get d key = Ok v -> In (key, v) d.
Proof.
  induction d as [|[k w] d IH]; cbn [dict_get]; [discriminate|].
  destruct (String.eqb_spec k key) as [->|_].
  - intros H; inversion H. left. reflexivity.
  - intros H. right. apply IH, H.
Qed.

(** In a dict with every key once, an item is what is read under its key. *)
Lemma In_dict_get {V : Type} (d : list (string * V)) (key : string) (v : V) :
  NoDup (map fst d) -> In (key, v) d -> dict_get d key = Ok v.
Proof.
  induction d as [|[k w] d IH]; cbn [map fst dict_get]; intros Hnd Hin;
    [contradiction|].
  inversion Hnd as [|? ? Hk Hd]; subst. destruct Hin as [E|Hin].
  - inversion E; subst. now rewrite String.eqb_refl.
  - destruct (String.eqb_spec k key) as [->|_]; [|apply IH; assumption].
    exfalso. apply Hk. apply in_map_iff. exists (key, v). split; auto.
Qed.

(** [key in d.keys()] is [key in d]. *)
Lemma key_in_keys {V : Type} (d : list (string * V)) (key : string) :
  key_in (map fst d) key = dict_has d key.
Proof.
  unfold key_in. induction d as [|[k v] d IH]; cbn [map fst existsb dict_has];
    [reflexivity|].
  rewrite IH, (String.eqb_sym key k). reflexivity.
Qed.

Lemma key_in_In (keys : list string) (key : string) :
  key_in keys key = true <-> In key keys.
Proof.
  unfold key_in. rewrite existsb_exists. split.
  - intros (x & Hx & E). apply String.eqb_eq in E. now subst.
  - intros H. exists key. split; [exact H|apply String.eqb_refl].
Qed.

(** Membership does not depend on the order. *)
Lemma key_in_perm (l l' : list string) (key : string) :
  Permutation l l' -> key_in l key = key_in l' key.
Proof.
  intros H. destruct (key_in l' key) eqn:E.
  - apply key_in_In. apply key_in_In in E.
    apply (Permutation_in _ (Permutation_sym H) E).
  - destruct (key_in l key) eqn:E'; [|reflexivity].
    apply key_in_In in E'. apply (Permutation_in _ H) in E'.
    apply key_in_In in E'. congruence.
Qed.

(** Membership in a set cut down by a test. *)
Lemma key_in_filter (f : string -> bool) (keys : list string) (key : string) :
  key_in (filter f keys) key = key_in keys key && f key.
Proof.
  unfold key_in. induction keys as [|k keys IH]; cbn [filter existsb];
    [reflexivity|].
  destruct (f k) eqn:Hk; cbn [existsb]; rewrite IH.
  - destruct (String.eqb_spec key k) as [->|_]; [now rewrite Hk|reflexivity].
  - destruct (String.eqb_spec key k) as [->|_]; [|reflexivity].
    rewrite Hk, !andb_false_r. reflexivity.
Qed.

Lemma dict_set_NoDup {V : Type} (d : list (string * V)) (key : string)
      (v : V) :
  NoDup (map fst d) -> NoDup (map fst (dict_set d key v)).
Proof.
  intros H. destruct (in_dec string_dec key (map fst d)) as [Hin|Hout].
  - now rewrite dict_set_keys.
  - rewrite dict_set_fresh by assumption. rewrite map_app. cbn [map fst].
    apply NoDup_app; [exact H|repeat constructor; intros []|].
    intros x Hx [<-|[]]. contradiction.
Qed.

(** The copying loop: the keys of the loop read from [d], the others are as
    before. *)
Lemma copy_loop_get (copy_fits : nat -> pyvalue -> bool) (depth : nat)
      (d : dict) (keys : list string) (merged out : dict) :
  copy_loop copy_fits depth d keys merged = Ok out ->
  (NoDup (map fst merged) -> NoDup (map fst out))
  /\ forall key, dict_get out key
                 = if key_in keys key then dict_get d key
                   else dict_get merged key.
Proof.
  revert merged; induction keys as [|k keys IH]; intros merged H;
    cbn [copy_loop] in H.
  - inversion H; subst. split; [auto|reflexivity].
  - destruct (dict_get d k) as [v| |] eqn:Ev; cbn [bind] in H;
      try discriminate.
    unfold deepcopy in H.
    destruct (copy_fits depth v); cbn [bind] in H; try discriminate.
    destruct (IH _ H) as [Hnd Hget]. split.
    + intros G. apply Hnd, dict_set_NoDup, G.
    + intros key. rewrite Hget, dict_get_set. unfold key_in. cbn [existsb].
      fold (key_in keys key). rewrite (String.eqb_sym key k).
      destruct (key_in keys key); [now rewrite orb_true_r|].
      rewrite orb_false_r.
      destruct (String.eqb_spec k key) as [->|_]; [now rewrite Ev|reflexivity].
Qed.

(** The copying loop over keys of the dict returns, or a copy runs out of
    stack. *)
Lemma copy_loop_cases (copy_fits : nat -> pyvalue -> bool) (depth : nat)
      (d : dict) (keys : list string) (merged : dict) :
  (forall key, In key keys -> dict_has d key = true) ->
  (exists out, copy_loop copy_fits depth d keys merged = Ok out)
  \/ copy_loop copy_fits depth d keys merged = Raise RecursionError.
Proof.
  revert merged; induction keys as [|k keys IH]; intros merged H;
    cbn [copy_loop].
  - left. eexists; reflexivity.
  - destruct (dict_has_get d k (H k (or_introl eq_refl))) as [v Ev].
    rewrite Ev. cbn [bind]. unfold deepcopy.
    destruct (copy_fits depth v); cbn [bind]; [|right; reflexivity].
    apply IH. intros key Hin. apply H. now right.
Qed.

(** The merging loop: the keys of the loop get the merge of the two values,
    the others are as before. *)
Lemma dupe_loop_get (merge : pyvalue -> pyvalue -> outcome pyvalue)
      (dict1 dict2 : dict) (keys : list string) (merged out : dict) :
  dupe_loop merge dict1 dict2 keys merged = Ok out ->
  (NoDup (map fst merged) -> NoDup (map fst out))
  /\ forall key, dict_get out key
                 = if key_in keys key then merged_value merge dict1 dict2 key
                   else dict_get merged key.
Proof.
  revert merged; induction keys as [|k keys IH]; intros merged H;
    cbn [dupe_loop] in H.
  - inversion H; subst. split; [auto|reflexivity].
  - destruct (dict_get dict1 k) as [v1| |] eqn:E1; cbn [bind] in H;
      try discriminate.
    destruct (dict_get dict2 k) as [v2| |] eqn:E2; cbn [bind] in H;
      try discriminate.
    destruct (merge v1 v2) as [v| |] eqn:Ev; cbn [bind] in H;
      try discriminate.
    destruct (IH _ H) as [Hnd Hget]. split.
    + intros G. apply Hnd, dict_set_NoDup, G.
    + intros key. rewrite Hget, dict_get_set. unfold key_in. cbn [existsb].
      fold (key_in keys key). rewrite (String.eqb_sym key k).
      destruct (key_in keys key); [now rewrite orb_true_r|].
      rewrite orb_false_r.
      destruct (String.eqb_spec k key) as [->|_]; [|reflexivity].
      unfold merged_value. rewrite E1, E2. cbn [bind]. now rewrite Ev.
Qed.

Section MergeProperties.

Variable set_order : list string -> list string.
Hypothesis set_order_perm : forall keys, Permutation (set_order keys) keys.

Variable clean_fits : nat -> pyvalue -> bool.
Variable copy_fits : nat -> pyvalue -> bool.

(** The merge of two records, key by key: a key of both gets the merge of
    the two values, a key of one gets its value. *)
Lemma merge_dicts_depth_records (depth : nat) (dict1 dict2 out : pyvalue)
      (d1 d2 : dict) :
  clean_dict dict1 = Ok d1 -> clean_dict dict2 = Ok d2 ->
  merge_dicts_depth set_order clean_fits copy_fits (S depth) dict1 dict2
  = Ok out ->
  exists merged,
    out = VDict merged
    /\ NoDup (map fst merged)
    /\ forall key,
        dict_get merged key
        = match dict_get d1 key, dict_get d2 key with
          | Ok v1, Ok v2 =>
              merge_dicts_depth set_order clean_fits copy_fits depth v1 v2
          | Ok v1, _ => Ok v1
          | _, Ok v2 => Ok v2
          | _, _ => Raise KeyError
          end.
Proof.
  intros C1 C2.
  destruct dict1 as [ | | | | |items1]; try discriminate.
  destruct dict2 as [ | | | | |items2]; try discriminate.
  cbn [merge_dicts_depth is_dict negb orb]. unfold call_clean_dict.
  destruct (clean_fits depth (VDict items1)); cbn [bind]; try discriminate.
  destruct (clean_fits depth (VDict items2)); rewrite C1; cbn [bind];
    try discriminate.
  rewrite C2. cbn [bind]. clear C1 C2.
  set (dupe_keys := filter (dict_has d2) (map fst d1)).
  destruct (dupe_loop _ d1 d2 _ []) as [m1| |] eqn:L1; cbn [bind];
    try discriminate.
  destruct (copy_loop _ _ d1 _ m1) as [m2| |] eqn:L2; cbn [bind];
    try discriminate.
  destruct (copy_loop _ _ d2 _ m2) as [m3| |] eqn:L3; cbn [bind];
    try discriminate.
  intros H; inversion H; subst out. exists m3. split; [reflexivity|].
  destruct (dupe_loop_get _ _ _ _ _ _ L1) as [N1 G1].
  destruct (copy_loop_get _ _ _ _ _ _ L2) as [N2 G2].
  destruct (copy_loop_get _ _ _ _ _ _ L3) as [N3 G3].
  split; [apply N3, N2, N1; constructor|].
  intros key. rewrite G3, G2, G1.
  rewrite !(key_in_perm _ _ key (set_order_perm _)).
  rewrite !key_in_filter. unfold dupe_keys. rewrite key_in_filter.
  rewrite !key_in_keys. unfold merged_value.
  destruct (dict_has d1 key) eqn:H1, (dict_has d2 key) eqn:H2; cbn [andb negb].
  - destruct (dict_has_get _ _ H1) as [v1 E1].
    destruct (dict_has_get _ _ H2) as [v2 E2].
    rewrite E1, E2. reflexivity.
  - destruct (dict_has_get _ _ H1) as [v1 E1].
    rewrite E1, (dict_has_false_get _ _ H2). reflexivity.
  - destruct (dict_has_get _ _ H2) as [v2 E2].
    rewrite E2, (dict_has_false_get _ _ H1). reflexivity.
  - rewrite (dict_has_false_get _ _ H1), (dict_has_false_get _ _ H2).
    reflexivity.
Qed.

(** The merge returns its first argument or a record. *)
Lemma merge_dicts_depth_shape (depth : nat) (dict1 dict2 out : pyvalue) :
  merge_dicts_depth set_order clean_fits copy_fits depth dict1 dict2 = Ok out ->
  out = dict1 \/ is_dict out = true.
Proof.
  destruct depth as [|depth]; cbn [merge_dicts_depth]; [discriminate|].
  destruct (negb (is_dict dict1) || negb (is_dict dict2)) eqn:E.
  - intros H; inversion H. left; reflexivity.
  - destruct (call_clean_dict _ _ dict1) as [d1| |]; cbn [bind];
      try discriminate.
    destruct (call_clean_dict _ _ dict2) as [d2| |]; cbn [bind];
      try discriminate.
    destruct (dupe_loop _ _ _ _ _); cbn [bind]; try discriminate.
    destruct (copy_loop _ _ _ _ _); cbn [bind]; try discriminate.
    destruct (copy_loop _ _ _ _ _); cbn [bind]; try discriminate.
    intros H; inversion H. right; reflexivity.
Qed.

(** X14: whatever the order in which the sets of keys are iterated,
    the merge of two records is a record that maps a key both cleaned
    records have to the merge of the two values, and a key only one of them
    has to its value there. *)
Theorem merge_dicts_key_by_key (depth : nat) (dict1 dict2 out : pyvalue)
        (d1 d2 : dict) :
  clean_dict dict1 = Ok d1 -> clean_dict dict2 = Ok d2 ->
  merge_dicts_depth set_order clean_fits copy_fits (S depth) dict1 dict2
  = Ok out ->
  exists merged,
    out = VDict merged
    /\ forall key,
        dict_get merged key
        = match dict_get d1 key, dict_get d2 key with
          | Ok v1, Ok v2 =>
              merge_dicts_depth set_order clean_fits copy_fits depth v1 v2
          | Ok v1, _ => Ok v1
          | _, Ok v2 => Ok v2
          | _, _ => Raise KeyError
          end.
Proof.
  intros C1 C2 H.
  destruct (merge_dicts_depth_records _ _ _ _ _ _ C1 C2 H)
    as (merged & E & _ & G).
  exists merged. split; assumption.
Qed.

(** X15: when both records have a value that is not [None] under a
    key and one of the two values is no record, the merge has the value of
    the first record under that key. *)
Theorem merge_dicts_first_wins (depth : nat) (dict1 dict2 out : pyvalue)
        (d1 d2 : dict) (key : string) (v1 v2 : pyvalue) :
  clean_dict dict1 = Ok d1 -> clean_dict dict2 = Ok d2 ->
  merge_dicts_depth set_order clean_fits copy_fits depth dict1 dict2 = Ok out ->
  dict_get d1 key = Ok v1 -> dict_get d2 key = Ok v2 ->
  is_dict v1 && is_dict v2 = false ->
  exists merged, out = VDict merged /\ dict_get merged key = Ok v1.
Proof.
  intros C1 C2 H G1 G2 Hnot.
  destruct depth as [|depth]; [discriminate|].
  destruct (merge_dicts_depth_records _ _ _ _ _ _ C1 C2 H)
    as (merged & E & _ & G).
  exists merged. split; [exact E|].
  specialize (G key). rewrite G1, G2 in G. rewrite G.
  destruct depth as [|depth].
  - exfalso. cbn [merge_dicts_depth] in G. clear -G.
    induction merged as [|[k w] merged IH]; cbn [dict_get] in G;
      [discriminate|].
    destruct (String.eqb k key); [discriminate|auto].
  - cbn [merge_dicts_depth].
    destruct (is_dict v1), (is_dict v2); try discriminate; reflexivity.
Qed.

(** X16: the merge of two records has no [None] among its values
    (inside a value copied from one side [None] can remain). *)
Theorem merge_dicts_never_none (depth : nat) (dict1 dict2 out : pyvalue) :
  is_dict dict1 = true -> is_dict dict2 = true ->
  merge_dicts_depth set_order clean_fits copy_fits depth dict1 dict2 = Ok out ->
  exists merged,
    out = VDict merged
    /\ Forall (fun kv => is_none (snd kv) = false) merged.
Proof.
  intros I1 I2 H.
  destruct dict1 as [ | | | | |items1]; try discriminate.
  destruct dict2 as [ | | | | |items2]; try discriminate.
  destruct depth as [|depth]; [discriminate|].
  destruct (merge_dicts_depth_records depth (VDict items1) (VDict items2) out
              _ _ eq_refl eq_refl H) as (merged & E & Hnd & G).
  exists merged. split; [exact E|].
  assert (Hclean : forall items key v,
             dict_get (py_dict (filter (fun kv => negb (is_none (snd kv)))
                                       items)) key = Ok v ->
             is_none v = false).
  { intros items key v Hget. apply dict_get_In, py_dict_In, filter_In in Hget.
    destruct Hget as [_ Hv]. cbn [snd] in Hv. now apply negb_true_iff in Hv. }
  apply Forall_forall. intros [key v] Hin. cbn [snd].
  apply (In_dict_get _ _ _ Hnd) in Hin. rewrite G in Hin.
  destruct (dict_get (py_dict _) key) as [v1| |] eqn:E1;
    destruct (dict_get (py_dict (filter _ items2)) key) as [v2| |] eqn:E2;
    try discriminate;
    try (inversion Hin; subst; eapply Hclean; eassumption).
  destruct (merge_dicts_depth_shape _ _ _ _ Hin) as [->|Hd].
  - eapply Hclean; eassumption.
  - destruct v; try discriminate; reflexivity.
Qed.

(** The merging loop returns or raises [RecursionError], if the merge does. *)
Lemma dupe_loop_cases (merge : pyvalue -> pyvalue -> outcome pyvalue)
      (dict1 dict2 : dict) (keys : list string) (merged : dict) :
  (forall key, In key keys -> dict_has dict1 key = true) ->
  (forall key, In key keys -> dict_has dict2 key = true) ->
  (forall v1 v2, (exists v, merge v1 v2 = Ok v)
                 \/ merge v1 v2 = Raise RecursionError) ->
  (exists out, dupe_loop merge dict1 dict2 keys merged = Ok out)
  \/ dupe_loop merge dict1 dict2 keys merged = Raise RecursionError.
Proof.
  intros H1 H2 Hm. revert merged.
  induction keys as [|k keys IH]; intros merged; cbn [dupe_loop].
  - left. eexists; reflexivity.
  - destruct (dict_has_get _ _ (H1 k (or_introl eq_refl))) as [v1 E1].
    destruct (dict_has_get _ _ (H2 k (or_introl eq_refl))) as [v2 E2].
    rewrite E1, E2. cbn [bind].
    destruct (Hm v1 v2) as [[v Ev]|Ev]; rewrite Ev; cbn [bind];
      [|right; reflexivity].
    apply IH; intros key Hin; [apply H1|apply H2]; now right.
Qed.

(** X17: whatever the stack left, and whether or not the calls of
    [clean_dict] and [deepcopy] fit in it, [merge_dicts] returns its first
    argument or a record, or it raises [RecursionError]: no lookup of
    [dict1[key]] or [dict2[key]] raises [KeyError], and nothing else is
    raised. *)
Theorem merge_dicts_only_recursion_error (depth : nat)
        (dict1 dict2 : pyvalue) :
  (exists out,
      merge_dicts_depth set_order clean_fits copy_fits depth dict1 dict2
      = Ok out
      /\ (out = dict1 \/ is_dict out = true))
  \/ merge_dicts_depth set_order clean_fits copy_fits depth dict1 dict2
     = Raise RecursionError.
Proof.
  assert (G : forall depth dict1 dict2,
             (exists out,
                 merge_dicts_depth set_order clean_fits copy_fits depth
                                   dict1 dict2 = Ok out)
             \/ merge_dicts_depth set_order clean_fits copy_fits depth
                                  dict1 dict2 = Raise RecursionError).
  { clear depth dict1 dict2.
    induction depth as [|depth IH]; intros dict1 dict2.
    - right. reflexivity.
    - cbn [merge_dicts_depth].
      destruct dict1 as [ | | | | |items1]; cbn [is_dict negb orb];
        try (left; eexists; reflexivity).
      destruct dict2 as [ | | | | |items2]; cbn [is_dict negb orb];
        try (left; eexists; reflexivity).
      unfold call_clean_dict.
      destruct (clean_fits depth (VDict items1)); cbn [bind];
        [|right; reflexivity].
      destruct (clean_fits depth (VDict items2)); cbn [clean_dict bind];
        [|right; reflexivity].
      set (d1 := py_dict (filter (fun kv => negb (is_none (snd kv))) items1)).
      set (d2 := py_dict (filter (fun kv => negb (is_none (snd kv))) items2)).
      set (dupe_keys := filter (dict_has d2) (map fst d1)).
      destruct (dupe_loop_cases
                  (merge_dicts_depth set_order clean_fits copy_fits depth)
                  d1 d2 (set_order dupe_keys) []) as [[m1 L1]|L1].
      { intros key Hin. apply (Permutation_in _ (set_order_perm _)) in Hin.
        apply filter_In in Hin. destruct Hin as [Hin _].
        apply key_in_In in Hin. now rewrite key_in_keys in Hin. }
      { intros key Hin. apply (Permutation_in _ (set_order_perm _)) in Hin.
        apply filter_In in Hin. exact (proj2 Hin). }
      { exact (IH). }
      2: { right. rewrite L1. reflexivity. }
      rewrite L1. cbn [bind].
      destruct (copy_loop_cases copy_fits depth d1
                  (set_order (filter (fun key => negb (key_in dupe_keys key))
                                     (map fst d1))) m1) as [[m2 L2]|L2].
      { intros key Hin. apply (Permutation_in _ (set_order_perm _)) in Hin.
        apply filter_In in Hin. destruct Hin as [Hin _].
        apply key_in_In in Hin. now rewrite key_in_keys in Hin. }
      2: { right. rewrite L2. reflexivity. }
      rewrite L2. cbn [bind].
      destruct (copy_loop_cases copy_fits depth d2
                  (set_order (filter (fun key => negb (key_in dupe_keys key))
                                     (map fst d2))) m2) as [[m3 L3]|L3].
      { intros key Hin. apply (Permutation_in _ (set_order_perm _)) in Hin.
        apply filter_In in Hin. destruct Hin as [Hin _].
        apply key_in_In in Hin. now rewrite key_in_keys in Hin. }
      2: { right. rewrite L3. reflexivity. }
      rewrite L3. cbn [bind]. left. eexists; reflexivity. }
  destruct (G depth dict1 dict2) as [[out E]|E]; [left|right; exact E].
  exists out. split; [exact E|]. apply (merge_dicts_depth_shape _ _ _ _ E).
Qed.

End MergeProperties.

(** The keys of a set taken from the last to the first: one order among
    the possible ones. *)
Lemma rev_order_perm (keys : list string) : Permutation (rev keys) keys.
Proof. apply Permutation_sym, Permutation_rev. Qed.

Lemma merge_dicts_key_by_key_witness :
  exists merged,
    VDict [("os", VDict [("family", VStr "rhel"); ("version", VInt 9)]);
           ("name", VStr "web1"); ("cpus", VInt 4)]
    = VDict merged
    /\ forall key,
        dict_get merged key
        = match dict_get [("name", VStr "web1");
                          ("os", VDict [("family", VStr "rhel")])] key,
                dict_get [("name", VStr "other");
                          ("os", VDict [("version", VInt 9)]);
                          ("cpus", VInt 4)] key
          with
          | Ok v1, Ok v2 =>
              merge_dicts_depth (@rev string) (fun _ _ => true)
                                (fun _ _ => true) 2 v1 v2
          | Ok v1, _ => Ok v1
          | _, Ok v2 => Ok v2
          | _, _ => Raise KeyError
          end.
Proof.
  apply (merge_dicts_key_by_key (@rev string) rev_order_perm
           (fun _ _ => true) (fun _ _ => true) 2
           (VDict [("name", VStr "web1"); ("ram", VNone);
                   ("os", VDict [("family", VStr "rhel")])])
           (VDict [("name", VStr "other");
                   ("os", VDict [("version", VInt 9)]);
                   ("cpus", VInt 4)]));
    reflexivity.
Defined.

Lemma merge_dicts_first_wins_witness :
  exists merged,
    VDict [("name", VStr "web1")] = VDict merged
    /\ dict_get merged "name" = Ok (VStr "web1").
Proof.
  apply (merge_dicts_first_wins (@rev string) rev_order_perm
           (fun _ _ => true) (fun _ _ => true) 2
           (VDict [("name", VStr "web1")]) (VDict [("name", VStr "other")])
           (VDict [("name", VStr "web1")])
           [("name", VStr "web1")] [("name", VStr "other")] "name"
           (VStr "web1") (VStr "other"));
    reflexivity.
Defined.

Lemma merge_dicts_never_none_witness :
  exists merged,
    VDict [("os", VDict [("family", VNone)])] = VDict merged
    /\ Forall (fun kv : string * pyvalue => is_none (snd kv) = false) merged.
Proof.
  apply (merge_dicts_never_none (@rev string) rev_order_perm
           (fun _ _ => true) (fun _ _ => true) 2
           (VDict [("ram", VNone); ("os", VDict [("family", VNone)])])
           (VDict [("ram", VNone)]));
    reflexivity.
Defined.

(** Where no copy fits in the stack, the merge of a record with the empty
    record raises [RecursionError]. *)
Lemma merge_dicts_only_recursion_error_witness :
  merge_dicts_depth (@rev string) (fun _ _ => true) (fun _ _ => false) 2
                    (VDict [("name", VStr "web1")]) (VDict [])
  = Raise RecursionError
  /\ ((exists out,
         merge_dicts_depth (@rev string) (fun _ _ => true) (fun _ _ => false)
                           2 (VDict [("name", VStr "web1")]) (VDict [])
         = Ok out
         /\ (out = VDict [("name", VStr "web1")] \/ is_dict out = true))
      \/ merge_dicts_depth (@rev string) (fun _ _ => true) (fun _ _ => false)
                           2 (VDict [("name", VStr "web1")]) (VDict [])
         = Raise RecursionError).
Proof.
  split; [reflexivity|].
  apply (merge_dicts_only_recursion_error (@rev string) rev_order_perm
           (fun _ _ => true) (fun _ _ => false) 2
           (VDict [("name", VStr "web1")]) (VDict [])).
Defined.

(** X18: [clean_dict] on a record: a key whose value is [None] is not
    in the result, every other key has the value it had. *)
Theorem clean_dict_lookup (items : list (string * pyvalue)) (key : string) :
  NoDup (map fst items) ->
  exists d,
    clean_dict (VDict items) = Ok d
    /\ dict_get d key
       = match dict_get items key with
         | Ok VNone => Raise KeyError
         | r => r
         end.
Proof.
  intros Hnd. eexists. split; [reflexivity|].
  assert (Hf : NoDup (map fst (filter (fun kv : string * pyvalue =>
                                         negb (is_none (snd kv))) items))).
  { clear key. induction items as [|[k v] items IH]; cbn [filter map fst];
      [constructor|].
    inversion Hnd as [|? ? Hk Hitems]; subst.
    destruct (negb (is_none (snd (k, v)))); [|apply IH, Hitems].
    cbn [map fst]. constructor; [|apply IH, Hitems].
    intros Hin. apply Hk. apply in_map_iff in Hin.
    destruct Hin as (kv & E & Hin). apply filter_In in Hin.
    apply in_map_iff. exists kv. split; [exact E|exact (proj1 Hin)]. }
  rewrite (py_dict_NoDup_id _ Hf). clear Hf.
  induction items as [|[k v] items IH]; cbn [filter dict_get]; [reflexivity|].
  inversion Hnd as [|? ? Hk Hitems]; subst. cbn [snd].
  destruct (String.eqb_spec k key) as [->|Hne].
  - destruct v; cbn [is_none negb dict_get]; rewrite ?String.eqb_refl;
      try reflexivity.
    apply dict_has_false_get. destruct (dict_has _ key) eqn:E; [|reflexivity].
    exfalso. apply Hk. destruct (dict_has_get _ _ E) as [w Ew].
    apply dict_get_In, filter_In in Ew. apply in_map_iff.
    exists (key, w). split; [reflexivity|exact (proj1 Ew)].
  - destruct (negb (is_none v)); cbn [dict_get].
    + destruct (String.eqb_spec k key) as [->|_]; [contradiction|].
      apply IH, Hitems.
    + apply IH, Hitems.
Qed.

Lemma clean_dict_lookup_witness :
  exists d,
    clean_dict (VDict [("name", VStr "web1"); ("ram", VNone)]) = Ok d
    /\ dict_get d "ram" = Raise KeyError.
Proof.
  apply (clean_dict_lookup [("name", VStr "web1"); ("ram", VNone)] "ram").
  repeat constructor; simpl; intuition discriminate.
Defined.

(** X19: what [clean_dict] returns holds no [None], and cleaning it
    again returns it as it is. *)
Theorem clean_dict_idempotent (in_dict : pyvalue) (d : dict) :
  clean_dict in_dict = Ok d ->
  Forall (fun kv => is_none (snd kv) = false) d
  /\ clean_dict (VDict d) = Ok d.
Proof.
  destruct in_dict as [ | | | | |items]; try discriminate.
  cbn [clean_dict]. intros H; inversion H; subst d; clear H.
  set (l := filter (fun kv : string * pyvalue => negb (is_none (snd kv)))
                   items).
  assert (Hl : Forall (fun kv : string * pyvalue => is_none (snd kv) = false)
                      (py_dict l)).
  { apply Forall_py_dict. apply Forall_forall. intros kv Hin.
    apply filter_In in Hin. apply negb_true_iff. exact (proj2 Hin). }
  split; [exact Hl|]. f_equal.
  assert (Hid : filter (fun kv : string * pyvalue => negb (is_none (snd kv)))
                       (py_dict l) = py_dict l).
  { induction Hl as [|kv d Hkv _ IH]; cbn [filter]; [reflexivity|].
    rewrite Hkv. cbn [negb]. now rewrite IH. }
  rewrite Hid. apply py_dict_NoDup_id, py_dict_NoDup.
Qed.

Lemma clean_dict_idempotent_witness :
  Forall (fun kv : string * pyvalue => is_none (snd kv) = false)
         [("name", VStr "web1")]
  /\ clean_dict (VDict [("name", VStr "web1")]) = Ok [("name", VStr "web1")].
Proof.
  apply (clean_dict_idempotent
           (VDict [("name", VStr "web1"); ("ram", VNone)])).
  reflexivity.
Defined.

(** ** The inventory file *)

Lemma distinct_NoDup (keys : list string) :
  (fix distinct (keys : list string) : bool :=
     match keys with
     | [] => true
     | key :: keys' => negb (key_in keys' key) && distinct keys'
     end) keys = true ->
  NoDup keys.
Proof.
  induction keys as [|k keys IH]; intros H; constructor.
  - apply andb_true_iff in H. destruct H as [H _].
    apply negb_true_iff in H. intros Hin. apply key_in_In in Hin. congruence.
  - apply IH. apply andb_true_iff in H. exact (proj2 H).
Qed.

(** A value whose records have each key once is equal to itself. *)
Lemma py_eq_refl (v : pyvalue) : keys_once v = true -> py_eq v v = true.
Proof.
  induction v as [ | b | z | s | elems IH | items IH ] using pyvalue_nested_ind;
    cbn [keys_once py_eq]; intros H.
  - reflexivity.
  - destruct b; reflexivity.
  - apply Z.eqb_refl.
  - apply String.eqb_refl.
  - induction IH as [|x l Hx _ IHl]; [reflexivity|].
    cbn [forallb] in H. apply andb_true_iff in H. destruct H as [H1 H2].
    rewrite (Hx H1), (IHl H2). reflexivity.
  - apply andb_true_iff in H. destruct H as [Hd Hv].
    apply distinct_NoDup in Hd. rewrite Nat.eqb_refl. cbn [andb].
    apply forallb_forall. intros [k v] Hin. cbn [fst snd].
    rewrite (In_dict_get _ _ _ Hd Hin).
    rewrite Forall_forall in IH. apply (IH _ Hin).
    rewrite forallb_forall in Hv. apply (Hv _ Hin).
Qed.

(** Hosts of which no two are equal, each equal to itself: equal means the
    same, and none stands twice in the list. *)
Lemma pairwise_unequal_same (hosts : list pyvalue) :
  pairwise_unequal hosts = true ->
  (forall h, In h hosts -> py_eq h h = true) ->
  NoDup hosts
  /\ forall a b, In a hosts -> In b hosts -> py_eq a b = true -> a = b.
Proof.
  induction hosts as [|x hosts IH]; intros Hp Hr.
  - split; [constructor|intros a b []].
  - cbn [pairwise_unequal] in Hp. apply andb_true_iff in Hp.
    destruct Hp as [Hx Hp]. rewrite forallb_forall in Hx.
    destruct (IH Hp (fun h Hin => Hr h (or_intror Hin))) as [Hnd Hsame].
    assert (Hnot : forall y, In y hosts -> py_eq x y = false
                                          /\ py_eq y x = false).
    { intros y Hy. specialize (Hx y Hy). apply andb_true_iff in Hx.
      destruct Hx as [H1 H2]. apply negb_true_iff in H1, H2. auto. }
    split.
    + constructor; [|exact Hnd]. intros Hin.
      destruct (Hnot x Hin) as [H1 _].
      rewrite (Hr x (or_introl eq_refl)) in H1. discriminate.
    + intros a b [<-|Ha] [<-|Hb] E; try reflexivity.
      * destruct (Hnot b Hb) as [H1 _]. congruence.
      * destruct (Hnot a Ha) as [_ H2]. congruence.
      * apply Hsame; assumption.
Qed.

(** Removing a host that is in the list, from a list in which equal
    means the same, leaves the hosts that are not equal to it. *)
Lemma list_remove_unique (x : pyvalue) (l : list pyvalue) :
  NoDup l -> In x l ->
  (forall el, In el l -> py_eq el x = true -> el = x) ->
  py_eq x x = true ->
  list_remove x l = Ok (filter (fun el => negb (py_eq el x)) l).
Proof.
  intros Hnd Hin Hsame Hrefl.
  induction l as [|el l IH]; [contradiction|].
  inversion Hnd as [|? ? Hel Hl]; subst.
  cbn [list_remove filter].
  destruct (py_eq el x) eqn:E; cbn [negb].
  - assert (el = x) by (apply Hsame; [left; reflexivity|exact E]). subst el.
    f_equal. clear IH. symmetry.
    assert (G : forall y, In y l -> negb (py_eq y x) = true).
    { intros y Hy. apply negb_true_iff.
      destruct (py_eq y x) eqn:Ey; [|reflexivity].
      assert (y = x) by (apply Hsame; [right; exact Hy|exact Ey]).
      subst y. contradiction. }
    clear -G. induction l as [|y l IH]; cbn [filter]; [reflexivity|].
    rewrite (G y (or_introl eq_refl)). f_equal. apply IH.
    intros z Hz. apply G. now right.
  - destruct Hin as [->|Hin]; [congruence|].
    rewrite IH; [reflexivity|exact Hl|exact Hin|].
    intros y Hy. apply Hsame. now right.
Qed.

Lemma filter_filter {A : Type} (f g : A -> bool) (l : list A) :
  filter f (filter g l) = filter (fun x => g x && f x) l.
Proof.
  induction l as [|x l IH]; cbn [filter]; [reflexivity|].
  destruct (g x); cbn [filter andb]; [destruct (f x)|]; now rewrite IH.
Qed.

Section RemoveLoop.

Variable remove : list pyvalue.
Variable hosts : list pyvalue.
Hypothesis hosts_refl : forall h, In h hosts -> py_eq h h = true.
Hypothesis hosts_same :
  forall a b, In a hosts -> In b hosts -> py_eq a b = true -> a = b.

(** The removal loop in closed form: the tests run on the hosts of the
    loop in order, and of the list those go that are hosts of the loop and
    are to be removed. *)
Lemma remove_loop_closed (todo cur : list pyvalue) :
  NoDup todo -> NoDup cur -> incl todo cur -> incl cur hosts ->
  remove_loop remove todo cur
  = (_ <- comprehension (host_matches remove) todo ;;
     Ok (filter (fun el => negb (to_remove remove el
                                 && existsb (py_eq el) todo)) cur)).
Proof.
  revert cur; induction todo as [|host todo IH];
    intros cur Htodo Hcur Hin Hsub.
  - cbn [remove_loop comprehension bind existsb]. f_equal.
    induction cur as [|x cur IHc]; cbn [filter]; [reflexivity|].
    rewrite andb_false_r. cbn [negb]. f_equal. apply IHc.
    + now inversion Hcur.
    + intros y []. 
    + intros y Hy. apply Hsub. now right.
  - inversion Htodo as [|? ? Hhost Htodo']; subst.
    assert (Hhc : In host cur) by (apply Hin; left; reflexivity).
    cbn [remove_loop comprehension].
    destruct (host_matches remove host) as [hit| |] eqn:Eh; cbn [bind];
      try reflexivity.
    destruct hit.
    + rewrite (list_remove_unique host cur Hcur Hhc).
      2: { intros el Hel E. apply hosts_same; auto. }
      2: { apply hosts_refl, Hsub, Hhc. }
      cbn [bind]. rewrite IH.
      * destruct (comprehension (host_matches remove) todo); cbn [bind];
          try reflexivity.
        f_equal. rewrite filter_filter. apply filter_ext_in.
        intros el Hel. cbn [existsb].
        destruct (py_eq el host) eqn:E; cbn [negb andb orb]; [|reflexivity].
        assert (el = host) by (apply hosts_same; auto). subst el.
        unfold to_remove. rewrite Eh. reflexivity.
      * exact Htodo'.
      * apply NoDup_filter, Hcur.
      * intros h Hh. apply filter_In. split; [apply Hin; now right|].
        apply negb_true_iff. destruct (py_eq h host) eqn:E; [|reflexivity].
        assert (h = host).
        { apply hosts_same;
            [apply Hsub, Hin; now right|apply Hsub, Hhc|exact E]. }
        subst h. contradiction.
      * intros el Hel. apply filter_In in Hel. apply Hsub, Hel.
    + rewrite IH.
      * destruct (comprehension (host_matches remove) todo); cbn [bind];
          try reflexivity.
        f_equal. apply filter_ext_in. intros el Hel. cbn [existsb].
        destruct (py_eq el host) eqn:E; cbn [orb]; [|reflexivity].
        assert (el = host) by (apply hosts_same; auto). subst el.
        unfold to_remove. rewrite Eh. reflexivity.
      * exact Htodo'.
      * exact Hcur.
      * intros h Hh. apply Hin. now right.
      * exact Hsub.
Qed.

End RemoveLoop.

(** On a list of hosts of which no two are equal, the loop of
    [update_inventory] runs the tests from the last host to the first and
    leaves the hosts that are not to be removed. *)
Lemma remove_loop_reversed (remove hosts : list pyvalue) :
  Forall (fun h => keys_once h = true) hosts ->
  pairwise_unequal hosts = true ->
  remove_loop remove (rev hosts) hosts
  = (_ <- comprehension (host_matches remove) (rev hosts) ;;
     Ok (filter (fun h => negb (to_remove remove h)) hosts)).
Proof.
  intros Hwf Hp.
  assert (Hrefl : forall h, In h hosts -> py_eq h h = true).
  { intros h Hin. apply py_eq_refl. rewrite Forall_forall in Hwf. auto. }
  destruct (pairwise_unequal_same hosts Hp Hrefl) as [Hnd Hsame].
  rewrite (remove_loop_closed remove hosts Hrefl Hsame).
  - destruct (comprehension _ (rev hosts)); cbn [bind]; try reflexivity.
    f_equal. apply filter_ext_in. intros h Hin.
    assert (E : existsb (py_eq h) (rev hosts) = true).
    { apply existsb_exists. exists h. split; [|apply Hrefl, Hin].
      apply in_rev. now rewrite rev_involutive. }
    rewrite E, andb_true_r. reflexivity.
  - apply NoDup_rev, Hnd.
  - exact Hnd.
  - intros h Hin. now apply in_rev.
  - apply incl_refl.
Qed.

Lemma truthy_wrap (arg : pyvalue) : truthy (wrap arg) = truthy arg.
Proof.
  unfold wrap. destruct (truthy arg) eqn:E; cbn [andb]; [|exact E].
  destruct (is_list arg); cbn [negb]; [exact E|reflexivity].
Qed.

Lemma elements_falsy (arg : pyvalue) :
  truthy (wrap arg) = false -> elements (wrap arg) = [].
Proof.
  rewrite truthy_wrap. intros E. unfold wrap. rewrite E. cbn [andb].
  destruct arg as [ | | | |elems| ]; try reflexivity.
  destruct elems; [reflexivity|discriminate].
Qed.

(** Without a filter the inventory is what [load_file] returns. *)
Lemma load_inventory_unfiltered (f : file) :
  load_inventory f None = load_file f.
Proof. unfold load_inventory. destruct (load_file f); reflexivity. Qed.

Lemma comprehension_all_ok {A B : Type} (f : A -> outcome B) (xs : list A) :
  Forall (fun x => exists y, f x = Ok y) xs ->
  exists ys, comprehension f xs = Ok ys.
Proof.
  induction 1 as [|x xs [y Hy] _ [ys IH]]; cbn [comprehension].
  - eexists; reflexivity.
  - rewrite Hy, IH. eexists; reflexivity.
Qed.

(** [update_inventory] on an inventory that is a list, step by step. *)
Lemma update_inventory_steps (f : file) (add remove : pyvalue)
      (hosts : list pyvalue) :
  load_file f = Ok (VList hosts) ->
  update_inventory f add remove
  = match (if truthy remove
           then remove_loop (elements (wrap remove)) (rev hosts) hosts
           else Ok hosts) with
    | Ok hosts1 =>
        (Ok tt, dump (VList (hosts1 ++ elements (wrap add))) f)
    | Raise e => (Raise e, if truthy (VList hosts) then unlink f else f)
    | Unmodelled => (Unmodelled, if truthy (VList hosts) then unlink f else f)
    end.
Proof.
  intros Hload. unfold update_inventory.
  rewrite load_inventory_unfiltered, Hload, truthy_wrap.
  destruct (if truthy remove then _ else _) as [hosts1| |]; try reflexivity.
  f_equal.
  assert (E : (if truthy (wrap add) then (hosts1 ++ elements (wrap add))%list
               else hosts1) = (hosts1 ++ elements (wrap add))%list).
  { destruct (truthy (wrap add)) eqn:E; [reflexivity|].
    rewrite (elements_falsy _ E). now rewrite app_nil_r. }
  rewrite E. destruct (truthy (VList hosts)); reflexivity.
Qed.

Lemma to_remove_nothing (host : pyvalue) (hit : bool) :
  host_matches [] host = Ok hit -> hit = false.
Proof.
  unfold host_matches. destruct (subscript host "hostname"); cbn [bind];
    try discriminate.
  cbn [contains existsb].
  destruct (subscript host "name"); cbn [bind]; try discriminate.
  intros H; inversion H; reflexivity.
Qed.

(** X20: on an inventory of records of which no two are equal, when
    the membership test can be made on every host, [update_inventory]
    returns and the file then holds the hosts whose hostname and name are
    not among those to remove, in their order, followed by the hosts
    added. *)
Theorem update_inventory_result (f : file) (add remove : pyvalue)
        (hosts : list pyvalue) :
  load_file f = Ok (VList hosts) ->
  Forall (fun h => keys_once h = true) hosts ->
  pairwise_unequal hosts = true ->
  Forall (fun h => exists hit,
              host_matches (elements (wrap remove)) h = Ok hit) hosts ->
  update_inventory f add remove
  = (Ok tt,
     dump (VList (filter (fun h => negb (to_remove (elements (wrap remove)) h))
                         hosts
                  ++ elements (wrap add))) f).
Proof.
  intros Hload Hwf Hp Hok. rewrite (update_inventory_steps _ _ _ _ Hload).
  destruct (truthy remove) eqn:Hr.
  - rewrite (remove_loop_reversed _ _ Hwf Hp).
    destruct (comprehension_all_ok (host_matches (elements (wrap remove)))
                (rev hosts)) as [hits E].
    { apply Forall_forall. intros h Hin. apply in_rev in Hin.
      rewrite Forall_forall in Hok. auto. }
    rewrite E. reflexivity.
  - rewrite <- truthy_wrap in Hr. rewrite (elements_falsy _ Hr) in *.
    assert (E : filter (fun h => negb (to_remove [] h)) hosts = hosts).
    { clear -Hok. induction Hok as [|h hosts [hit Hh] _ IH]; cbn [filter];
        [reflexivity|].
      unfold to_remove at 1. rewrite Hh, (to_remove_nothing _ _ Hh).
      cbn [negb]. now rewrite IH. }
    rewrite E. reflexivity.
Qed.

Lemma update_inventory_result_witness :
  update_inventory
    (mkFile ".yaml"
            (Some (Yaml (VList [VDict [("hostname", VStr "a.example");
                                       ("name", VStr "a")];
                                VDict [("hostname", VStr "b.example");
                                       ("name", VStr "b")]]))))
    (VDict [("hostname", VStr "c.example"); ("name", VStr "c")])
    (VStr "a")
  = (Ok tt,
     mkFile ".yaml"
            (Some (Yaml (VList [VDict [("hostname", VStr "b.example");
                                       ("name", VStr "b")];
                                VDict [("hostname", VStr "c.example");
                                       ("name", VStr "c")]])))).
Proof.
  refine (eq_trans
            (update_inventory_result
               (mkFile ".yaml"
                  (Some (Yaml (VList [VDict [("hostname", VStr "a.example");
                                             ("name", VStr "a")];
                                      VDict [("hostname", VStr "b.example");
                                             ("name", VStr "b")]]))))
               (VDict [("hostname", VStr "c.example"); ("name", VStr "c")])
               (VStr "a")
               [VDict [("hostname", VStr "a.example"); ("name", VStr "a")];
                VDict [("hostname", VStr "b.example"); ("name", VStr "b")]]
               eq_refl _ eq_refl _) _).
  - repeat constructor.
  - repeat constructor; eexists; reflexivity.
  - reflexivity.
Defined.

(** The test on a record returns, or raises [KeyError]. *)
Lemma host_matches_record (remove : list pyvalue)
      (items : list (string * pyvalue)) :
  (host_matches remove (VDict items) = Raise KeyError)
  \/ exists hit, host_matches remove (VDict items) = Ok hit.
Proof.
  unfold host_matches. cbn [subscript].
  destruct (dict_has items "hostname") eqn:H1.
  - destruct (dict_has_get _ _ H1) as [v1 E1]. rewrite E1. cbn [bind].
    destruct (contains remove v1); [right; eexists; reflexivity|].
    destruct (dict_has items "name") eqn:H2.
    + destruct (dict_has_get _ _ H2) as [v2 E2]. rewrite E2. cbn [bind].
      right; eexists; reflexivity.
    + rewrite (dict_has_false_get _ _ H2). left; reflexivity.
  - rewrite (dict_has_false_get _ _ H1). left; reflexivity.
Qed.

(** X21: on an inventory of records of which no two are equal, when
    something is to be removed and some host has no key "hostname",
    [update_inventory] raises [KeyError], and the inventory file, unlinked
    before the loop, is gone. *)
Theorem update_inventory_key_error (f : file) (add remove : pyvalue)
        (hosts : list pyvalue) (items : list (string * pyvalue)) :
  load_file f = Ok (VList hosts) ->
  Forall (fun h => keys_once h = true) hosts ->
  pairwise_unequal hosts = true ->
  Forall (fun h => is_dict h = true) hosts ->
  truthy remove = true ->
  In (VDict items) hosts -> dict_has items "hostname" = false ->
  update_inventory f add remove = (Raise KeyError, unlink f).
Proof.
  intros Hload Hwf Hp Hrec Hr Hin Hmiss.
  rewrite (update_inventory_steps _ _ _ _ Hload), Hr.
  rewrite (remove_loop_reversed _ _ Hwf Hp).
  set (rm := elements (wrap remove)).
  set (bad := fun h => match host_matches rm h with
                       | Ok _ => false
                       | _ => true
                       end).
  destruct (comprehension_cases_in (host_matches rm) KeyError bad (rev hosts))
    as [[E _]|[_ E]].
  - apply Forall_forall. intros h Hh. apply in_rev in Hh.
    rewrite Forall_forall in Hrec. specialize (Hrec h Hh).
    destruct h as [ | | | | |d]; try discriminate. unfold bad.
    destruct (host_matches_record rm d) as [G|[hit G]]; rewrite G.
    + left. split; reflexivity.
    + right. split; [eexists; reflexivity|reflexivity].
  - rewrite E. cbn [bind].
    destruct hosts; [contradiction|reflexivity].
  - exfalso. assert (G : existsb bad (rev hosts) = true).
    { apply existsb_exists. exists (VDict items).
      split; [now apply in_rev in Hin|].
      unfold bad, host_matches. cbn [subscript].
      now rewrite (dict_has_false_get _ _ Hmiss). }
    congruence.
Qed.

Lemma update_inventory_key_error_witness :
  update_inventory
    (mkFile ".yaml"
            (Some (Yaml (VList [VDict [("hostname", VStr "a.example")];
                                VDict [("name", VStr "b")]]))))
    VNone (VStr "a.example")
  = (Raise KeyError, mkFile ".yaml" None).
Proof.
  refine (eq_trans
            (update_inventory_key_error
               (mkFile ".yaml"
                  (Some (Yaml (VList [VDict [("hostname", VStr "a.example")];
                                      VDict [("name", VStr "b")]]))))
               VNone (VStr "a.example")
               [VDict [("hostname", VStr "a.example")];
                VDict [("name", VStr "b")]]
               [("name", VStr "b")]
               eq_refl _ eq_refl _ eq_refl _ eq_refl) _).
  - repeat constructor.
  - repeat constructor.
  - right. left. reflexivity.
  - reflexivity.
Defined.

(** X22: whenever [update_inventory] does not return on an inventory
    that is a list, the inventory was not empty and its file no longer
    exists. *)
Theorem update_inventory_failure_unlinks (f : file) (add remove : pyvalue)
        (hosts : list pyvalue) :
  load_file f = Ok (VList hosts) ->
  fst (update_inventory f add remove) <> Ok tt ->
  hosts <> [] /\ content (snd (update_inventory f add remove)) = None.
Proof.
  intros Hload. rewrite (update_inventory_steps _ _ _ _ Hload).
  destruct hosts as [|host hosts].
  - cbn [rev remove_loop]. destruct (truthy remove); cbn [fst];
      intros H; exfalso; apply H; reflexivity.
  - intros H. split; [discriminate|].
    destruct (if truthy remove then _ else _); cbn [fst snd] in *;
      [exfalso; apply H; reflexivity|reflexivity|reflexivity].
Qed.

Lemma update_inventory_failure_unlinks_witness :
  [VDict [("name", VStr "b")]] <> []
  /\ content (snd (update_inventory
                     (mkFile ".yaml"
                             (Some (Yaml (VList [VDict [("name", VStr "b")]]))))
                     VNone (VStr "b"))) = None.
Proof.
  apply (update_inventory_failure_unlinks
           (mkFile ".yaml" (Some (Yaml (VList [VDict [("name", VStr "b")]]))))
           VNone (VStr "b") [VDict [("name", VStr "b")]] eq_refl).
  discriminate.
Defined.

(** X23: after [update_inventory] has returned the file holds the YAML
    text of a list; [load_inventory] then returns that list when the suffix
    of the file is ".yaml" or ".yml", and the empty list when the suffix is
    none of ".json", ".yaml", ".yml". *)
Theorem update_inventory_then_load (f : file) (add remove : pyvalue)
        (hosts : list pyvalue) :
  load_file f = Ok (VList hosts) ->
  fst (update_inventory f add remove) = Ok tt ->
  exists hosts',
    content (snd (update_inventory f add remove)) = Some (Yaml (VList hosts'))
    /\ (existsb (String.eqb (suffix f)) [".yaml"; ".yml"] = true ->
        load_inventory (snd (update_inventory f add remove)) None
        = Ok (VList hosts'))
    /\ (existsb (String.eqb (suffix f)) [".json"; ".yaml"; ".yml"] = false ->
        load_inventory (snd (update_inventory f add remove)) None
        = Ok (VList [])).
Proof.
  intros Hload. rewrite (update_inventory_steps _ _ _ _ Hload).
  destruct (if truthy remove then _ else _) as [hosts1| |]; cbn [fst snd];
    try discriminate.
  intros _. eexists. split; [reflexivity|].
  rewrite load_inventory_unfiltered. unfold load_file, dump, loader_load.
  cbn [content suffix]. cbn [existsb]. split.
  - intros H.
    destruct (String.eqb_spec (suffix f) ".json") as [E|_];
      [rewrite E in H; discriminate|].
    cbn [orb]. rewrite H. cbn [negb bind]. 
    destruct (hosts1 ++ elements (wrap add))%list; reflexivity.
  - intros H. rewrite H. reflexivity.
Qed.

Lemma update_inventory_then_load_witness :
  exists hosts',
    content (snd (update_inventory (mkFile ".yml" None)
                                   (VList [VDict [("name", VStr "b")]]) VNone))
    = Some (Yaml (VList hosts'))
    /\ (existsb (String.eqb (suffix (mkFile ".yml" None))) [".yaml"; ".yml"]
        = true ->
        load_inventory
          (snd (update_inventory (mkFile ".yml" None)
                                 (VList [VDict [("name", VStr "b")]]) VNone))
          None
        = Ok (VList hosts'))
    /\ (existsb (String.eqb (suffix (mkFile ".yml" None)))
                [".json"; ".yaml"; ".yml"] = false ->
        load_inventory
          (snd (update_inventory (mkFile ".yml" None)
                                 (VList [VDict [("name", VStr "b")]]) VNone))
          None
        = Ok (VList [])).
Proof.
  apply (update_inventory_then_load (mkFile ".yml" None)
           (VList [VDict [("name", VStr "b")]]) VNone []); reflexivity.
Defined.

(** X24: [load_inventory] with the empty filter is [load_inventory]
    without a filter.  Without a filter it returns the empty list when the
    file does not exist, and what it returns is the empty list or a value
    that counts as true; a non-empty list is returned whole, though
    [inventory_filter] itself does not return on it with the empty
    filter. *)
Theorem load_inventory_without_filter (f : file) :
  load_inventory f (Some "") = load_inventory f None
  /\ (content f = None -> load_inventory f None = Ok (VList []))
  /\ forall inv_data,
      load_inventory f None = Ok inv_data ->
      (inv_data = VList [] \/ truthy inv_data = true)
      /\ forall host hosts,
          inv_data = VList (host :: hosts) ->
          forall out, inventory_filter (host :: hosts) "" <> Ok out.
Proof.
  split; [reflexivity|]. split.
  - intros H. unfold load_inventory, load_file. rewrite H. reflexivity.
  - intros inv_data. rewrite load_inventory_unfiltered. intros Hload. split.
    + unfold load_file in Hload. destruct (content f) as [t|];
        [|inversion Hload; left; reflexivity].
      destruct (negb _); [inversion Hload; left; reflexivity|].
      destruct (loader_load f t) as [data| |]; cbn [bind] in Hload;
        try discriminate.
      inversion Hload. destruct (truthy data) eqn:E;
        [right; exact E|left; reflexivity].
    + intros host hosts _ out.
      destruct (classify_filter_without_token "" eq_refl)
        as (c & rest & Hfs & Hc).
      unfold inventory_filter. rewrite Hfs. cbn [bind]. rewrite Hc.
      cbn [inventory_loop].
      destruct (flatten_dict host "" "."); cbn [bind inventory_eval_list];
        discriminate.
Qed.

Lemma load_inventory_without_filter_witness :
  load_inventory (mkFile ".yaml" None) None = Ok (VList []).
Proof.
  apply (proj1 (proj2 (load_inventory_without_filter (mkFile ".yaml" None)))).
  reflexivity.
Defined.

(** ** Arguments that name files *)

(** Values that name no file are set one after the other. *)
Lemma resolve_loop_plain (files : string -> file) (items final_args : args) :
  Forall (fun kv => names_file (snd kv) = false) items ->
  resolve_loop files items final_args
  = Resolved (fold_left (fun d kv => dict_set d (fst kv) (snd kv))
                        items final_args).
Proof.
  intros H. revert final_args.
  induction H as [|[key val] items Hv _ IH]; intros final_args;
    cbn [resolve_loop fold_left]; [reflexivity|].
  cbn [snd] in Hv. rewrite Hv. apply IH.
Qed.

(** X25: arguments none of whose values is a [Path] or a string that
    ends in "json", "yaml" or ".yml" are returned as they are, whatever the
    files. *)
Theorem resolve_file_args_plain (files : string -> file) (items : args) :
  Forall (fun kv => names_file (snd kv) = false) items ->
  NoDup (map fst items) ->
  resolve_file_args files items = Resolved items.
Proof.
  intros H Hnd. unfold resolve_file_args.
  rewrite (resolve_loop_plain _ _ _ H).
  f_equal. apply (py_dict_NoDup_id items Hnd).
Qed.

Lemma resolve_file_args_plain_witness :
  resolve_file_args (fun _ => mkFile ".yaml" None)
                    [("nick", AVal (VStr "rhel9")); ("count", AVal (VInt 2))]
  = Resolved [("nick", AVal (VStr "rhel9")); ("count", AVal (VInt 2))].
Proof.
  apply (resolve_file_args_plain (fun _ => mkFile ".yaml" None)
           [("nick", AVal (VStr "rhel9")); ("count", AVal (VInt 2))]).
  - repeat constructor.
  - repeat constructor; simpl; intuition discriminate.
Defined.

(** Where the loop can raise [BrokerError]. *)
Lemma resolve_loop_broker_error (files : string -> file)
      (items final_args : args) (val : arg) :
  resolve_loop files items final_args = BrokerError val ->
  In ("args_file", val) items
  /\ names_file val = true
  /\ exists path data,
      path_of val = Some path
      /\ load_file (files path) = Ok data /\ truthy data = false.
Proof.
  revert final_args; induction items as [|[key v] items IH];
    intros final_args; cbn [resolve_loop]; [discriminate|].
  assert (Hrest : forall fa, resolve_loop files items fa = BrokerError val ->
                  In ("args_file", val) ((key, v) :: items)
                  /\ names_file val = true
                  /\ exists path data,
                      path_of val = Some path
                      /\ load_file (files path) = Ok data
                      /\ truthy data = false).
  { intros fa H. destruct (IH _ H) as (H1 & H2 & H3).
    split; [right; exact H1|split; assumption]. }
  destruct (names_file v) eqn:Hn; [|apply Hrest].
  destruct (path_of v) as [path|] eqn:Hp; try discriminate.
  destruct (load_file (files path)) as [data| |] eqn:Hload; try discriminate.
  destruct (truthy data) eqn:Ht.
  - destruct (String.eqb key "args_file"); [|apply Hrest].
    destruct data as [ | | | |l|d]; try apply Hrest.
    destruct (update_each final_args l); try discriminate. apply Hrest.
  - destruct (String.eqb_spec key "args_file") as [->|_]; [|apply Hrest].
    intros H; inversion H; subst val.
    split; [left; reflexivity|]. split; [exact Hn|].
    exists path, data. repeat split; assumption.
Qed.

(** X26: [resolve_file_args] raises [BrokerError] only for the key
    "args_file", when its value is a [Path] or a string that ends in "json",
    "yaml" or ".yml", and [load_file] gets nothing that counts as true
    from the file at that path. *)
Theorem resolve_file_args_broker_error (files : string -> file)
        (broker_args : args) (val : arg) :
  resolve_file_args files broker_args = BrokerError val ->
  In ("args_file", val) broker_args
  /\ names_file val = true
  /\ exists path data,
      path_of val = Some path
      /\ load_file (files path) = Ok data /\ truthy data = false.
Proof.
  unfold resolve_file_args. apply resolve_loop_broker_error.
Qed.

Lemma resolve_file_args_broker_error_witness :
  In ("args_file", APath "missing.txt")
     [("nick", AVal (VStr "rhel9")); ("args_file", APath "missing.txt")]
  /\ names_file (APath "missing.txt") = true
  /\ exists path data,
      path_of (APath "missing.txt") = Some path
      /\ load_file ((fun _ => mkFile ".txt" None) path) = Ok data
      /\ truthy data = false.
Proof.
  apply (resolve_file_args_broker_error (fun _ => mkFile ".txt" None)
           [("nick", AVal (VStr "rhel9")); ("args_file", APath "missing.txt")]
           (APath "missing.txt")).
  reflexivity.
Defined.

Lemma dict_has_set {V : Type} (d : list (string * V)) (key key' : string)
      (v : V) :
  dict_has (dict_set d key v) key' = String.eqb key key' || dict_has d key'.
Proof.
  induction d as [|[k w] d IH]; cbn [dict_set dict_has].
  - now rewrite orb_false_r.
  - destruct (String.eqb_spec k key) as [->|Hk]; cbn [dict_has].
    + destruct (String.eqb key key'); reflexivity.
    + rewrite IH. destruct (String.eqb k key'), (String.eqb key key');
        reflexivity.
Qed.

Lemma dict_has_update (d : args) (data : dict) (key : string) :
  dict_has d key = true -> dict_has (dict_update d data) key = true.
Proof.
  unfold dict_update. revert d; induction data as [|[k v] data IH];
    intros d H; cbn [fold_left]; [exact H|].
  apply IH. rewrite dict_has_set, H. apply orb_true_r.
Qed.

Lemma dict_has_update_each (d d' : args) (data : list pyvalue)
      (key : string) :
  update_each d data = Ok d' -> dict_has d key = true ->
  dict_has d' key = true.
Proof.
  revert d; induction data as [|x data IH]; intros d; cbn [update_each].
  - intros H; inversion H; auto.
  - destruct x; try discriminate. intros H Hd.
    apply (IH _ H). apply dict_has_update, Hd.
Qed.

(** The loop keeps the keys that are set. *)
Lemma resolve_loop_keeps (files : string -> file)
      (items final_args out : args) (key : string) :
  resolve_loop files items final_args = Resolved out ->
  dict_has final_args key = true -> dict_has out key = true.
Proof.
  revert final_args; induction items as [|[k v] items IH];
    intros final_args; cbn [resolve_loop].
  - intros H; inversion H; auto.
  - assert (Hset : forall w, resolve_loop files items
                               (dict_set final_args k w) = Resolved out ->
                             dict_has final_args key = true ->
                             dict_has out key = true).
    { intros w H Hd. apply (IH _ H). rewrite dict_has_set, Hd.
      apply orb_true_r. }
    destruct (names_file v); [|apply Hset].
    destruct (path_of v) as [path|]; try discriminate.
    destruct (load_file (files path)) as [data| |]; try discriminate.
    destruct (truthy data).
    + destruct (String.eqb k "args_file"); [|apply Hset].
      destruct data as [ | | | |l|d]; try apply IH.
      * destruct (update_each final_args l) as [fa| |] eqn:E;
          try discriminate.
        intros H Hd. apply (IH _ H). apply (dict_has_update_each _ _ _ _ E Hd).
      * intros H Hd. apply (IH _ H). apply dict_has_update, Hd.
    + destruct (String.eqb k "args_file"); [discriminate|apply Hset].
Qed.

(** X27: when [resolve_file_args] returns, every key of the arguments
    other than "args_file" is a key of the result. *)
Theorem resolve_file_args_keeps_keys (files : string -> file)
        (items out : args) (key : string) :
  resolve_file_args files items = Resolved out ->
  dict_has items key = true -> key <> "args_file" ->
  dict_has out key = true.
Proof.
  unfold resolve_file_args. generalize (@nil (string * arg)) as final_args.
  induction items as [|[k v] items IH]; intros final_args H Hin Hkey;
    cbn [dict_has] in Hin; [discriminate|].
  destruct (String.eqb_spec k key) as [->|Hk].
  - clear IH Hin. cbn [resolve_loop] in H.
    assert (Hset : forall w, resolve_loop files items
                               (dict_set final_args key w) = Resolved out ->
                             dict_has out key = true).
    { intros w G. apply (resolve_loop_keeps _ _ _ _ _ G).
      rewrite dict_has_set, String.eqb_refl. reflexivity. }
    destruct (names_file v); [|apply (Hset _ H)].
    destruct (path_of v) as [path|]; try discriminate.
    destruct (load_file (files path)) as [data| |]; try discriminate.
    destruct (String.eqb_spec key "args_file") as [E|_]; [contradiction|].
    destruct (truthy data); apply (Hset _ H).
  - cbn [orb] in Hin. cbn [resolve_loop] in H.
    destruct (names_file v); [|apply (IH _ H Hin Hkey)].
    destruct (path_of v) as [path|]; try discriminate.
    destruct (load_file (files path)) as [data| |]; try discriminate.
    destruct (truthy data).
    + destruct (String.eqb k "args_file"); [|apply (IH _ H Hin Hkey)].
      destruct data as [ | | | |l|d]; try apply (IH _ H Hin Hkey).
      destruct (update_each final_args l) as [fa| |]; try discriminate.
      apply (IH _ H Hin Hkey).
    + destruct (String.eqb k "args_file"); [discriminate|].
      apply (IH _ H Hin Hkey).
Qed.

Lemma resolve_file_args_keeps_keys_witness :
  dict_has [("count", AVal (VInt 2)); ("hosts", AVal (VList [VStr "a"]))]
           "count" = true.
Proof.
  apply (resolve_file_args_keeps_keys
           (fun _ => mkFile ".yaml"
                            (Some (Yaml (VDict [("hosts",
                                                 VList [VStr "a"])]))))
           [("count", AVal (VInt 2)); ("args_file", APath "args.yaml")]
           [("count", AVal (VInt 2)); ("hosts", AVal (VList [VStr "a"]))]
           "count").
  - reflexivity.
  - reflexivity.
  - discriminate.
Defined.
